(** * Memri: session lifecycle, temporary content and demo-account cleanup

    A shallow embedding of the server side of the photo-album application:
    the session store ([DatabaseSessionStore]), the authentication service
    and controller, the temporal storage service, the demo cleanup service,
    the temporary demo user service, the create-collection route and the
    photo model.

    The asynchronous TypeScript code is embedded in a state-and-exception
    monad over a [World]: the relational tables, the blob store, the clock,
    the pending storage failures and the trace of observable effects.
    Every [await] on the database or on the blob store is one atomic step;
    the steps of one operation run in program order. *)

From Stdlib Require Import ZArith List String Ascii Bool Lia DecimalString.
Import ListNotations.
Open Scope Z_scope.
Open Scope string_scope.
Open Scope list_scope.

Set Implicit Arguments.

(** ** JavaScript helpers *)

Module Js.

(** [hay.includes(needle)] *)
Definition includes (needle hay : string) : bool :=
  match String.index 0 needle hay with
  | Some _ => true
  | None => false
  end.

Fixpoint has_char (sep : ascii) (s : string) : bool :=
  match s with
  | EmptyString => false
  | String c s' => Ascii.eqb c sep || has_char sep s'
  end.

(** [s.split(sep).pop()] for a one-character separator *)
Fixpoint split_pop (sep : ascii) (s : string) : string :=
  match s with
  | EmptyString => EmptyString
  | String c s' =>
      if Ascii.eqb c sep then split_pop sep s'
      else if has_char sep s' then split_pop sep s'
      else s
  end.

(** [s.slice(-n)] *)
Definition slice_last (n : nat) (s : string) : string :=
  String.substring (String.length s - n) n s.

(** truthiness of a string: the empty string is falsy *)
Definition truthy (s : string) : bool :=
  negb (String.eqb s "").

(** [String(n)] for an integer *)
Definition of_Z (n : Z) : string :=
  NilZero.string_of_int (Z.to_int n).

(** [!b] for a nullable boolean: [null] is falsy *)
Definition not (b : option bool) : bool :=
  match b with
  | Some true => false
  | _ => true
  end.

(** [s.replace(needle, repl)]: the first occurrence only *)
Definition replace (needle repl s : string) : string :=
  match String.index 0 needle s with
  | Some i =>
      (String.substring 0 i s ++ repl ++
       String.substring (i + String.length needle)
         (String.length s - (i + String.length needle)) s)%string
  | None => s
  end.

(** A field of a parsed request body. *)
Inductive value : Type :=
| undefined
| boolean (b : bool)
| text (s : string).

End Js.

(** ** Schema (shared/schema.ts)

    One record per table, with the columns the server code reads or writes.
    Timestamps are milliseconds since the epoch.  Nullable columns are
    options.  The audit columns [createdAt]/[updatedAt]/[uploadedAt], the
    password hash and the profile picture take no part in any operation
    below and are left out. *)

Record User : Type := mkUser {
  u_id : Z;
  u_username : string;
  u_displayName : string
}.

Record Session : Type := mkSession {
  s_id : string;
  s_userId : Z;
  s_username : string;
  s_expiresAt : Z
}.

Record Collection : Type := mkCollection {
  c_id : Z;
  c_name : string;
  c_description : option string;
  c_type : string;
  c_userId : option Z;
  c_isTemporary : option bool;
  c_sessionId : option string;
  c_expiresAt : option Z
}.

Record CollectionOwner : Type := mkOwner {
  o_collectionId : Z;
  o_userId : Z
}.

Record Photo : Type := mkPhoto {
  p_id : Z;
  p_title : string;
  p_fileName : string;
  p_fileType : string;
  p_filePath : string;
  p_isLiked : option bool;
  p_collectionId : option Z;
  p_isTemporary : option bool;
  p_sessionId : option string;
  p_expiresAt : option Z
}.

Record Partnership : Type := mkPartnership {
  pt_user1Id : Z;
  pt_user2Id : Z
}.

(** The database: the tables in storage order, and the [serial] sequences.
    The tables [comments] and [partnership_invitations], which the
    operations below neither read nor write, are not part of it. *)
Record DB : Type := mkDB {
  users : list User;
  sessions : list Session;
  collections : list Collection;
  collectionOwners : list CollectionOwner;
  photos : list Photo;
  partnerships : list Partnership;
  users_seq : Z;
  collections_seq : Z;
  photos_seq : Z
}.

(** ** SQL layer

    Comparisons follow SQL: a comparison with NULL is not true.  Deletes
    follow the [onDelete: "cascade"] references of the schema:
    sessions -> collections, photos; collections -> collection_owners;
    users -> sessions, collection_owners, partnerships.

    The references without an [onDelete] action ([photos.collection_id],
    [collections.user_id], [comments.user_id]), the reference
    [sessions.user_id] on insert and the range of the [integer] columns are
    not checked by the statements below: a statement always runs unless
    the failure schedule of the world refuses it.  What a theorem says
    about rows being gone, or about the answer to an id taken from the
    URL, is stated where the database accepts the statement
    ([photos_go_with], [session_deletable], [sweepable],
    [account_exists], [int4] in the specification vocabulary). *)

Module Sql.

Definition is_true (b : option bool) : bool :=
  match b with
  | Some true => true
  | _ => false
  end.

Definition eq_str (col : option string) (v : string) : bool :=
  match col with
  | Some x => String.eqb x v
  | None => false
  end.

Definition lt (col : option Z) (v : Z) : bool :=
  match col with
  | Some x => (x <? v)%Z
  | None => false
  end.

Definition eq_int (col : option Z) (v : Z) : bool :=
  match col with
  | Some x => (x =? v)%Z
  | None => false
  end.

Definition mem (x : Z) (l : list Z) : bool := existsb (Z.eqb x) l.

Definition mem_str (x : string) (l : list string) : bool :=
  existsb (String.eqb x) l.

Definition inArray (col : option Z) (l : list Z) : bool :=
  match col with
  | Some x => mem x l
  | None => false
  end.

Definition inArray_str (col : option string) (l : list string) : bool :=
  match col with
  | Some x => mem_str x l
  | None => false
  end.

Definition limit {A} (n : nat) (rows : list A) : list A := firstn n rows.

Definition with_photos (d : DB) (l : list Photo) : DB :=
  mkDB (users d) (sessions d) (collections d) (collectionOwners d) l
       (partnerships d) (users_seq d) (collections_seq d) (photos_seq d).

Definition with_collections (d : DB) (l : list Collection) : DB :=
  mkDB (users d) (sessions d) l (collectionOwners d) (photos d)
       (partnerships d) (users_seq d) (collections_seq d) (photos_seq d).

Definition with_collectionOwners (d : DB) (l : list CollectionOwner) : DB :=
  mkDB (users d) (sessions d) (collections d) l (photos d)
       (partnerships d) (users_seq d) (collections_seq d) (photos_seq d).

Definition with_sessions (d : DB) (l : list Session) : DB :=
  mkDB (users d) l (collections d) (collectionOwners d) (photos d)
       (partnerships d) (users_seq d) (collections_seq d) (photos_seq d).

Definition with_users (d : DB) (l : list User) : DB :=
  mkDB l (sessions d) (collections d) (collectionOwners d) (photos d)
       (partnerships d) (users_seq d) (collections_seq d) (photos_seq d).

Definition with_partnerships (d : DB) (l : list Partnership) : DB :=
  mkDB (users d) (sessions d) (collections d) (collectionOwners d) (photos d)
       l (users_seq d) (collections_seq d) (photos_seq d).

Definition keep {A} (P : A -> bool) (l : list A) : list A :=
  filter (fun x => negb (P x)) l.

(** DELETE FROM photos WHERE P *)
Definition delete_photos (P : Photo -> bool) (d : DB) : DB :=
  with_photos d (keep P (photos d)).

(** DELETE FROM collection_owners WHERE P *)
Definition delete_collectionOwners (P : CollectionOwner -> bool) (d : DB) : DB :=
  with_collectionOwners d (keep P (collectionOwners d)).

(** DELETE FROM collections WHERE P; cascades to collection_owners *)
Definition delete_collections (P : Collection -> bool) (d : DB) : DB :=
  let gone := map c_id (filter P (collections d)) in
  delete_collectionOwners (fun o => mem (o_collectionId o) gone)
    (with_collections d (keep P (collections d))).

(** DELETE FROM sessions WHERE P; cascades to the photos and collections
    whose [session_id] names a deleted session *)
Definition delete_sessions (P : Session -> bool) (d : DB) : DB :=
  let gone := map s_id (filter P (sessions d)) in
  delete_collections (fun c => inArray_str (c_sessionId c) gone)
    (delete_photos (fun p => inArray_str (p_sessionId p) gone)
       (with_sessions d (keep P (sessions d)))).

(** DELETE FROM users WHERE P; cascades to sessions, collection_owners
    and partnerships *)
Definition delete_users (P : User -> bool) (d : DB) : DB :=
  let gone := map u_id (filter P (users d)) in
  delete_sessions (fun s => mem (s_userId s) gone)
    (delete_collectionOwners (fun o => mem (o_userId o) gone)
       (with_partnerships
          (with_users d (keep P (users d)))
          (keep (fun q => mem (pt_user1Id q) gone || mem (pt_user2Id q) gone)
             (partnerships d)))).

(** The photo rows a session delete removes by cascade. *)
Definition session_cascade_photos (P : Session -> bool) (d : DB) : list Photo :=
  let gone := map s_id (filter P (sessions d)) in
  filter (fun p => inArray_str (p_sessionId p) gone) (photos d).

Definition user_cascade_photos (P : User -> bool) (d : DB) : list Photo :=
  let gone := map u_id (filter P (users d)) in
  session_cascade_photos (fun s => mem (s_userId s) gone) d.

(** UPDATE photos SET f WHERE P RETURNING * *)
Definition update_photos (P : Photo -> bool) (f : Photo -> Photo) (d : DB)
  : list Photo * DB :=
  (map f (filter P (photos d)),
   with_photos d (map (fun p => if P p then f p else p) (photos d))).

(** UPDATE collections SET f WHERE P RETURNING * *)
Definition update_collections (P : Collection -> bool)
    (f : Collection -> Collection) (d : DB) : list Collection * DB :=
  (map f (filter P (collections d)),
   with_collections d (map (fun c => if P c then f c else c) (collections d))).

(** INSERT INTO sessions ... ON CONFLICT (id) DO UPDATE SET ...; the row
    updated keeps its place in the list (the order of the rows of a table
    is not fixed by PostgreSQL). *)
Definition upsert_session (s : Session) (d : DB) : DB :=
  if mem_str (s_id s) (map s_id (sessions d))
  then with_sessions d
         (map (fun r => if String.eqb (s_id r) (s_id s) then s else r)
            (sessions d))
  else with_sessions d (sessions d ++ [s]).

(** INSERT INTO users ... RETURNING *: the row inserted, with the next
    value of the [serial] sequence as its id *)
Definition insert_user (username displayName : string) (d : DB)
  : User * DB :=
  let row := mkUser (users_seq d) username displayName in
  (row,
   mkDB (users d ++ [row]) (sessions d) (collections d) (collectionOwners d)
        (photos d) (partnerships d) (users_seq d + 1) (collections_seq d)
        (photos_seq d)).

(** INSERT INTO collections ... RETURNING * *)
Definition insert_collection (mk : Z -> Collection) (d : DB)
  : Collection * DB :=
  let row := mk (collections_seq d) in
  (row,
   mkDB (users d) (sessions d) (collections d ++ [row]) (collectionOwners d)
        (photos d) (partnerships d) (users_seq d) (collections_seq d + 1)
        (photos_seq d)).

(** INSERT INTO photos ... RETURNING * *)
Definition insert_photo (mk : Z -> Photo) (d : DB) : Photo * DB :=
  let row := mk (photos_seq d) in
  (row,
   mkDB (users d) (sessions d) (collections d) (collectionOwners d)
        (photos d ++ [row]) (partnerships d) (users_seq d) (collections_seq d)
        (photos_seq d + 1)).

(** INSERT INTO collection_owners ... *)
Definition insert_owner (o : CollectionOwner) (d : DB) : DB :=
  with_collectionOwners d (collectionOwners d ++ [o]).

(** collections INNER JOIN collection_owners ON id = collection_id *)
Definition collections_join_owners (d : DB)
  : list (Collection * CollectionOwner) :=
  flat_map
    (fun c => map (fun o => (c, o))
                (filter (fun o => (o_collectionId o =? c_id c)%Z)
                   (collectionOwners d)))
    (collections d).

(** users INNER JOIN sessions ON users.id = sessions.user_id *)
Definition users_join_sessions (d : DB) : list (User * Session) :=
  flat_map
    (fun u => map (fun s => (u, s))
                (filter (fun s => (u_id u =? s_userId s)%Z) (sessions d)))
    (users d).

End Sql.

(** ** The world and the effect monad *)

(** Observable effects, in the order they happen. *)
Inductive Event : Type :=
| ConsoleError (msg : string)
| BlobDelete (key : string) (ok : bool)
| BlobSave (key : string) (ok : bool)
| PhotoRowsDeleted (ids : list Z)
| Scheduled (delay : Z) (userId : Z) (sessionId : string).

(** [w_dbFaults] and [w_blobFaults] say which of the coming database
    statements and blob-store calls fail: the head is consumed by the next
    call, [Some msg] makes a database statement reject with [Error(msg)],
    [true] makes a blob call reject; an exhausted list means no further
    failure.  A statement that fails changes nothing.  Every reason a
    statement can have to reject is covered by this schedule: a lost
    connection as well as a violated constraint (a unique index, a
    reference without cascade such as [photos.collection_id] or
    [collections.user_id]).  A statement that succeeds has its SQL meaning.
    [w_now] is the clock, which stands still during one operation;
    [w_random] is the supply behind [Math.random()]. *)
Record World : Type := mkWorld {
  w_db : DB;
  w_blobs : list string;
  w_now : Z;
  w_dbFaults : list (option string);
  w_blobFaults : list bool;
  w_random : list string;
  w_trace : list Event
}.

Inductive Outcome (A : Type) : Type :=
| Ok (a : A)
| Throw (message : string).

Arguments Ok {A} a.
Arguments Throw {A} message.

Definition M (A : Type) : Type := World -> Outcome A * World.

Definition ret {A} (a : A) : M A := fun w => (Ok a, w).

Definition bind {A B} (m : M A) (k : A -> M B) : M B :=
  fun w =>
    match m w with
    | (Ok a, w') => k a w'
    | (Throw e, w') => (Throw e, w')
    end.

Definition throw {A} (message : string) : M A := fun w => (Throw message, w).

(** [try { m } catch (error) { h error }] *)
Definition try_catch {A} (m : M A) (h : string -> M A) : M A :=
  fun w =>
    match m w with
    | (Ok a, w') => (Ok a, w')
    | (Throw e, w') => h e w'
    end.

Declare Scope monad_scope.
Delimit Scope monad_scope with monad.
Notation "x <- m ;; k" := (bind m (fun x => k))
  (at level 61, m at next level, right associativity) : monad_scope.
Notation "m ;; k" := (bind m (fun _ => k))
  (at level 61, right associativity) : monad_scope.
Open Scope monad_scope.

(** [for (const x of xs) { body x }] *)
Fixpoint for_of {A} (xs : list A) (body : A -> M unit) : M unit :=
  match xs with
  | [] => ret tt
  | x :: rest => body x ;; for_of rest body
  end.

Definition with_db (w : World) (d : DB) : World :=
  mkWorld d (w_blobs w) (w_now w) (w_dbFaults w) (w_blobFaults w)
          (w_random w) (w_trace w).

Definition with_dbFaults (w : World) (l : list (option string)) : World :=
  mkWorld (w_db w) (w_blobs w) (w_now w) l (w_blobFaults w)
          (w_random w) (w_trace w).

Definition with_random (w : World) (l : list string) : World :=
  mkWorld (w_db w) (w_blobs w) (w_now w) (w_dbFaults w) (w_blobFaults w)
          l (w_trace w).

Definition emit (e : Event) : M unit :=
  fun w =>
    (Ok tt,
     mkWorld (w_db w) (w_blobs w) (w_now w) (w_dbFaults w) (w_blobFaults w)
             (w_random w) (w_trace w ++ [e])).

(** [console.error(msg, ...)]; [console.log] output is not modelled. *)
Definition console_error (msg : string) : M unit := emit (ConsoleError msg).

(** [Date.now()] / [new Date()] *)
Definition Date_now : M Z := fun w => (Ok (w_now w), w).

(** [Math.random().toString(36)...]: the next token of the supply. *)
Definition Math_random : M string :=
  fun w =>
    match w_random w with
    | r :: rest => (Ok r, with_random w rest)
    | [] => (Ok "", w)
    end.

(** The world after a statement that succeeded. *)
Definition after_stmt (w : World) (d' : DB) (events : list Event) : World :=
  mkWorld d' (w_blobs w) (w_now w) (tl (w_dbFaults w)) (w_blobFaults w)
          (w_random w) (w_trace w ++ events).

(** One database statement: [f] gives the rows returned and the new tables,
    [ev] the effects to record when the statement succeeds. *)
Definition db_stmt {A} (f : DB -> A * DB) (ev : DB -> list Event) : M A :=
  fun w =>
    match w_dbFaults w with
    | Some msg :: rest => (Throw msg, with_dbFaults w rest)
    | _ =>
        (Ok (fst (f (w_db w))),
         after_stmt w (snd (f (w_db w))) (ev (w_db w)))
    end.

(** A SELECT. *)
Definition db_query {A} (q : DB -> A) : M A :=
  db_stmt (fun d => (q d, d)) (fun _ => []).

(** An INSERT or UPDATE with RETURNING. *)
Definition db_exec {A} (f : DB -> A * DB) : M A :=
  db_stmt f (fun _ => []).

(** An INSERT, UPDATE or DELETE that returns no rows and removes no photo. *)
Definition db_run (f : DB -> DB) : M unit :=
  db_stmt (fun d => (tt, f d)) (fun _ => []).

(** A DELETE that removes the photo rows [gone] (directly or by cascade). *)
Definition db_delete (f : DB -> DB) (gone : DB -> list Photo) : M unit :=
  db_stmt (fun d => (tt, f d))
          (fun d => [PhotoRowsDeleted (map p_id (gone d))]).

(** [bucket.file(key).delete()] *)
Definition blob_delete (key : string) : M unit :=
  fun w =>
    match w_blobFaults w with
    | true :: rest =>
        (Throw "blob delete failed",
         mkWorld (w_db w) (w_blobs w) (w_now w) (w_dbFaults w) rest
                 (w_random w) (w_trace w ++ [BlobDelete key false]))
    | faults =>
        (Ok tt,
         mkWorld (w_db w)
                 (filter (fun k => negb (String.eqb k key)) (w_blobs w))
                 (w_now w) (w_dbFaults w) (tl faults)
                 (w_random w) (w_trace w ++ [BlobDelete key true]))
    end.

(** [bucket.file(key).save(buffer)] *)
Definition blob_save (key : string) : M unit :=
  fun w =>
    match w_blobFaults w with
    | true :: rest =>
        (Throw "blob save failed",
         mkWorld (w_db w) (w_blobs w) (w_now w) (w_dbFaults w) rest
                 (w_random w) (w_trace w ++ [BlobSave key false]))
    | faults =>
        (Ok tt,
         mkWorld (w_db w) (key :: w_blobs w)
                 (w_now w) (w_dbFaults w) (tl faults)
                 (w_random w) (w_trace w ++ [BlobSave key true]))
    end.

(** ** Configuration constants

    [DemoCleanupService] and [DemoUserService] declare the same allowlist;
    [AuthService] and [DemoUserService] the same session duration. *)

Definition PROTECTED_COLLECTION_IDS : list Z := [1; 2; 3; 4; 6].
Definition DEMO_USERNAME : string := "demo".
Definition DEMO_USER_PREFIX : string := "demo_".
Definition SESSION_DURATION : Z := 10 * 60 * 1000.
Definition SESSION_REFRESH_THRESHOLD : Z := 2 * 60 * 1000.

(** ** models/photo-model.ts *)

Definition deletePhotoFromFirebaseStorage (filePath : string) : M unit :=
  try_catch
    (let fileName :=
       if Js.includes "/" filePath then Js.split_pop "/"%char filePath
       else filePath in
     blob_delete ("uploads/" ++ fileName)%string)
    (fun _ => console_error "Error deleting photo from Firebase Storage:").

Definition savePhotoToFirebaseStorage (fileName : string) : M string :=
  try_catch
    (blob_save ("uploads/" ++ fileName)%string ;;
     ret fileName)
    (fun _ =>
       console_error "Error saving photo to Firebase Storage:" ;;
       throw "Failed to save photo to Firebase Storage").

Definition getPhoto (id : Z) : M (option Photo) :=
  result <- db_query (fun d => filter (fun p => (p_id p =? id)%Z) (photos d)) ;;
  ret (hd_error result).

Definition set_isLiked (v : option bool) (p : Photo) : Photo :=
  mkPhoto (p_id p) (p_title p) (p_fileName p) (p_fileType p) (p_filePath p)
          v (p_collectionId p) (p_isTemporary p) (p_sessionId p)
          (p_expiresAt p).

(** [isLiked: !v] on the rows whose id is [id]. *)
Definition flip_like (v : option bool) (id : Z) (p : Photo) : Photo :=
  if (p_id p =? id)%Z then set_isLiked (Some (Js.not v)) p else p.

Definition toggleLikePhoto (id : Z) : M (option Photo) :=
  photo <- getPhoto id ;;
  match photo with
  | None => ret None
  | Some photo =>
      result <- db_exec
                  (Sql.update_photos (fun p => (p_id p =? id)%Z)
                     (set_isLiked (Some (Js.not (p_isLiked photo))))) ;;
      ret (hd_error result)
  end.

Record InsertPhoto : Type := mkInsertPhoto {
  ip_title : string;
  ip_fileName : string;
  ip_fileType : string;
  ip_filePath : string;
  ip_isLiked : option bool;
  ip_collectionId : option Z;
  ip_isTemporary : option bool;
  ip_sessionId : option string;
  ip_expiresAt : option Z
}.

Definition createPhoto (insertPhoto : InsertPhoto) : M Photo :=
  db_exec
    (Sql.insert_photo
       (fun id =>
          mkPhoto id (ip_title insertPhoto) (ip_fileName insertPhoto)
                  (ip_fileType insertPhoto) (ip_filePath insertPhoto)
                  (Some (Sql.is_true (ip_isLiked insertPhoto)))
                  (ip_collectionId insertPhoto) (ip_isTemporary insertPhoto)
                  (ip_sessionId insertPhoto) (ip_expiresAt insertPhoto))).

(** ** models/demo-cleanup-service.ts *)

Definition failed_blob_message (id : Z) : string :=
  ("Failed to delete photo " ++ Js.of_Z id ++ " from Firebase Storage:")%string.

Definition in_collections (collectionIds : list Z) (p : Photo) : bool :=
  Sql.inArray (p_collectionId p) collectionIds.

Definition cleanupPhotosFromFirebaseStorage (collectionIds : list Z) : M unit :=
  try_catch
    (photosToDelete <-
       db_query (fun d => filter (in_collections collectionIds) (photos d)) ;;
     for_of photosToDelete
       (fun photo =>
          try_catch
            (deletePhotoFromFirebaseStorage (p_filePath photo))
            (fun _ => console_error (failed_blob_message (p_id photo)))))
    (fun error =>
       console_error "Error cleaning up photos from Firebase Storage:" ;;
       throw error).

Definition cleanupPhotosFromDatabase (collectionIds : list Z) : M unit :=
  try_catch
    (db_delete (Sql.delete_photos (in_collections collectionIds))
       (fun d => filter (in_collections collectionIds) (photos d)))
    (fun error =>
       console_error "Error cleaning up photos from database:" ;;
       throw error).

Definition cleanupCollectionOwnerships (collectionIds : list Z) : M unit :=
  try_catch
    (db_run (Sql.delete_collectionOwners
               (fun o => Sql.mem (o_collectionId o) collectionIds)))
    (fun error =>
       console_error "Error cleaning up collection ownerships:" ;;
       throw error).

Definition cleanupCollectionsFromDatabase (collectionIds : list Z) : M unit :=
  try_catch
    (db_run (Sql.delete_collections
               (fun c => Sql.mem (c_id c) collectionIds)))
    (fun error =>
       console_error "Error cleaning up collections from database:" ;;
       throw error).

(** The collections owned by [userId], as (id, name) rows. *)
Definition owned_collections (userId : Z) (d : DB) : list (Z * string) :=
  map (fun r => (c_id (fst r), c_name (fst r)))
    (filter (fun r => (o_userId (snd r) =? userId)%Z)
       (Sql.collections_join_owners d)).

Definition cleanupDemoCollectionsAndPhotos (demoUserId : Z) : M unit :=
  try_catch
    (demoCollections <-
       db_query
         (fun d =>
            map (fun r => (c_id (fst r), c_name (fst r)))
              (filter
                 (fun r =>
                    (o_userId (snd r) =? demoUserId)%Z &&
                    negb (Sql.mem (c_id (fst r)) PROTECTED_COLLECTION_IDS))
                 (Sql.collections_join_owners d))) ;;
     match demoCollections with
     | [] => ret tt
     | _ =>
         let collectionIds := map fst demoCollections in
         cleanupPhotosFromFirebaseStorage collectionIds ;;
         cleanupPhotosFromDatabase collectionIds ;;
         cleanupCollectionOwnerships collectionIds ;;
         cleanupCollectionsFromDatabase collectionIds
     end)
    (fun error =>
       console_error "Error cleaning up demo collections and photos:" ;;
       throw error).

Definition cleanupDemoUserContent : M unit :=
  try_catch
    (demoUser <-
       db_query
         (fun d =>
            Sql.limit 1
              (map u_id
                 (filter (fun u => String.eqb (u_username u) DEMO_USERNAME)
                    (users d)))) ;;
     match demoUser with
     | [] => ret tt
     | demoUserId :: _ => cleanupDemoCollectionsAndPhotos demoUserId
     end)
    (fun _ => console_error "Error during demo user cleanup:").

Definition cleanupDemoUserContentForSession (sessionId : string) : M unit :=
  try_catch
    (sessionData <-
       db_query
         (fun d =>
            Sql.limit 1
              (map (fun r => (u_id (fst r), u_username (fst r)))
                 (filter (fun r => String.eqb (s_id (snd r)) sessionId)
                    (Sql.users_join_sessions d)))) ;;
     match sessionData with
     | [] => ret tt
     | (userId, username) :: _ =>
         if negb (String.eqb username DEMO_USERNAME) then ret tt
         else cleanupDemoCollectionsAndPhotos userId
     end)
    (fun _ => console_error "Error during session-aware demo cleanup:").

(** ** models/demo-user-service.ts: teardown *)

Definition isTemporaryDemoUser (username : string) : bool :=
  String.prefix DEMO_USER_PREFIX username.

Definition cleanupUserCollectionsAndPhotos (userId : Z) : M unit :=
  try_catch
    (userCollections <- db_query (owned_collections userId) ;;
     let nonProtectedCollections :=
       filter (fun c => negb (Sql.mem (fst c) PROTECTED_COLLECTION_IDS))
         userCollections in
     match nonProtectedCollections with
     | [] => ret tt
     | _ =>
         let collectionIds := map fst nonProtectedCollections in
         cleanupPhotosFromFirebaseStorage collectionIds ;;
         cleanupPhotosFromDatabase collectionIds ;;
         cleanupCollectionOwnerships collectionIds ;;
         cleanupCollectionsFromDatabase collectionIds
     end)
    (fun _ => console_error "Error cleaning up collections for user:").

Definition owner_is (userId collectionId : Z) (o : CollectionOwner) : bool :=
  (o_userId o =? userId)%Z && (o_collectionId o =? collectionId)%Z.

Definition removeProtectedCollectionOwnerships (userId : Z) : M unit :=
  try_catch
    (db_run (Sql.delete_collectionOwners
               (owner_is userId (nth 0 PROTECTED_COLLECTION_IDS 0))) ;;
     for_of PROTECTED_COLLECTION_IDS
       (fun collectionId =>
          try_catch
            (db_run (Sql.delete_collectionOwners (owner_is userId collectionId)))
            (fun _ => console_error "Error removing ownership of collection:")))
    (fun _ =>
       console_error "Error removing protected collection ownerships:").

Definition session_is (sessionId : string) (s : Session) : bool :=
  String.eqb (s_id s) sessionId.

Definition user_is (userId : Z) (u : User) : bool := (u_id u =? userId)%Z.

Definition cleanupTemporaryDemoUser (userId : Z) (sessionId : option string)
  : M unit :=
  try_catch
    (_ <- db_query
            (fun d => Sql.limit 1 (map u_username (filter (user_is userId) (users d)))) ;;
     cleanupUserCollectionsAndPhotos userId ;;
     removeProtectedCollectionOwnerships userId ;;
     match sessionId with
     | Some sid =>
         if Js.truthy sid then
           try_catch
             (db_delete (Sql.delete_sessions (session_is sid))
                (Sql.session_cascade_photos (session_is sid)))
             (fun _ => console_error "Error deleting session:")
         else ret tt
     | None => ret tt
     end ;;
     db_delete (Sql.delete_users (user_is userId))
       (Sql.user_cascade_photos (user_is userId)))
    (fun _ => console_error "Error during cleanup for demo user:").

(** ** databaseSessionStore.ts *)

Record SessionData : Type := mkSessionData {
  userId : Z;
  username : string;
  expiresAt : Z
}.

Module DatabaseSessionStore.

Definition set (sessionId : string) (sessionData : SessionData) : M unit :=
  try_catch
    (db_run (Sql.upsert_session
               (mkSession sessionId (userId sessionData)
                  (username sessionData) (expiresAt sessionData))))
    (fun error =>
       console_error "Error setting session:" ;;
       throw error).

(** The final [db.delete(sessions)] has no RETURNING clause: its result
    holds no rows, so [result.length > 0] is false. *)
Definition delete (sessionId : string) : M bool :=
  try_catch
    (sessionData <-
       db_query
         (fun d =>
            Sql.limit 1
              (map (fun s => (s_userId s, s_username s))
                 (filter (session_is sessionId) (sessions d)))) ;;
     let delete_row :=
       db_delete (Sql.delete_sessions (session_is sessionId))
         (Sql.session_cascade_photos (session_is sessionId)) ;;
       ret false in
     match sessionData with
     | (userId, username) :: _ =>
         if isTemporaryDemoUser username then
           cleanupTemporaryDemoUser userId (Some sessionId) ;;
           ret true
         else
           cleanupDemoUserContentForSession sessionId ;;
           delete_row
     | [] => delete_row
     end)
    (fun _ =>
       console_error "Error deleting session:" ;;
       ret false).

Definition get (sessionId : string) : M (option SessionData) :=
  try_catch
    (result <-
       db_query
         (fun d => Sql.limit 1 (filter (session_is sessionId) (sessions d))) ;;
     match result with
     | [] => ret None
     | session :: _ =>
         now <- Date_now ;;
         if (s_expiresAt session <? now)%Z then
           delete sessionId ;;
           ret None
         else
           ret (Some (mkSessionData (s_userId session) (s_username session)
                        (s_expiresAt session)))
     end)
    (fun _ =>
       console_error "Error getting session:" ;;
       ret None).

Definition cleanExpiredSessions : M unit :=
  try_catch
    (now <- Date_now ;;
     db_delete (Sql.delete_sessions (fun s => (s_expiresAt s <? now)%Z))
       (Sql.session_cascade_photos (fun s => (s_expiresAt s <? now)%Z)))
    (fun _ => console_error "Error cleaning expired sessions:").

Definition has (sessionId : string) : M bool :=
  try_catch
    (session <- get sessionId ;;
     ret (match session with Some _ => true | None => false end))
    (fun _ =>
       console_error "Error checking session:" ;;
       ret false).

Definition session_data (s : Session) : SessionData :=
  mkSessionData (s_userId s) (s_username s) (s_expiresAt s).

(** The WHERE clause [expires_at = expires_at] holds for every row, the
    column being NOT NULL; the loop keeps the rows with [expiresAt > now]. *)
Definition entries : M (list (string * SessionData)) :=
  try_catch
    (allSessions <- db_query (fun d => sessions d) ;;
     now <- Date_now ;;
     ret (map (fun s => (s_id s, session_data s))
            (filter (fun s => (now <? s_expiresAt s)%Z) allSessions)))
    (fun _ =>
       console_error "Error getting session entries:" ;;
       ret []).

Definition getUserSessions (userId : Z) : M (list SessionData) :=
  try_catch
    (userSessions <-
       db_query (fun d => filter (fun s => (s_userId s =? userId)%Z) (sessions d)) ;;
     now <- Date_now ;;
     ret (map session_data
            (filter (fun s => (now <? s_expiresAt s)%Z) userSessions)))
    (fun _ =>
       console_error "Error getting user sessions:" ;;
       ret []).

End DatabaseSessionStore.

(** ** models/temporal-storage-service.ts *)

Module TemporalStorageService.

Definition expired_photo (now : Z) (p : Photo) : bool :=
  Sql.is_true (p_isTemporary p) && Sql.lt (p_expiresAt p) now.

Definition expired_collection (now : Z) (c : Collection) : bool :=
  Sql.is_true (c_isTemporary c) && Sql.lt (c_expiresAt c) now.

Definition session_photo (sessionId : string) (p : Photo) : bool :=
  Sql.is_true (p_isTemporary p) && Sql.eq_str (p_sessionId p) sessionId.

Definition session_collection (sessionId : string) (c : Collection) : bool :=
  Sql.is_true (c_isTemporary c) && Sql.eq_str (c_sessionId c) sessionId.

Definition delete_blobs (rows : list Photo) : M unit :=
  for_of rows
    (fun photo =>
       try_catch
         (deletePhotoFromFirebaseStorage (p_filePath photo))
         (fun _ => console_error (failed_blob_message (p_id photo)))).

Definition cleanExpiredTemporaryContent : M unit :=
  now <- Date_now ;;
  try_catch
    (expiredPhotos <-
       db_query (fun d => filter (expired_photo now) (photos d)) ;;
     delete_blobs expiredPhotos ;;
     db_delete (Sql.delete_photos (expired_photo now))
       (fun d => filter (expired_photo now) (photos d)) ;;
     db_run (Sql.delete_collections (expired_collection now)))
    (fun _ => console_error "Error cleaning expired temporary content:").

Definition make_collection_permanent (c : Collection) : Collection :=
  mkCollection (c_id c) (c_name c) (c_description c) (c_type c) (c_userId c)
               (Some false) None None.

Definition make_photo_permanent (p : Photo) : Photo :=
  mkPhoto (p_id p) (p_title p) (p_fileName p) (p_fileType p) (p_filePath p)
          (p_isLiked p) (p_collectionId p) (Some false) None None.

Definition makeCollectionPermanent (collectionId : Z) : M bool :=
  try_catch
    (result <-
       db_exec (Sql.update_collections
                  (fun c => (c_id c =? collectionId)%Z)
                  make_collection_permanent) ;;
     ret (0 <? List.length result)%nat)
    (fun _ =>
       console_error "Error making collection permanent:" ;;
       ret false).

Definition makePhotoPermanent (photoId : Z) : M bool :=
  try_catch
    (result <-
       db_exec (Sql.update_photos (fun p => (p_id p =? photoId)%Z)
                  make_photo_permanent) ;;
     ret (0 <? List.length result)%nat)
    (fun _ =>
       console_error "Error making photo permanent:" ;;
       ret false).

Definition getTemporaryContentBySession (sessionId : string)
  : M (list Collection * list Photo) :=
  try_catch
    (temporaryCollections <-
       db_query (fun d => filter (session_collection sessionId) (collections d)) ;;
     temporaryPhotos <-
       db_query (fun d => filter (session_photo sessionId) (photos d)) ;;
     ret (temporaryCollections, temporaryPhotos))
    (fun _ =>
       console_error "Error getting temporary content for session:" ;;
       ret ([], [])).

Definition set_collection_expiresAt (t : Z) (c : Collection) : Collection :=
  mkCollection (c_id c) (c_name c) (c_description c) (c_type c) (c_userId c)
               (c_isTemporary c) (c_sessionId c) (Some t).

Definition set_photo_expiresAt (t : Z) (p : Photo) : Photo :=
  mkPhoto (p_id p) (p_title p) (p_fileName p) (p_fileType p) (p_filePath p)
          (p_isLiked p) (p_collectionId p) (p_isTemporary p) (p_sessionId p)
          (Some t).

Definition extendTemporaryContentExpiration (sessionId : string)
    (newExpirationTime : Z) : M unit :=
  try_catch
    (db_run (fun d =>
               snd (Sql.update_collections (session_collection sessionId)
                      (set_collection_expiresAt newExpirationTime) d)) ;;
     db_run (fun d =>
               snd (Sql.update_photos (session_photo sessionId)
                      (set_photo_expiresAt newExpirationTime) d)))
    (fun _ =>
       console_error "Error extending temporary content expiration:").

Definition deleteTemporaryContentForSession (sessionId : string) : M unit :=
  try_catch
    (sessionPhotos <-
       db_query (fun d => filter (session_photo sessionId) (photos d)) ;;
     delete_blobs sessionPhotos ;;
     db_delete (Sql.delete_photos (session_photo sessionId))
       (fun d => filter (session_photo sessionId) (photos d)) ;;
     db_run (Sql.delete_collections (session_collection sessionId)))
    (fun _ =>
       console_error "Error deleting temporary content for session:").

End TemporalStorageService.

(** ** controllers/auth.ts: AuthService *)

Module AuthService.

(** [Math.random().toString(36).substring(2) + Date.now().toString(36)]:
    an opaque token, taken whole from the supply. *)
Definition generateSessionId : M string := Math_random.

Definition createSession (userId : Z) (username : string) : M string :=
  sessionId <- generateSessionId ;;
  now <- Date_now ;;
  DatabaseSessionStore.set sessionId
    (mkSessionData userId username (now + SESSION_DURATION)) ;;
  ret sessionId.

Definition getSession (sessionId : string) : M (option SessionData) :=
  session <- DatabaseSessionStore.get sessionId ;;
  match session with
  | None => ret None
  | Some session =>
      now <- Date_now ;;
      let timeUntilExpiry := expiresAt session - now in
      if (timeUntilExpiry <? SESSION_REFRESH_THRESHOLD)%Z then
        now' <- Date_now ;;
        let session' :=
          mkSessionData (userId session) (username session)
                        (now' + SESSION_DURATION) in
        DatabaseSessionStore.set sessionId session' ;;
        ret (Some session')
      else ret (Some session)
  end.

Definition deleteSession (sessionId : string) : M unit :=
  DatabaseSessionStore.delete sessionId ;;
  ret tt.

Definition cleanExpiredSessions : M unit :=
  TemporalStorageService.cleanExpiredTemporaryContent ;;
  DatabaseSessionStore.cleanExpiredSessions.

Definition logout (sessionId : string) : M unit :=
  TemporalStorageService.deleteTemporaryContentForSession sessionId ;;
  deleteSession sessionId.

End AuthService.

(** ** models/demo-user-service.ts: creation and sweep *)

Definition generateDemoUsername : M string :=
  timestamp <- Date_now ;;
  random <- Math_random ;;
  ret (DEMO_USER_PREFIX ++ Js.of_Z timestamp ++ "_" ++ random)%string.

(** The callbacks handed to [Promise.all] touch one ownership row each;
    they are run one after the other, in allowlist order. *)
Definition grantAccessToProtectedCollections (userId : Z) : M unit :=
  try_catch
    (existingCollections <-
       db_query
         (fun d =>
            map c_id
              (filter (fun c => (c_id c =? nth 0 PROTECTED_COLLECTION_IDS 0)%Z)
                 (collections d))) ;;
     match existingCollections with
     | [] => ret tt
     | _ =>
         for_of PROTECTED_COLLECTION_IDS
           (fun collectionId =>
              try_catch
                (collectionExists <-
                   db_query
                     (fun d =>
                        Sql.limit 1
                          (map c_id
                             (filter (fun c => (c_id c =? collectionId)%Z)
                                (collections d)))) ;;
                 match collectionExists with
                 | [] => ret tt
                 | _ =>
                     existingOwnership <-
                       db_query
                         (fun d =>
                            Sql.limit 1
                              (filter
                                 (fun o =>
                                    (o_collectionId o =? collectionId)%Z &&
                                    (o_userId o =? userId)%Z)
                                 (collectionOwners d))) ;;
                     match existingOwnership with
                     | [] => db_run (Sql.insert_owner (mkOwner collectionId userId))
                     | _ => ret tt
                     end
                 end)
                (fun _ => console_error "Error granting access to collection:"))
     end)
    (fun _ => console_error "Error granting access to protected collections:").

(** The deferred teardown set with [setTimeout] is recorded as a
    [Scheduled] effect; it runs as a later, separate operation.  The
    placeholder password hash is not stored in the model. *)
Definition createTemporaryDemoUser : M (User * string) :=
  try_catch
    (username <- generateDemoUsername ;;
     let displayName := ("Demo User " ++ Js.slice_last 8 username)%string in
     user <- db_exec (Sql.insert_user username displayName) ;;
     grantAccessToProtectedCollections (u_id user) ;;
     sessionId <- AuthService.createSession (u_id user) (u_username user) ;;
     emit (Scheduled SESSION_DURATION (u_id user) sessionId) ;;
     ret (user, sessionId))
    (fun error =>
       console_error "Error creating temporary demo user:" ;;
       throw error).

Definition cleanupExpiredDemoUsers : M unit :=
  try_catch
    (tempUsers <- db_query (fun d => map (fun u => (u_id u, u_username u)) (users d)) ;;
     let demoUsers := filter (fun u => isTemporaryDemoUser (snd u)) tempUsers in
     for_of demoUsers
       (fun user =>
          try_catch
            (now <- Date_now ;;
             activeSessions <-
               db_query
                 (fun d =>
                    filter
                      (fun s =>
                         (s_userId s =? fst user)%Z && (s_expiresAt s =? now)%Z)
                      (sessions d)) ;;
             match activeSessions with
             | [] => cleanupTemporaryDemoUser (fst user) None
             | _ => ret tt
             end)
            (fun _ => console_error "Error checking sessions for user:")))
    (fun _ => console_error "Error during expired demo users cleanup:").

(** ** controllers/auth.ts: AuthController *)

Record Request : Type := mkRequest {
  req_authorization : option string;
  req_cookie : option string;
  req_sessionId : option string;
  req_user : option User
}.

Record Response : Type := mkResponse {
  res_status : Z;
  res_sessionId : option string;
  res_sessionExpiresAt : option Z
}.

Definition status (code : Z) : Response := mkResponse code None None.

(** models/user-model.ts *)
Definition getUser (id : Z) : M (option User) :=
  result <- db_query (fun d => filter (user_is id) (users d)) ;;
  ret (hd_error result).

Module AuthController.

(** [req.headers.authorization?.replace('Bearer ', '') || req.cookies?.sessionId] *)
Definition token (req : Request) : option string :=
  match req_authorization req with
  | Some a =>
      let t := Js.replace "Bearer " "" a in
      if Js.truthy t then Some t else req_cookie req
  | None => req_cookie req
  end.

(** The middleware: either it answers itself, or it hands the request,
    with [sessionId] and [user] attached, to the next handler. *)
Definition requireAuth (req : Request) : M (Response + Request) :=
  match token req with
  | None => ret (inl (status 401))
  | Some sessionId =>
      if negb (Js.truthy sessionId) then ret (inl (status 401))
      else
        try_catch
          (session <- AuthService.getSession sessionId ;;
           match session with
           | None => ret (inl (status 401))
           | Some session =>
               user <- getUser (userId session) ;;
               match user with
               | Some user =>
                   ret (inr (mkRequest (req_authorization req) (req_cookie req)
                               (Some sessionId) (Some user)))
               | None => ret (inl (status 401))
               end
           end)
          (fun _ =>
             console_error "Auth middleware error:" ;;
             ret (inl (status 500)))
  end.

Definition refreshSession (req : Request) : M Response :=
  try_catch
    (match req_sessionId req, req_user req with
     | Some sessionId, Some user =>
         if negb (Js.truthy sessionId) then ret (status 401)
         else
           now <- Date_now ;;
           let newExpirationTime := now + 10 * 60 * 1000 in
           TemporalStorageService.extendTemporaryContentExpiration
             sessionId newExpirationTime ;;
           AuthService.deleteSession sessionId ;;
           newSessionId <-
             AuthService.createSession (u_id user) (u_username user) ;;
           now' <- Date_now ;;
           ret (mkResponse 200 (Some newSessionId)
                  (Some (now' + 10 * 60 * 1000)))
     | _, _ => ret (status 401)
     end)
    (fun _ =>
       console_error "Session refresh error:" ;;
       ret (status 500)).

Definition logout (req : Request) : M Response :=
  try_catch
    (match req_sessionId req with
     | Some sessionId =>
         if Js.truthy sessionId then AuthService.logout sessionId else ret tt
     | None => ret tt
     end ;;
     ret (status 200))
    (fun _ =>
       console_error "Logout error:" ;;
       ret (status 500)).

Definition getCurrentUser (req : Request) : M Response :=
  try_catch
    (match req_sessionId req with
     | None => ret (status 401)
     | Some sessionId =>
         if negb (Js.truthy sessionId) then ret (status 401)
         else
           session <- AuthService.getSession sessionId ;;
           match session with
           | None => ret (status 401)
           | Some session =>
               ret (mkResponse 200 None (Some (expiresAt session)))
           end
     end)
    (fun _ =>
       console_error "Get current user error:" ;;
       ret (status 500)).

End AuthController.

(** [router.post('/refresh', AuthController.requireAuth,
    AuthController.refreshSession)] *)
Definition POST_auth_refresh (req : Request) : M Response :=
  r <- AuthController.requireAuth req ;;
  match r with
  | inl response => ret response
  | inr req' => AuthController.refreshSession req'
  end.

(** [router.post('/logout', AuthController.requireAuth,
    AuthController.logout)] *)
Definition POST_auth_logout (req : Request) : M Response :=
  r <- AuthController.requireAuth req ;;
  match r with
  | inl response => ret response
  | inr req' => AuthController.logout req'
  end.

(** [router.get('/me', AuthController.requireAuth,
    AuthController.getCurrentUser)] *)
Definition GET_auth_me (req : Request) : M Response :=
  r <- AuthController.requireAuth req ;;
  match r with
  | inl response => ret response
  | inr req' => AuthController.getCurrentUser req'
  end.

(** ** models/partnership-model.ts, models/collection-model.ts *)

Definition getUserPartner (userId : Z) : M (option User) :=
  partnership <-
    db_query
      (fun d =>
         Sql.limit 1
           (filter
              (fun q => (pt_user1Id q =? userId)%Z || (pt_user2Id q =? userId)%Z)
              (partnerships d))) ;;
  match partnership with
  | [] => ret None
  | q :: _ =>
      let partnerId :=
        if (pt_user1Id q =? userId)%Z then pt_user2Id q else pt_user1Id q in
      partner <-
        db_query (fun d => Sql.limit 1 (filter (user_is partnerId) (users d))) ;;
      ret (hd_error partner)
  end.

Record InsertCollection : Type := mkInsertCollection {
  ic_name : string;
  ic_description : option string;
  ic_type : string;
  ic_userId : option Z;
  ic_isTemporary : option bool;
  ic_sessionId : option string;
  ic_expiresAt : option Z
}.

(** [insertCollection.userId!]: a null owner is rejected by the NOT NULL
    column of [collection_owners]. *)
Definition createCollection (insertCollection : InsertCollection)
  : M Collection :=
  collection <-
    db_exec
      (Sql.insert_collection
         (fun id =>
            mkCollection id (ic_name insertCollection)
              (ic_description insertCollection) (ic_type insertCollection)
              (ic_userId insertCollection) (ic_isTemporary insertCollection)
              (ic_sessionId insertCollection) (ic_expiresAt insertCollection))) ;;
  match ic_userId insertCollection with
  | None => throw "null value in column user_id"
  | Some creator =>
      db_run (Sql.insert_owner (mkOwner (c_id collection) creator)) ;;
      partner <- getUserPartner creator ;;
      match partner with
      | Some partner =>
          db_run (Sql.insert_owner (mkOwner (c_id collection) (u_id partner)))
      | None => ret tt
      end ;;
      ret collection
  end.

(** ** types.ts *)

Definition collectionEnum : list string :=
  ["nature"; "travels"; "favorites"; "custom"].

(** [validateSchema(insertCollectionSchema, data)]: of the typed fields only
    the enum can be rejected. *)
Definition validateSchema (data : InsertCollection) : M InsertCollection :=
  if Sql.mem_str (ic_type data) collectionEnum then ret data
  else throw "Validation error: Invalid enum value".

Definition generateFileName (originalName : string) : M string :=
  timestamp <- Date_now ;;
  randomNum <- Math_random ;;
  let extension := Js.split_pop "."%char originalName in
  ret ("photo-" ++ Js.of_Z timestamp ++ "-" ++ randomNum ++ "." ++ extension)%string.

Definition is_connection_error (message : string) : bool :=
  Js.includes "ETIMEDOUT" message || Js.includes "ECONNRESET" message.

(** The loop of [withDatabaseRetry], from attempt [attempt] on, with
    [remaining] iterations left. *)
Fixpoint retry_from {A} (operation : M A) (maxRetries attempt remaining : nat)
    (lastError : string) : M A :=
  match remaining with
  | O => throw lastError
  | S remaining' =>
      try_catch operation
        (fun error =>
           console_error "Database operation failed:" ;;
           if is_connection_error error && (attempt <? maxRetries)%nat
           then retry_from operation maxRetries (S attempt) remaining' error
           else throw error)
  end.

Definition withDatabaseRetry {A} (operation : M A) : M A :=
  retry_from operation 3 1 3 "".

(** ** routes/collections.ts: POST / *)

Record File : Type := mkFile {
  originalname : string;
  mimetype : string;
  size : Z
}.

(** multer.ts: [fileFilter] accepts five image types, [limits.fileSize] is
    5 MB. *)
Definition allowedTypes : list string :=
  ["image/jpeg"; "image/jpg"; "image/png"; "image/gif"; "image/webp"].

Definition fileFilter (file : File) : bool :=
  Sql.mem_str (mimetype file) allowedTypes.

Definition fileSize : Z := 5 * 1024 * 1024.

(** [upload.array('photo')]: true when every file passes the filter and the
    size limit, so that the request goes on to the handler; otherwise the
    middleware ends the request with an error. *)
Definition upload_array (files : list File) : bool :=
  forallb (fun file => fileFilter file && (size file <=? fileSize)%Z) files.

Record CreateCollectionBody : Type := mkBody {
  body_name : option string;
  body_description : option string;
  body_type : option string;
  body_isTemporary : Js.value;
  body_photoTitle : list string
}.

Definition or_else (v : option string) (default : string) : string :=
  match v with
  | Some s => if Js.truthy s then s else default
  | None => default
  end.

Definition create_collection_handler (req : Request)
    (body : CreateCollectionBody) (files : list File) : M Response :=
  try_catch
    (match req_user req with
     | None => ret (status 401)
     | Some user =>
         match body_name body with
         | None => ret (status 400)
         | Some name =>
             if negb (Js.truthy name) then ret (status 400)
             else
               let makeTemporary :=
                 match body_isTemporary body with
                 | Js.text s => String.eqb s "true"
                 | Js.boolean b => b
                 | Js.undefined => false
                 end in
               let sessionId :=
                 if makeTemporary then req_sessionId req else None in
               now <- Date_now ;;
               let expiresAt :=
                 if makeTemporary && Js.truthy (or_else sessionId "")
                 then Some (now + 10 * 60 * 1000) else None in
               data <-
                 validateSchema
                   (mkInsertCollection name (body_description body)
                      (or_else (body_type body) "custom") (Some (u_id user))
                      (Some makeTemporary) sessionId expiresAt) ;;
               collection <- withDatabaseRetry (createCollection data) ;;
               for_of (combine (seq 0 (List.length files)) files)
                 (fun entry =>
                    let file := snd entry in
                    let title :=
                      or_else (nth_error (body_photoTitle body) (fst entry))
                        (originalname file) in
                    fileName <- generateFileName (originalname file) ;;
                    filePath <- savePhotoToFirebaseStorage fileName ;;
                    withDatabaseRetry
                      (createPhoto
                         (mkInsertPhoto title fileName (mimetype file) filePath
                            (Some false) (Some (c_id collection))
                            (Some makeTemporary) sessionId expiresAt)) ;;
                    ret tt) ;;
               ret (status 201)
         end
     end)
    (fun error =>
       console_error "Error creating collection:" ;;
       if is_connection_error error then ret (status 503)
       else ret (status 400)).

(** [router.post('/', AuthController.requireAuth, upload.array('photo'),
    handler)]: an error of the upload middleware goes to the error handler
    of the application, which answers 500; the handler does not run. *)
Definition POST_collections (req : Request) (body : CreateCollectionBody)
    (files : list File) : M Response :=
  r <- AuthController.requireAuth req ;;
  match r with
  | inl response => ret response
  | inr req' =>
      if upload_array files then create_collection_handler req' body files
      else ret (status 500)
  end.

(** ** models/collection-model.ts, models/photo-model.ts: reads and deletes *)

Definition collection_is (id : Z) (c : Collection) : bool := (c_id c =? id)%Z.

Definition photo_is (id : Z) (p : Photo) : bool := (p_id p =? id)%Z.

Definition in_collection (id : Z) (p : Photo) : bool :=
  Sql.eq_int (p_collectionId p) id.

Definition getCollection (id : Z) : M (option Collection) :=
  result <- db_query (fun d => filter (collection_is id) (collections d)) ;;
  ret (hd_error result).

Definition checkCollectionOwnership (collectionId userId : Z) : M bool :=
  ownership <-
    db_query
      (fun d =>
         Sql.limit 1
           (filter
              (fun o =>
                 (o_collectionId o =? collectionId)%Z && (o_userId o =? userId)%Z)
              (collectionOwners d))) ;;
  ret (0 <? List.length ownership)%nat.

(** The ownership rows of the collection go with it, by cascade. *)
Definition deleteCollection (id : Z) : M bool :=
  collectionPhotos <- db_query (fun d => filter (in_collection id) (photos d)) ;;
  for_of collectionPhotos
    (fun photo =>
       deletePhotoFromFirebaseStorage (p_filePath photo) ;;
       db_delete (Sql.delete_photos (photo_is (p_id photo)))
         (fun d => filter (photo_is (p_id photo)) (photos d))) ;;
  result <-
    db_exec
      (fun d =>
         (filter (collection_is id) (collections d),
          Sql.delete_collections (collection_is id) d)) ;;
  ret (0 <? List.length result)%nat.

Definition deletePhoto (id : Z) : M bool :=
  photo <- getPhoto id ;;
  match photo with
  | None => ret false
  | Some photo =>
      deletePhotoFromFirebaseStorage (p_filePath photo) ;;
      result <-
        db_stmt
          (fun d =>
             (filter (photo_is id) (photos d), Sql.delete_photos (photo_is id) d))
          (fun d => [PhotoRowsDeleted (map p_id (filter (photo_is id) (photos d)))]) ;;
      ret (0 <? List.length result)%nat
  end.

(** ** models/user-model.ts *)

Definition getUserByUsername (username : string) : M (option User) :=
  result <-
    db_query (fun d => filter (fun u => String.eqb (u_username u) username) (users d)) ;;
  ret (hd_error result).

Definition createUser (username displayName : string) : M User :=
  db_exec (Sql.insert_user username displayName).

Definition initializeUsers : M unit :=
  try_catch
    (demo <- getUserByUsername "demo" ;;
     match demo with
     | None =>
         createUser "demo" "Demo User" ;;
         ret tt
     | Some _ => ret tt
     end)
    (fun _ => console_error "Error initializing users:").

(** ** models/demo-cleanup-service.ts, models/demo-user-service.ts:
    monitoring *)

Record ContentSummary : Type := mkSummary {
  totalCollections : Z;
  protectedCollections : Z;
  nonProtectedCollections : Z;
  totalPhotos : Z
}.

Definition getDemoUserContentSummary : M ContentSummary :=
  try_catch
    (demoUser <-
       db_query
         (fun d =>
            Sql.limit 1
              (map u_id
                 (filter (fun u => String.eqb (u_username u) DEMO_USERNAME)
                    (users d)))) ;;
     match demoUser with
     | [] => ret (mkSummary 0 0 0 0)
     | demoUserId :: _ =>
         allCollections <-
           db_query
             (fun d =>
                map (fun r => c_id (fst r))
                  (filter (fun r => (o_userId (snd r) =? demoUserId)%Z)
                     (Sql.collections_join_owners d))) ;;
         let protectedCount :=
           Z.of_nat
             (List.length
                (filter (fun id => Sql.mem id PROTECTED_COLLECTION_IDS)
                   allCollections)) in
         let nonProtectedCount :=
           Z.of_nat (List.length allCollections) - protectedCount in
         let collectionIds := allCollections in
         totalPhotos <-
           match collectionIds with
           | [] => ret []
           | _ =>
               db_query
                 (fun d =>
                    map p_id (filter (in_collections collectionIds) (photos d)))
           end ;;
         ret (mkSummary (Z.of_nat (List.length allCollections)) protectedCount
                nonProtectedCount (Z.of_nat (List.length totalPhotos)))
     end)
    (fun _ =>
       console_error "Error getting demo user content summary:" ;;
       ret (mkSummary 0 0 0 0)).

Definition getTemporaryDemoUsersSummary : M (Z * list User) :=
  try_catch
    (tempUsers <- db_query (fun d => users d) ;;
     let filteredUsers :=
       filter (fun user => isTemporaryDemoUser (u_username user)) tempUsers in
     ret (Z.of_nat (List.length filteredUsers), filteredUsers))
    (fun _ =>
       console_error "Error getting temporary demo users summary:" ;;
       ret (0, [])).

(** ** routes/collections.ts, routes/photos.ts, routes/demo-cleanup.ts

    A handler takes the request as [requireAuth] hands it on and the
    route parameter after [parseInt]: [None] stands for [NaN].  The
    parameter is not bounded here; the database refuses a comparison of an
    [integer] column with a number outside its range ([int4]). *)

Definition delete_collection_handler (req : Request) (id : option Z)
  : M Response :=
  try_catch
    (match req_user req with
     | None => ret (status 401)
     | Some user =>
         match id with
         | None => ret (status 400)
         | Some collectionId =>
             collection <- getCollection collectionId ;;
             match collection with
             | None => ret (status 404)
             | Some _ =>
                 ownership <- checkCollectionOwnership collectionId (u_id user) ;;
                 if negb ownership then ret (status 403)
                 else
                   success <- deleteCollection collectionId ;;
                   if success then ret (status 204) else ret (status 500)
             end
         end
     end)
    (fun error =>
       console_error "Error deleting collection:" ;;
       if Js.includes "is protected and cannot be deleted" error
       then ret (status 403)
       else ret (status 500)).

(** [router.delete('/:id', AuthController.requireAuth, handler)] *)
Definition DELETE_collection (req : Request) (id : option Z) : M Response :=
  r <- AuthController.requireAuth req ;;
  match r with
  | inl response => ret response
  | inr req' => delete_collection_handler req' id
  end.

Definition make_collection_permanent_handler (req : Request) (id : option Z)
  : M Response :=
  try_catch
    (match req_user req with
     | None => ret (status 401)
     | Some user =>
         match id with
         | None => ret (status 400)
         | Some collectionId =>
             ownership <- checkCollectionOwnership collectionId (u_id user) ;;
             if negb ownership then ret (status 403)
             else
               TemporalStorageService.makeCollectionPermanent collectionId ;;
               ret (status 200)
         end
     end)
    (fun _ =>
       console_error "Error making collection permanent:" ;;
       ret (status 500)).

(** [router.post('/:id/make-permanent', AuthController.requireAuth,
    handler)] *)
Definition POST_collection_make_permanent (req : Request) (id : option Z)
  : M Response :=
  r <- AuthController.requireAuth req ;;
  match r with
  | inl response => ret response
  | inr req' => make_collection_permanent_handler req' id
  end.

(** [if (photo.collectionId)]: NULL and 0 are falsy. *)
Definition truthy_id (id : option Z) : option Z :=
  match id with
  | Some n => if (n =? 0)%Z then None else Some n
  | None => None
  end.

Definition delete_photo_handler (req : Request) (id : option Z) : M Response :=
  try_catch
    (match req_user req with
     | None => ret (status 401)
     | Some user =>
         match id with
         | None => ret (status 400)
         | Some photoId =>
             photo <- getPhoto photoId ;;
             match photo with
             | None => ret (status 404)
             | Some photo =>
                 let proceed :=
                   success <- deletePhoto photoId ;;
                   if success then ret (status 204) else ret (status 500) in
                 match truthy_id (p_collectionId photo) with
                 | Some collectionId =>
                     hasAccess <-
                       checkCollectionOwnership collectionId (u_id user) ;;
                     if negb hasAccess then ret (status 403) else proceed
                 | None => proceed
                 end
             end
         end
     end)
    (fun _ =>
       console_error "Error deleting photo:" ;;
       ret (status 500)).

(** [router.delete('/:id', AuthController.requireAuth, handler)] *)
Definition DELETE_photo (req : Request) (id : option Z) : M Response :=
  r <- AuthController.requireAuth req ;;
  match r with
  | inl response => ret response
  | inr req' => delete_photo_handler req' id
  end.

Definition like_photo_handler (req : Request) (id : option Z) : M Response :=
  try_catch
    (match req_user req with
     | None => ret (status 401)
     | Some user =>
         match id with
         | None => ret (status 400)
         | Some photoId =>
             photo <- getPhoto photoId ;;
             match photo with
             | None => ret (status 404)
             | Some photo =>
                 let proceed :=
                   toggleLikePhoto photoId ;;
                   ret (status 200) in
                 match truthy_id (p_collectionId photo) with
                 | Some collectionId =>
                     hasAccess <-
                       checkCollectionOwnership collectionId (u_id user) ;;
                     if negb hasAccess then ret (status 403) else proceed
                 | None => proceed
                 end
             end
         end
     end)
    (fun _ =>
       console_error "Error toggling like on photo:" ;;
       ret (status 500)).

(** [router.post('/:id/like', AuthController.requireAuth, handler)] *)
Definition POST_photo_like (req : Request) (id : option Z) : M Response :=
  r <- AuthController.requireAuth req ;;
  match r with
  | inl response => ret response
  | inr req' => like_photo_handler req' id
  end.

(** The answer of the manual cleanup carries the summaries taken before
    and after. *)
Definition demo_cleanup_handler (req : Request)
  : M (Response * option (ContentSummary * ContentSummary)) :=
  try_catch
    (match req_user req with
     | None => ret (status 401, None)
     | Some user =>
         if negb (String.eqb (u_username user) "demo") then ret (status 403, None)
         else
           beforeSummary <- getDemoUserContentSummary ;;
           cleanupDemoUserContent ;;
           afterSummary <- getDemoUserContentSummary ;;
           ret (status 200, Some (beforeSummary, afterSummary))
     end)
    (fun _ =>
       console_error "Error during manual demo cleanup:" ;;
       ret (status 500, None)).

(** [router.post('/cleanup', AuthController.requireAuth, handler)] *)
Definition POST_demo_cleanup (req : Request)
  : M (Response * option (ContentSummary * ContentSummary)) :=
  r <- AuthController.requireAuth req ;;
  match r with
  | inl response => ret (response, None)
  | inr req' => demo_cleanup_handler req'
  end.

(** * Specification vocabulary *)

(** No storage failure is pending: every coming statement succeeds. *)
Definition quiet (w : World) : Prop := w_dbFaults w = [].

(** [wp m Q E w]: run from [w], [m] ends normally in a world and with a
    value satisfying [Q], or throws in a world satisfying [E]. *)
Definition wp {A} (m : M A) (Q : A -> World -> Prop)
    (E : string -> World -> Prop) (w : World) : Prop :=
  match m w with
  | (Ok a, w') => Q a w'
  | (Throw e, w') => E e w'
  end.


(** * Sample data *)

Module Sample.

Definition empty_db : DB := mkDB [] [] [] [] [] [] 1 1 1.

(** A world with no pending failure, an empty blob store and no trace. *)
Definition world (d : DB) (now : Z) (random : list string) : World :=
  mkWorld d [] now [] [] random [].

Definition photo (id : Z) (liked : option bool) : Photo :=
  mkPhoto id "sunset" "photo-1.jpg" "image/jpeg" "photo-1.jpg" liked
          (Some 5) (Some false) None None.

Definition album (id : Z) : Collection :=
  mkCollection id "album" None "custom" None (Some false) None None.

(** One photo whose [is_liked] column holds NULL. *)
Definition db_null_like : DB :=
  mkDB [] [] [album 5] [] [photo 20 None] [] 1 6 21.

Definition db_liked : DB :=
  mkDB [] [] [album 5] [] [photo 20 (Some true); photo 21 (Some false)] []
       1 6 22.

(** Renewal: alice (a regular account) holds session "s1", which expires
    five minutes from [now]; a temporary collection and a temporary photo
    (in a permanent album) are tied to that session. *)
Definition renewal_now : Z := 1000000.

Definition alice : User := mkUser 7 "alice" "Alice".

Definition temporary_album : Collection :=
  mkCollection 10 "trip" None "custom" (Some 7) (Some true) (Some "s1")
               (Some 1300000).

Definition temporary_photo : Photo :=
  mkPhoto 20 "beach" "photo-2.jpg" "image/jpeg" "photo-2.jpg" (Some false)
          (Some 5) (Some true) (Some "s1") (Some 1300000).

Definition db_renewal : DB :=
  mkDB [alice] [mkSession "s1" 7 "alice" 1300000]
       [album 5; temporary_album] [mkOwner 5 7; mkOwner 10 7]
       [temporary_photo] [] 8 11 21.

Definition renewal_request : Request :=
  mkRequest None (Some "s1") None None.

(** Sweep: an ephemeral demo account whose only session is still valid
    for five minutes; it co-owns protected collection 1 and owns an album
    of its own. *)
Definition visitor : User := mkUser 9 "demo_1700000000000_ab12cd" "Demo User 0_ab12cd".

Definition db_sweep : DB :=
  mkDB [visitor]
       [mkSession "s9" 9 "demo_1700000000000_ab12cd" 1300000]
       [album 1; mkCollection 30 "mine" None "custom" (Some 9) (Some false) None None]
       [mkOwner 1 9; mkOwner 30 9]
       [mkPhoto 40 "cat" "photo-3.jpg" "image/jpeg" "photo-3.jpg" (Some false)
                (Some 30) (Some false) None None]
       [] 10 31 41.

(** Grant: protected collection 2 exists, protected collection 1 does not. *)
Definition db_grant : DB :=
  mkDB [] [] [album 2; album 3] [] [] [] 5 7 1.

(** All five protected collections exist. *)
Definition db_grant_all : DB :=
  mkDB [] [] [album 1; album 2; album 3; album 4; album 6] [] [] [] 5 7 1.

(** Demo cleanup: the permanent demo account owns protected collection 1
    (with a photo) and collection 30 (with a photo), and is logged in. *)
Definition db_demo : DB :=
  mkDB [mkUser 2 "demo" "Demo User"] [mkSession "d1" 2 "demo" 1300000]
       [album 1; album 30] [mkOwner 1 2; mkOwner 30 2]
       [mkPhoto 40 "cat" "photo-3.jpg" "image/jpeg" "photo-3.jpg" (Some false)
                (Some 30) (Some false) None None;
        mkPhoto 41 "sea" "photo-4.jpg" "image/jpeg" "photo-4.jpg" (Some true)
                (Some 1) (Some false) None None]
       [] 3 31 42.

(** A session one minute away from its expiry. *)
Definition db_near_expiry : DB :=
  mkDB [alice] [mkSession "s1" 7 "alice" 1060000] [] [] [] [] 8 1 1.


(** Expiry sweep: two expired temporary photos and one live permanent
    photo; the first blob deletion is going to fail. *)
Definition stale_photo (id : Z) (path : string) : Photo :=
  mkPhoto id "old" path "image/jpeg" path (Some false) (Some 5) (Some true)
          (Some "s1") (Some 900000).

Definition db_stale : DB :=
  mkDB [alice] [mkSession "s1" 7 "alice" 900000]
       [album 5;
        mkCollection 10 "trip" None "custom" (Some 7) (Some true) (Some "s1")
                     (Some 900000)]
       [mkOwner 5 7; mkOwner 10 7]
       [stale_photo 20 "a.jpg"; photo 21 (Some true); stale_photo 22 "dir/b.jpg"]
       [] 8 11 23.

Definition world_stale : World :=
  mkWorld db_stale ["uploads/a.jpg"; "uploads/b.jpg"; "uploads/photo-1.jpg"]
          1000000 [] [true] [] [].

(** Creation: alice, authenticated by the cookie of her live session,
    posts a temporary collection with one photo. *)
Definition db_session : DB :=
  mkDB [alice] [mkSession "s1" 7 "alice" 1300000] [album 5] [mkOwner 5 7]
       [] [] 8 10 20.

Definition create_body : CreateCollectionBody :=
  mkBody (Some "trip") None None (Js.text "true") ["beach"].

Definition upload : File := mkFile "beach.png" "image/png" 204800.

End Sample.

(** The row the store finds for [sessionId]: the first one with that id. *)
Definition stored_session (sessionId : string) (d : DB) : option Session :=
  hd_error (filter (session_is sessionId) (sessions d)).

(** The clock moves on between two operations. *)
Definition at_time (now : Z) (w : World) : World :=
  mkWorld (w_db w) (w_blobs w) now (w_dbFaults w) (w_blobFaults w)
          (w_random w) (w_trace w).

(** A relation between the tables before and after, closed under
    composition of runs. *)
Class DbPreorder (R : DB -> DB -> Prop) : Prop := {
  db_refl : forall d, R d d;
  db_trans : forall d1 d2 d3, R d1 d2 -> R d2 d3 -> R d1 d3
}.

(** [always R m]: however [m] ends, and whatever fails on the way, the
    tables before and after are related by [R]. *)
Definition always (R : DB -> DB -> Prop) {A} (m : M A) : Prop :=
  forall w,
    wp m (fun _ w' => R (w_db w) (w_db w'))
         (fun _ w' => R (w_db w) (w_db w')) w.

(** [steady R m]: with no storage failure pending, [m] ends normally, no
    failure is pending afterwards, the clock has not moved and the tables
    are related by [R]. *)
Definition steady (R : DB -> DB -> Prop) {A} (m : M A) : Prop :=
  forall w,
    quiet w ->
    wp m (fun _ w' => quiet w' /\ w_now w' = w_now w /\ R (w_db w) (w_db w'))
         (fun _ _ => False) w.

(** ** Relations between the tables before and after an operation *)

Definition protected (id : Z) : Prop := In id PROTECTED_COLLECTION_IDS.

(** Every protected collection, every ownership row of a protected
    collection and every photo in a protected collection is still there. *)
Definition keeps_protected (d d' : DB) : Prop :=
  (forall c, In c (collections d) -> protected (c_id c) ->
             In c (collections d')) /\
  (forall o, In o (collectionOwners d) -> protected (o_collectionId o) ->
             In o (collectionOwners d')) /\
  (forall p id, In p (photos d) -> p_collectionId p = Some id -> protected id ->
                In p (photos d')).

(** The session table is untouched. *)
Definition same_sessions (d d' : DB) : Prop := sessions d' = sessions d.

(** No collection row and no photo row is added or changed. *)
Definition shrinks (d d' : DB) : Prop :=
  incl (collections d') (collections d) /\ incl (photos d') (photos d).

(** No session row carries the id [sessionId]. *)
Definition no_session (sessionId : string) (d : DB) : Prop :=
  forall s, In s (sessions d) -> s_id s <> sessionId.

(** ** Traces of a cleanup *)

(** The key under which the blob of a photo is stored. *)
Definition blob_key (filePath : string) : string :=
  ("uploads/" ++
   (if Js.includes "/" filePath then Js.split_pop "/"%char filePath
    else filePath))%string.

(** The effects of deleting the blobs of [rows], one after the other, when
    [faults] says which of the blob calls fail: each photo has its attempt;
    a failed attempt is followed by the error it logs. *)
Fixpoint blob_attempts (rows : list Photo) (faults : list bool) : list Event :=
  match rows with
  | [] => []
  | p :: rest =>
      match faults with
      | true :: later =>
          BlobDelete (blob_key (p_filePath p)) false
            :: ConsoleError "Error deleting photo from Firebase Storage:"
            :: blob_attempts rest later
      | _ =>
          BlobDelete (blob_key (p_filePath p)) true
            :: blob_attempts rest (tl faults)
      end
  end.

(** The keys of the blob deletions attempted in a trace, in order. *)
Definition attempted_keys (t : list Event) : list string :=
  flat_map (fun e => match e with
                     | BlobDelete key _ => [key]
                     | _ => []
                     end) t.

(** ** The temporal-flag invariant *)

Definition temporal_flag_ok (isTemporary : option bool)
    (sessionId : option string) (expiresAt : option Z) : Prop :=
  (isTemporary = Some true -> sessionId <> None /\ expiresAt <> None) /\
  (isTemporary = Some false -> sessionId = None /\ expiresAt = None).

Definition collection_ok (c : Collection) : Prop :=
  temporal_flag_ok (c_isTemporary c) (c_sessionId c) (c_expiresAt c).

Definition photo_ok (p : Photo) : Prop :=
  temporal_flag_ok (p_isTemporary p) (p_sessionId p) (p_expiresAt p).

(** Every collection row and photo row of [d'] is a row of [d] or
    satisfies the invariant: what was inserted or rewritten is well-formed. *)
Definition rows_ok (d d' : DB) : Prop :=
  (forall c, In c (collections d') -> In c (collections d) \/ collection_ok c) /\
  (forall p, In p (photos d') -> In p (photos d) \/ photo_ok p).

(** A request that went through [requireAuth]. *)
Definition authenticated (req : Request) : Prop :=
  exists sessionId user,
    req_sessionId req = Some sessionId /\ sessionId <> "" /\
    req_user req = Some user.

(** No collection row and no photo row is tied to the session [sessionId]. *)
Definition no_content (sessionId : string) (d : DB) : Prop :=
  (forall c, In c (collections d) -> c_sessionId c <> Some sessionId) /\
  (forall p, In p (photos d) -> p_sessionId p <> Some sessionId).

(** From [d] to [d'] the session [sessionId] was deleted: its row is gone
    and, if there was one, so is everything that referenced it. *)
Definition session_gone (sessionId : string) (d d' : DB) : Prop :=
  no_session sessionId d' /\
  ((exists s, In s (sessions d) /\ s_id s = sessionId) ->
   no_content sessionId d').

(** No user row and no session row is added or changed. *)
Definition dwindles (d d' : DB) : Prop :=
  incl (users d') (users d) /\ incl (sessions d') (sessions d).

(** No account has the id [userId]. *)
Definition no_user (userId : Z) (d : DB) : Prop :=
  forall u, In u (users d) -> u_id u <> userId.

(** At time [now], every session of the account [userId] expires at
    another time than [now]. *)
Definition off_beat (userId now : Z) (w : World) : Prop :=
  w_now w = now /\
  forall s, In s (sessions (w_db w)) -> s_userId s = userId ->
            s_expiresAt s <> now.

(** ** Expiry *)

(** At time [now] the session is past its expiry. *)
Definition expired_session (now : Z) (s : Session) : bool :=
  (s_expiresAt s <? now)%Z.

(** The [session_id] column names a session of [d] that is past its
    expiry at time [now]. *)
Definition tied_to_expired (now : Z) (sessionId : option string) (d : DB)
  : Prop :=
  exists s, In s (sessions d) /\ s_expiresAt s < now /\ sessionId = Some (s_id s).

(** The tables after a sweep at time [now] in which every statement
    succeeded. *)
Definition swept (now : Z) (d : DB) : DB :=
  Sql.delete_sessions (expired_session now)
    (Sql.delete_collections (TemporalStorageService.expired_collection now)
       (Sql.delete_photos (TemporalStorageService.expired_photo now) d)).

(** ** Ownership *)

(** An ownership row ties the account [userId] to the collection
    [collectionId]. *)
Definition owns (userId collectionId : Z) (d : DB) : bool :=
  existsb
    (fun o => (o_collectionId o =? collectionId)%Z && (o_userId o =? userId)%Z)
    (collectionOwners d).

(** The partner of the account [userId]: the other side of the first
    partnership row that names it, if that account exists. *)
Definition partner_of (userId : Z) (d : DB) : option User :=
  match
    filter (fun q => (pt_user1Id q =? userId)%Z || (pt_user2Id q =? userId)%Z)
      (partnerships d)
  with
  | [] => None
  | q :: _ =>
      hd_error
        (filter
           (user_is (if (pt_user1Id q =? userId)%Z then pt_user2Id q
                     else pt_user1Id q))
           (users d))
  end.

(** The row [createCollection] inserts for [data] under the id [id]. *)
Definition collection_row (data : InsertCollection) (id : Z) : Collection :=
  mkCollection id (ic_name data) (ic_description data) (ic_type data)
    (ic_userId data) (ic_isTemporary data) (ic_sessionId data)
    (ic_expiresAt data).

(** The row [createPhoto] inserts for [data] under the id [id]. *)
Definition photo_row (data : InsertPhoto) (id : Z) : Photo :=
  mkPhoto id (ip_title data) (ip_fileName data) (ip_fileType data)
    (ip_filePath data) (Some (Sql.is_true (ip_isLiked data)))
    (ip_collectionId data) (ip_isTemporary data) (ip_sessionId data)
    (ip_expiresAt data).

(** ** Retries *)

(** The world after [withDatabaseRetry] has logged one failed attempt. *)
Definition attempt_logged (w : World) : World :=
  mkWorld (w_db w) (w_blobs w) (w_now w) (w_dbFaults w) (w_blobFaults w)
          (w_random w) (w_trace w ++ [ConsoleError "Database operation failed:"]).

(** ** Ephemeral demo accounts *)

(** From [d] to [d'] nothing changed but the ownership rows, and every
    ownership row that is new ties the account [userId] to a protected
    collection. *)
Definition grants_to (userId : Z) (d d' : DB) : Prop :=
  users d' = users d /\ sessions d' = sessions d /\
  collections d' = collections d /\ photos d' = photos d /\
  partnerships d' = partnerships d /\
  exists added,
    collectionOwners d' = collectionOwners d ++ added /\
    forall o, In o added ->
              o_userId o = userId /\ protected (o_collectionId o).

(** What the teardown of the account [userId] (with the session
    [sessionId]) leaves alone: the other accounts and their sessions, the
    protected collections that are tied to no session, the photos in them
    that are tied to no session, and the ownership rows that tie other
    accounts to such collections.  No collection row is added or changed. *)
Definition keeps_shared (userId : Z) (sessionId : option string) (d d' : DB)
  : Prop :=
  incl (collections d') (collections d) /\
  (forall u, In u (users d) -> u_id u <> userId -> In u (users d')) /\
  (forall s, In s (sessions d) -> s_userId s <> userId ->
             Some (s_id s) <> sessionId -> In s (sessions d')) /\
  (forall c, In c (collections d) -> protected (c_id c) ->
             c_sessionId c = None -> In c (collections d')) /\
  (forall p id, In p (photos d) -> p_collectionId p = Some id -> protected id ->
                p_sessionId p = None -> In p (photos d')) /\
  (forall o, In o (collectionOwners d) -> protected (o_collectionId o) ->
             o_userId o <> userId ->
             (forall c, In c (collections d) -> c_id c = o_collectionId o ->
                        c_sessionId c = None) ->
             In o (collectionOwners d')).

(** ** Authentication *)

(** The request [req'] carries the session id [sessionId] and an account
    that exists in [d], for which [d] stores a session under that id that
    has, at time [now], at least [SESSION_REFRESH_THRESHOLD] left to live. *)
Definition admitted (sessionId : string) (now : Z) (d : DB) (req' : Request)
  : Prop :=
  exists user s,
    req_sessionId req' = Some sessionId /\
    req_user req' = Some user /\
    In user (users d) /\
    stored_session sessionId d = Some s /\
    s_userId s = u_id user /\
    now + SESSION_REFRESH_THRESHOLD <= s_expiresAt s.

(** ** The permanent demo account *)

(** The ids of the collections the account [userId] has an ownership row
    for, as the cleanup and the summary select them. *)
Definition owned_ids (userId : Z) (d : DB) : list Z :=
  map (fun r => c_id (fst r))
    (filter (fun r => (o_userId (snd r) =? userId)%Z)
       (Sql.collections_join_owners d)).

(** The id of the account named [demo], as the services look it up. *)
Definition demo_account (d : DB) : list Z :=
  Sql.limit 1
    (map u_id (filter (fun u => String.eqb (u_username u) DEMO_USERNAME) (users d))).

(** The test the photo routes make before they touch a photo: the account
    needs an ownership row for the photo's collection, unless the photo has
    no collection (NULL, or the id 0). *)
Definition may_touch (user : User) (photo : Photo) (d : DB) : bool :=
  match truthy_id (p_collectionId photo) with
  | Some collectionId => owns (u_id user) collectionId d
  | None => true
  end.

(** ** Deleting a session *)


(** ** Creating a collection with its photos *)

(** The tables after [createCollection data] for the creator [creator],
    every statement having succeeded. *)
Definition created_tables (data : InsertCollection) (creator : Z) (d : DB)
  : DB :=
  let id := collections_seq d in
  let d1 := snd (Sql.insert_collection (collection_row data) d) in
  let d2 := Sql.insert_owner (mkOwner id creator) d1 in
  match partner_of creator d with
  | Some p => Sql.insert_owner (mkOwner id (u_id p)) d2
  | None => d2
  end.

(** The photo row [p] is what the create-collection route stores for the
    uploaded file [entry] (its position and the file): title, type, a path
    equal to the generated file name, under which the blob is in [blobs],
    and the collection and temporal columns of the request. *)
Definition uploaded_as (collectionId : Z) (makeTemporary : bool)
    (sessionId : option string) (expiresAt : option Z) (titles : list string)
    (blobs : list string) (entry : nat * File) (p : Photo) : Prop :=
  p_title p = or_else (nth_error titles (fst entry)) (originalname (snd entry)) /\
  p_fileType p = mimetype (snd entry) /\
  p_filePath p = p_fileName p /\
  In ("uploads/" ++ p_fileName p)%string blobs /\
  p_isLiked p = Some false /\
  p_collectionId p = Some collectionId /\
  p_isTemporary p = Some makeTemporary /\
  p_sessionId p = sessionId /\
  p_expiresAt p = expiresAt.

(** The six tables of [d'] hold the rows of [d], in the same order; the
    sequences may have moved on. *)
Definition same_tables (d d' : DB) : Prop :=
  users d' = users d /\ sessions d' = sessions d /\
  collections d' = collections d /\
  collectionOwners d' = collectionOwners d /\
  photos d' = photos d /\ partnerships d' = partnerships d.

(** No row of [d] refers to the account id [userId]. *)
Definition unused_account (userId : Z) (d : DB) : Prop :=
  no_user userId d /\
  (forall s, In s (sessions d) -> s_userId s <> userId) /\
  (forall o, In o (collectionOwners d) -> o_userId o <> userId) /\
  (forall q, In q (partnerships d) ->
             pt_user1Id q <> userId /\ pt_user2Id q <> userId).

(** No row of [d] refers to the session id [sessionId]. *)
Definition unused_session (sessionId : string) (d : DB) : Prop :=
  no_session sessionId d /\
  (forall p, In p (photos d) -> p_sessionId p <> Some sessionId) /\
  (forall c, In c (collections d) -> c_sessionId c <> Some sessionId).

(** ** What the database accepts *)

(** Every photo that is in a collection selected by [gone_c] is selected
    by [gone_p]: once those photos are deleted, no photo refers to one of
    those collections, and [photos.collection_id] (a reference without an
    [onDelete] action) does not stand in the way of deleting them. *)
Definition photos_go_with (gone_c : Collection -> bool)
    (gone_p : Photo -> bool) (d : DB) : bool :=
  forallb
    (fun p =>
       gone_p p ||
       negb (existsb
               (fun c => gone_c c && Sql.eq_int (p_collectionId p) (c_id c))
               (collections d)))
    (photos d).

(** The session [sessionId] can be deleted: every photo in a collection
    that the delete removes by cascade is removed by the same cascade. *)
Definition session_deletable (sessionId : string) (d : DB) : bool :=
  photos_go_with (fun c => Sql.eq_str (c_sessionId c) sessionId)
    (fun p => Sql.eq_str (p_sessionId p) sessionId) d.

(** The sweep at time [now] can delete what it selects: the photos in an
    expired temporary collection are expired temporary photos, and the
    photos in a collection tied to a session past its expiry are expired
    temporary photos or tied to such a session themselves. *)
Definition sweepable (now : Z) (d : DB) : bool :=
  let gone := map s_id (filter (expired_session now) (sessions d)) in
  photos_go_with (TemporalStorageService.expired_collection now)
    (TemporalStorageService.expired_photo now) d &&
  photos_go_with (fun c => Sql.inArray_str (c_sessionId c) gone)
    (fun p => TemporalStorageService.expired_photo now p ||
              Sql.inArray_str (p_sessionId p) gone) d.

(** The account [userId] exists, as [sessions.user_id] requires of a
    session that is stored. *)
Definition account_exists (userId : Z) (d : DB) : bool :=
  existsb (user_is userId) (users d).

(** The id fits the [integer] columns of the schema. *)
Definition int4 (id : Z) : bool :=
  (- 2147483648 <=? id)%Z && (id <=? 2147483647)%Z.
(** * Reasoning about operations *)

Section WeakestPreconditions.

Context {A B : Type}.
Implicit Types (Q : A -> World -> Prop) (E : string -> World -> Prop).

Lemma wp_ret (a : A) Q E w : Q a w -> wp (ret a) Q E w.
Proof. exact (fun H => H). Qed.

Lemma wp_throw msg Q E w : E msg w -> wp (@throw A msg) Q E w.
Proof. exact (fun H => H). Qed.

Lemma wp_bind (m : M B) (k : B -> M A) Q E w :
  wp m (fun b w' => wp (k b) Q E w') E w -> wp (bind m k) Q E w.
Proof.
  unfold wp, bind. destruct (m w) as [[b | e] w']; auto.
Qed.

Lemma wp_try_catch (m : M A) (h : string -> M A) Q E w :
  wp m Q (fun e w' => wp (h e) Q E w') w -> wp (try_catch m h) Q E w.
Proof.
  unfold wp, try_catch. destruct (m w) as [[a | e] w']; auto.
Qed.

Lemma wp_mono (m : M A) Q Q' E E' w :
  wp m Q E w ->
  (forall a w', Q a w' -> Q' a w') ->
  (forall e w', E e w' -> E' e w') ->
  wp m Q' E' w.
Proof.
  unfold wp. destruct (m w) as [[a | e] w']; auto.
Qed.

Lemma wp_db_stmt (f : DB -> A * DB) ev Q E w :
  (forall msg, E msg (with_dbFaults w (tl (w_dbFaults w)))) ->
  Q (fst (f (w_db w))) (after_stmt w (snd (f (w_db w))) (ev (w_db w))) ->
  wp (db_stmt f ev) Q E w.
Proof.
  intros HE HQ. unfold wp, db_stmt.
  destruct (w_dbFaults w) as [| [msg |] rest]; auto.
Qed.

Lemma wp_db_stmt_quiet (f : DB -> A * DB) ev Q E w :
  quiet w ->
  Q (fst (f (w_db w))) (after_stmt w (snd (f (w_db w))) (ev (w_db w))) ->
  wp (db_stmt f ev) Q E w.
Proof.
  unfold quiet, wp, db_stmt. intros -> HQ. exact HQ.
Qed.

End WeakestPreconditions.

Lemma wp_emit e (Q : unit -> World -> Prop) E w :
  Q tt (mkWorld (w_db w) (w_blobs w) (w_now w) (w_dbFaults w) (w_blobFaults w)
          (w_random w) (w_trace w ++ [e])) ->
  wp (emit e) Q E w.
Proof. exact (fun H => H). Qed.

Lemma wp_Date_now (Q : Z -> World -> Prop) E w :
  Q (w_now w) w -> wp Date_now Q E w.
Proof. exact (fun H => H). Qed.

(** A loop whose body keeps [I] whenever it ends normally keeps [I]. *)
Lemma wp_for_of {A} (xs : list A) (body : A -> M unit)
    (I : World -> Prop) (E : string -> World -> Prop) :
  (forall x w, In x xs -> I w -> wp (body x) (fun _ => I) E w) ->
  forall w, I w -> wp (for_of xs body) (fun _ => I) E w.
Proof.
  induction xs as [| x xs IH]; intros Hbody w Hw.
  - exact Hw.
  - cbn [for_of]. apply wp_bind.
    eapply wp_mono.
    + apply Hbody; [now left | exact Hw].
    + intros u w' Hw'. apply IH; [| exact Hw'].
      intros y w'' Hy. apply Hbody. now right.
    + auto.
Qed.

(** What a run says, read off [wp]. *)
Lemma wp_run {A} (m : M A) Q E w :
  wp m Q E w ->
  match fst (m w) with
  | Ok a => Q a (snd (m w))
  | Throw e => E e (snd (m w))
  end.
Proof.
  unfold wp. destruct (m w) as [[a | e] w']; auto.
Qed.

(** * Facts about the SQL layer and quiet worlds *)

Lemma after_stmt_quiet w d' :
  quiet w -> after_stmt w d' [] = with_db w d'.
Proof.
  unfold quiet, after_stmt, with_db. intros ->. now rewrite app_nil_r.
Qed.

Lemma with_db_same w : with_db w (w_db w) = w.
Proof. now destruct w. Qed.

Lemma db_query_quiet {A} (q : DB -> A) w :
  quiet w -> db_query q w = (Ok (q (w_db w)), w).
Proof.
  intros Hq. unfold db_query, db_stmt. rewrite Hq. cbn [fst snd].
  now rewrite after_stmt_quiet, with_db_same.
Qed.

Lemma db_exec_quiet {A} (f : DB -> A * DB) w :
  quiet w ->
  db_exec f w = (Ok (fst (f (w_db w))), with_db w (snd (f (w_db w)))).
Proof.
  intros Hq. unfold db_exec, db_stmt. rewrite Hq.
  now rewrite after_stmt_quiet.
Qed.

Lemma filter_none {A} (f : A -> bool) (l : list A) :
  (forall x, In x l -> f x = false) -> filter f l = [].
Proof.
  induction l as [| y l IH]; cbn [filter]; intros H.
  - reflexivity.
  - rewrite (H y) by now left. apply IH. intros x Hx. apply H. now right.
Qed.

Section PrimaryKey.

Variables (A : Type) (key : A -> Z).

Lemma filter_key_unique (l : list A) (x : A) :
  NoDup (map key l) -> In x l ->
  filter (fun y => (key y =? key x)%Z) l = [x].
Proof.
  induction l as [| y l IH]; cbn [map filter In]; intros Hnd Hin.
  - contradiction.
  - inversion Hnd as [| ? ? Hnotin Hnd']; subst.
    destruct Hin as [-> | Hin].
    + rewrite Z.eqb_refl. f_equal.
      apply filter_none; intros z Hz.
      apply Z.eqb_neq. intros Heq. apply Hnotin. rewrite <- Heq.
      now apply in_map.
    + destruct (Z.eqb_spec (key y) (key x)) as [Heq | Hneq].
      * exfalso. apply Hnotin. rewrite Heq. now apply in_map.
      * now apply IH.
Qed.

Lemma filter_key_absent (l : list A) (k : Z) :
  (forall x, In x l -> key x <> k) ->
  filter (fun y => (key y =? k)%Z) l = [].
Proof.
  intros H. apply filter_none; intros x Hx.
  now apply Z.eqb_neq, H.
Qed.

End PrimaryKey.

(** * toggleLikePhoto (models/photo-model.ts) *)

Section ToggleLike.

Variable w : World.
Variable id : Z.
Hypothesis w_quiet : quiet w.

Lemma toggleLikePhoto_absent :
  (forall p, In p (photos (w_db w)) -> p_id p <> id) ->
  toggleLikePhoto id w = (Ok None, w).
Proof.
  intros Habs. unfold toggleLikePhoto, getPhoto, bind.
  rewrite db_query_quiet by exact w_quiet.
  now rewrite (filter_key_absent p_id _ Habs).
Qed.

Lemma toggleLikePhoto_present p :
  NoDup (map p_id (photos (w_db w))) ->
  In p (photos (w_db w)) -> p_id p = id ->
  toggleLikePhoto id w =
    (Ok (Some (set_isLiked (Some (Js.not (p_isLiked p))) p)),
     with_db w
       (Sql.with_photos (w_db w)
          (map (flip_like (p_isLiked p) id) (photos (w_db w))))).
Proof.
  intros Hnd Hin <-. unfold toggleLikePhoto, getPhoto, bind.
  rewrite db_query_quiet by exact w_quiet.
  rewrite (filter_key_unique p_id _ p Hnd Hin). cbn [ret hd_error].
  rewrite db_exec_quiet by exact w_quiet.
  unfold Sql.update_photos. cbn [fst snd].
  rewrite (filter_key_unique p_id _ p Hnd Hin). cbn [map hd_error].
  reflexivity.
Qed.

End ToggleLike.

(** C10, as stated, fails: the [is_liked] column is nullable, [!null] is
    [true] and a second toggle stores [false], not NULL. *)
Lemma toggleLikePhoto_twice_loses_null :
  ~ (forall w id p,
        quiet w ->
        NoDup (map p_id (photos (w_db w))) ->
        In p (photos (w_db w)) -> p_id p = id ->
        exists p2,
          In p2 (photos (w_db (snd ((toggleLikePhoto id ;; toggleLikePhoto id) w)))) /\
          p_id p2 = id /\ p_isLiked p2 = p_isLiked p).
Proof.
  intros H.
  destruct (H (Sample.world Sample.db_null_like 1000 []) 20
              (Sample.photo 20 None)) as (p2 & Hin & _ & Hliked).
  - reflexivity.
  - repeat constructor. intros [].
  - now left.
  - reflexivity.
  - vm_compute in Hin. destruct Hin as [<- | []]. discriminate Hliked.
Qed.

(** C10 (amended): for a photo that exists, [toggleLikePhoto] stores the
    negation of its [isLiked] flag ([null] counting as false), changes
    nothing else and returns the updated photo; when the flag was [true]
    or [false], a second call restores the photo and the whole state; a
    NULL flag is [false] after the second call.  For an id that names no
    photo it returns absent and changes nothing. *)
Theorem toggleLikePhoto_involution_on_booleans :
  forall w id,
    quiet w ->
    NoDup (map p_id (photos (w_db w))) ->
    (forall p,
        In p (photos (w_db w)) -> p_id p = id ->
        let w1 :=
          with_db w
            (Sql.with_photos (w_db w)
               (map (flip_like (p_isLiked p) id) (photos (w_db w)))) in
        toggleLikePhoto id w =
          (Ok (Some (set_isLiked (Some (Js.not (p_isLiked p))) p)), w1) /\
        (forall b, p_isLiked p = Some b ->
                   toggleLikePhoto id w1 = (Ok (Some p), w)) /\
        (p_isLiked p = None ->
         fst (toggleLikePhoto id w1) = Ok (Some (set_isLiked (Some false) p)))) /\
    ((forall p, In p (photos (w_db w)) -> p_id p <> id) ->
     toggleLikePhoto id w = (Ok None, w)).
Proof.
  intros w id Hq Hnd. split; [| now apply toggleLikePhoto_absent].
  intros p Hin Hid w1.
  set (p1 := set_isLiked (Some (Js.not (p_isLiked p))) p).
  assert (Hflip : flip_like (p_isLiked p) id p = p1).
  { unfold flip_like. now rewrite Hid, Z.eqb_refl. }
  assert (Hq1 : quiet w1) by exact Hq.
  assert (Hin1 : In p1 (photos (w_db w1))).
  { cbn. rewrite <- Hflip. apply in_map. exact Hin. }
  assert (Hid1 : p_id p1 = id) by exact Hid.
  assert (Hnd1 : NoDup (map p_id (photos (w_db w1)))).
  { cbn. rewrite map_map.
    erewrite map_ext; [exact Hnd |].
    intros q. unfold flip_like. now destruct (p_id q =? id)%Z. }
  pose proof (toggleLikePhoto_present Hq1 _ Hnd1 Hin1 Hid1) as Hrun2.
  split; [now apply toggleLikePhoto_present | split].
  - intros b Hb. rewrite Hrun2. f_equal.
    + unfold p1. destruct p; cbn in *; subst. now destruct b.
    + destruct w as [d bl n f bf r t]; cbn in *. unfold with_db; cbn. f_equal.
      destruct d as [us ss cs os ps pts s1 s2 s3]; cbn in *.
      unfold Sql.with_photos; cbn. f_equal.
      rewrite map_map. rewrite <- (map_id ps) at 2.
      apply map_ext_in. intros q Hqin. unfold flip_like.
      destruct (Z.eqb_spec (p_id q) id) as [Heq | Hneq].
      * assert (q = p) as ->.
        { pose proof (filter_key_unique p_id ps p Hnd Hin) as Hf.
          assert (Hq' : In q (filter (fun y => (p_id y =? p_id p)%Z) ps)).
          { apply filter_In. split; [exact Hqin |]. apply Z.eqb_eq. congruence. }
          rewrite Hf in Hq'. now destruct Hq' as [-> | []]. }
        cbn [set_isLiked p_id]. rewrite Hid, Z.eqb_refl.
        destruct p; cbn in *; subst. now destruct b.
      * apply Z.eqb_neq in Hneq. now rewrite Hneq.
  - intros Hnone. rewrite Hrun2. cbn [fst]. unfold p1. rewrite Hnone.
    destruct p; cbn in *; subst. reflexivity.
Qed.

Lemma toggleLikePhoto_involution_on_booleans_witness :
  toggleLikePhoto 20 (Sample.world Sample.db_liked 1000 []) =
    (Ok (Some (Sample.photo 20 (Some false))),
     Sample.world
       (mkDB [] [] [Sample.album 5] []
             [Sample.photo 20 (Some false); Sample.photo 21 (Some false)] []
             1 6 22) 1000 []) /\
  toggleLikePhoto 20
    (Sample.world
       (mkDB [] [] [Sample.album 5] []
             [Sample.photo 20 (Some false); Sample.photo 21 (Some false)] []
             1 6 22) 1000 []) =
    (Ok (Some (Sample.photo 20 (Some true))),
     Sample.world Sample.db_liked 1000 []).
Proof.
  assert (Hq : quiet (Sample.world Sample.db_liked 1000 [])) by reflexivity.
  assert (Hnd : NoDup (map p_id (photos (w_db (Sample.world Sample.db_liked 1000 []))))).
  { repeat constructor; cbn; intuition discriminate. }
  destruct (toggleLikePhoto_involution_on_booleans 20 Hq Hnd) as [Hpresent _].
  destruct (Hpresent (Sample.photo 20 (Some true))) as (Hrun & Hback & _).
  - now left.
  - reflexivity.
  - split; [exact Hrun |]. exact (Hback true eq_refl).
Defined.

(** * Session renewal (AuthController.refreshSession) *)

(** C1: what the code does at a renewal.  The handler first moves the
    expiry of the session's temporary content, then deletes the old session
    row; the [ON DELETE CASCADE] references from [collections.session_id]
    and [photos.session_id] remove that content with it, and the fresh
    session has another id.  After the renewal no temporary item of the
    renewed session exists. *)
Theorem refreshSession_drops_temporary_content :
  let w0 := Sample.world Sample.db_renewal Sample.renewal_now ["s2"] in
  let run := POST_auth_refresh Sample.renewal_request w0 in
  fst (TemporalStorageService.getTemporaryContentBySession "s1" w0) =
    Ok ([Sample.temporary_album], [Sample.temporary_photo]) /\
  fst run = Ok (mkResponse 200 (Some "s2") (Some 1600000)) /\
  sessions (w_db (snd run)) = [mkSession "s2" 7 "alice" 1600000] /\
  collections (w_db (snd run)) = [Sample.album 5] /\
  photos (w_db (snd run)) = [] /\
  fst (TemporalStorageService.getTemporaryContentBySession "s1" (snd run)) =
    Ok ([], []) /\
  fst (TemporalStorageService.getTemporaryContentBySession "s2" (snd run)) =
    Ok ([], []).
Proof. vm_compute. repeat split; reflexivity. Qed.

(** * Sweep of ephemeral demo accounts (DemoUserService) *)

(** C2: what the code does for an account whose session is still valid.
    The "active sessions" query compares [expiresAt] with the current time
    for equality, so a session that expires in the future is not found and
    the account is torn down: account, session, its album and photo. *)
Theorem cleanupExpiredDemoUsers_tears_down_live_account :
  let w0 := Sample.world Sample.db_sweep 1000000 [] in
  let run := cleanupExpiredDemoUsers w0 in
  isTemporaryDemoUser (u_username Sample.visitor) = true /\
  (exists s, In s (sessions (w_db w0)) /\
             s_userId s = u_id Sample.visitor /\ w_now w0 < s_expiresAt s) /\
  fst run = Ok tt /\
  users (w_db (snd run)) = [] /\
  sessions (w_db (snd run)) = [] /\
  collections (w_db (snd run)) = [Sample.album 1] /\
  collectionOwners (w_db (snd run)) = [] /\
  photos (w_db (snd run)) = [].
Proof.
  vm_compute. repeat split; try reflexivity.
  eexists. split; [left; reflexivity |]. split; reflexivity.
Qed.

(** * Ephemeral account creation (DemoUserService) *)

(** C3: what the code does when the first protected collection is
    missing.  The guard that is meant to check whether any protected
    collection exists looks up the first id of the allowlist only; without
    collection 1 the grant returns early and the new account owns none of
    the protected collections that do exist. *)
Theorem createTemporaryDemoUser_skips_grant_without_first_collection :
  let w0 := Sample.world Sample.db_grant 1700000000000 ["ab12cd"; "s9"] in
  let run := createTemporaryDemoUser w0 in
  map c_id (collections (w_db w0)) = [2; 3] /\
  fst run =
    Ok (mkUser 5 "demo_1700000000000_ab12cd" "Demo User 0_ab12cd", "s9") /\
  collections (w_db (snd run)) = collections (w_db w0) /\
  collectionOwners (w_db (snd run)) = [].
Proof. vm_compute. repeat split; reflexivity. Qed.

(** With the first protected collection present the grant covers every
    protected collection that exists (the grants run under [Promise.all]:
    the order of the rows is not part of the statement). *)
Lemma createTemporaryDemoUser_grants_when_first_collection_exists :
  let w0 := Sample.world Sample.db_grant_all 1700000000000 ["ab12cd"; "s9"] in
  forall o,
    In o (collectionOwners (w_db (snd (createTemporaryDemoUser w0)))) <->
    o_userId o = 5 /\ In (o_collectionId o) PROTECTED_COLLECTION_IDS.
Proof.
  intros w0 o.
  replace (collectionOwners (w_db (snd (createTemporaryDemoUser w0))))
    with [mkOwner 1 5; mkOwner 2 5; mkOwner 3 5; mkOwner 4 5; mkOwner 6 5]
    by (vm_compute; reflexivity).
  unfold PROTECTED_COLLECTION_IDS. split.
  - intros Hin.
    repeat (destruct Hin as [<- | Hin]; [cbn; auto 10 |]). destruct Hin.
  - destruct o as [c u]. cbn [o_userId o_collectionId]. intros [-> Hin].
    repeat (destruct Hin as [<- | Hin]; [cbn; auto 10 |]). destruct Hin.
Qed.

(** * The session store and AuthService *)

Lemma db_run_quiet (f : DB -> DB) w :
  quiet w -> db_run f w = (Ok tt, with_db w (f (w_db w))).
Proof.
  intros Hq. unfold db_run, db_stmt. rewrite Hq.
  now rewrite after_stmt_quiet.
Qed.

Lemma set_quiet sessionId data w :
  quiet w ->
  DatabaseSessionStore.set sessionId data w =
    (Ok tt,
     with_db w
       (Sql.upsert_session
          (mkSession sessionId (userId data) (username data) (expiresAt data))
          (w_db w))).
Proof.
  intros Hq. unfold DatabaseSessionStore.set, try_catch.
  now rewrite db_run_quiet.
Qed.

Lemma limit_1_hd {A} (l : list A) :
  Sql.limit 1 l = match hd_error l with Some x => [x] | None => [] end.
Proof. now destruct l. Qed.

Lemma get_unexpired_quiet sessionId w s :
  quiet w ->
  stored_session sessionId (w_db w) = Some s ->
  w_now w <= s_expiresAt s ->
  DatabaseSessionStore.get sessionId w =
    (Ok (Some (mkSessionData (s_userId s) (s_username s) (s_expiresAt s))), w).
Proof.
  intros Hq Hs Hle. unfold DatabaseSessionStore.get, try_catch, bind.
  rewrite db_query_quiet by exact Hq.
  rewrite limit_1_hd. unfold stored_session in Hs. rewrite Hs.
  cbn [Date_now]. 
  destruct (Z.ltb_spec (s_expiresAt s) (w_now w)); [lia | reflexivity].
Qed.

Lemma upsert_session_sets s d s' :
  In s' (sessions (Sql.upsert_session s d)) -> s_id s' = s_id s -> s' = s.
Proof.
  unfold Sql.upsert_session.
  destruct (Sql.mem_str (s_id s) (map s_id (sessions d))) eqn:E; cbn.
  - intros Hin Hid. apply in_map_iff in Hin as (r & Hr & _).
    destruct (String.eqb_spec (s_id r) (s_id s)); congruence.
  - intros Hin Hid. apply in_app_iff in Hin as [Hin | [<- | []]]; [| reflexivity].
    exfalso.
    assert (Hmem : Sql.mem_str (s_id s) (map s_id (sessions d)) = true).
    { apply existsb_exists. exists (s_id s'). split.
      - now apply in_map.
      - apply String.eqb_eq. congruence. }
    congruence.
Qed.

Lemma upsert_session_stores s d : In s (sessions (Sql.upsert_session s d)).
Proof.
  unfold Sql.upsert_session.
  destruct (Sql.mem_str (s_id s) (map s_id (sessions d))) eqn:E; cbn.
  - apply existsb_exists in E as (i & Hi & Heq).
    apply in_map_iff in Hi as (r & <- & Hr).
    apply in_map_iff. exists r. split; [| exact Hr].
    apply String.eqb_eq in Heq.
    destruct (String.eqb_spec (s_id r) (s_id s)); congruence.
  - apply in_app_iff. right. now left.
Qed.

Lemma stored_session_upsert s d :
  stored_session (s_id s) (Sql.upsert_session s d) = Some s.
Proof.
  unfold stored_session.
  pose proof (upsert_session_stores s d) as Hin.
  assert (Hf : In s (filter (session_is (s_id s))
                       (sessions (Sql.upsert_session s d)))).
  { apply filter_In. split; [exact Hin |]. apply String.eqb_refl. }
  destruct (filter (session_is (s_id s)) (sessions (Sql.upsert_session s d)))
    as [| r l] eqn:E.
  - destruct Hf.
  - cbn. f_equal.
    assert (Hr : In r (filter (session_is (s_id s))
                         (sessions (Sql.upsert_session s d)))).
    { rewrite E. now left. }
    apply filter_In in Hr as [Hr Hid].
    apply (upsert_session_sets _ _ _ Hr). now apply String.eqb_eq in Hid.
Qed.

Lemma getSession_near_expiry_quiet sessionId w s :
  quiet w ->
  stored_session sessionId (w_db w) = Some s ->
  w_now w <= s_expiresAt s ->
  s_expiresAt s - w_now w < SESSION_REFRESH_THRESHOLD ->
  AuthService.getSession sessionId w =
    (Ok (Some (mkSessionData (s_userId s) (s_username s)
                 (w_now w + SESSION_DURATION))),
     with_db w
       (Sql.upsert_session
          (mkSession sessionId (s_userId s) (s_username s)
             (w_now w + SESSION_DURATION)) (w_db w))).
Proof.
  intros Hq Hs Hle Hnear. unfold AuthService.getSession, bind.
  rewrite (get_unexpired_quiet _ Hq Hs Hle). cbn [Date_now expiresAt].
  destruct (Z.ltb_spec (s_expiresAt s - w_now w) SESSION_REFRESH_THRESHOLD);
    [| lia].
  rewrite set_quiet by exact Hq. reflexivity.
Qed.

(** C5: an authenticated read of a session that is present, unexpired and
    less than [SESSION_REFRESH_THRESHOLD] (2 minutes) away from its expiry
    stores [now + SESSION_DURATION] (10 minutes) as the new expiry before
    it returns the session, and returns the session with that new expiry,
    which is later than the original one. *)
Theorem getSession_auto_extends_near_expiry :
  forall w sessionId s,
    quiet w ->
    stored_session sessionId (w_db w) = Some s ->
    w_now w <= s_expiresAt s ->
    s_expiresAt s - w_now w < SESSION_REFRESH_THRESHOLD ->
    let renewed := w_now w + SESSION_DURATION in
    let run := AuthService.getSession sessionId w in
    SESSION_REFRESH_THRESHOLD = 2 * 60 * 1000 /\
    SESSION_DURATION = 10 * 60 * 1000 /\
    fst run = Ok (Some (mkSessionData (s_userId s) (s_username s) renewed)) /\
    stored_session sessionId (w_db (snd run)) =
      Some (mkSession sessionId (s_userId s) (s_username s) renewed) /\
    (forall s', In s' (sessions (w_db (snd run))) -> s_id s' = sessionId ->
                s_expiresAt s' = renewed) /\
    s_expiresAt s < renewed.
Proof.
  intros w sessionId s Hq Hs Hle Hnear renewed run.
  unfold run. rewrite (getSession_near_expiry_quiet _ Hq Hs Hle Hnear).
  cbn [fst snd w_db with_db]. fold renewed.
  repeat split.
  - apply (stored_session_upsert
             (mkSession sessionId (s_userId s) (s_username s) renewed)).
  - intros s' Hin Hid.
    now rewrite (upsert_session_sets _ _ _ Hin Hid).
  - unfold renewed, SESSION_DURATION, SESSION_REFRESH_THRESHOLD in *. lia.
Qed.

Lemma getSession_auto_extends_near_expiry_witness :
  fst (AuthService.getSession "s1"
         (Sample.world Sample.db_near_expiry 1000000 [])) =
    Ok (Some (mkSessionData 7 "alice" 1600000)) /\
  stored_session "s1"
    (w_db (snd (AuthService.getSession "s1"
                  (Sample.world Sample.db_near_expiry 1000000 [])))) =
    Some (mkSession "s1" 7 "alice" 1600000).
Proof.
  destruct (@getSession_auto_extends_near_expiry
              (Sample.world Sample.db_near_expiry 1000000 []) "s1"
              (mkSession "s1" 7 "alice" 1060000))
    as (_ & _ & Hret & Hstored & _).
  - reflexivity.
  - reflexivity.
  - vm_compute. discriminate.
  - reflexivity.
  - split; [exact Hret | exact Hstored].
Defined.

Lemma shrinks_upsert_same s d :
  collections (Sql.upsert_session s d) = collections d /\
  photos (Sql.upsert_session s d) = photos d.
Proof.
  unfold Sql.upsert_session. now destruct (Sql.mem_str _ _).
Qed.

Lemma createSession_quiet userId username w :
  quiet w ->
  exists sessionId w',
    AuthService.createSession userId username w = (Ok sessionId, w') /\
    quiet w' /\
    w_now w' = w_now w /\
    collections (w_db w') = collections (w_db w) /\
    photos (w_db w') = photos (w_db w) /\
    stored_session sessionId (w_db w') =
      Some (mkSession sessionId userId username (w_now w + SESSION_DURATION)).
Proof.
  intros Hq.
  unfold AuthService.createSession, AuthService.generateSessionId, bind,
    Math_random.
  destruct (w_random w) as [| r rest] eqn:R.
  - exists "". eexists. cbn [Date_now]. rewrite set_quiet by exact Hq.
    split; [reflexivity |]. cbn.
    split; [exact Hq |]. split; [reflexivity |].
    split; [apply shrinks_upsert_same |]. split; [apply shrinks_upsert_same |].
    apply (stored_session_upsert (mkSession "" _ _ _)).
  - exists r. eexists. cbn [Date_now].
    rewrite set_quiet by exact Hq.
    split; [reflexivity |]. cbn.
    split; [exact Hq |]. split; [reflexivity |].
    split; [apply shrinks_upsert_same |]. split; [apply shrinks_upsert_same |].
    apply (stored_session_upsert (mkSession r _ _ _)).
Qed.

(** Scenario A: a session created with the 10-minute duration and read
    once less than 2 minutes remain carries [now + 10 minutes], not the
    expiry it was created with. *)
Lemma getSession_scenario_A :
  forall w userId username now,
    quiet w ->
    w_now w + (SESSION_DURATION - SESSION_REFRESH_THRESHOLD) < now ->
    now <= w_now w + SESSION_DURATION ->
    let created := AuthService.createSession userId username w in
    exists sessionId,
      fst created = Ok sessionId /\
      fst (AuthService.getSession sessionId (at_time now (snd created))) =
        Ok (Some (mkSessionData userId username (now + SESSION_DURATION))) /\
      now + SESSION_DURATION <> w_now w + SESSION_DURATION.
Proof.
  intros w userId username now Hq Hlate Hlive created.
  destruct (createSession_quiet userId username Hq)
    as (sessionId & w' & Hrun & Hq' & Hnow & _ & _ & Hstored).
  exists sessionId. unfold created. rewrite Hrun. cbn [fst snd].
  split; [reflexivity |]. split.
  - rewrite (@getSession_near_expiry_quiet sessionId (at_time now w')
               (mkSession sessionId userId username (w_now w + SESSION_DURATION)));
      cbn; auto;
      unfold SESSION_DURATION, SESSION_REFRESH_THRESHOLD in *; lia.
  - unfold SESSION_DURATION, SESSION_REFRESH_THRESHOLD in *. lia.
Qed.

(** * Frame rules *)

Section Always.

Variable R : DB -> DB -> Prop.
Context {R_pre : DbPreorder R}.

Lemma always_ret {A} (a : A) : always R (ret a).
Proof. intros w. exact (db_refl (w_db w)). Qed.

Lemma always_throw {A} msg : always R (@throw A msg).
Proof. intros w. exact (db_refl (w_db w)). Qed.

Lemma always_emit e : always R (emit e).
Proof. intros w. exact (db_refl (w_db w)). Qed.

Lemma always_console_error msg : always R (console_error msg).
Proof. apply always_emit. Qed.

Lemma always_Date_now : always R Date_now.
Proof. intros w. exact (db_refl (w_db w)). Qed.

Lemma always_Math_random : always R Math_random.
Proof.
  intros w. unfold wp, Math_random.
  destruct (w_random w); exact (db_refl (w_db w)).
Qed.

Lemma always_blob_delete key : always R (blob_delete key).
Proof.
  intros w. unfold wp, blob_delete.
  destruct (w_blobFaults w) as [| [|] rest]; exact (db_refl (w_db w)).
Qed.

Lemma always_blob_save key : always R (blob_save key).
Proof.
  intros w. unfold wp, blob_save.
  destruct (w_blobFaults w) as [| [|] rest]; exact (db_refl (w_db w)).
Qed.

Lemma always_bind {A B} (m : M A) (k : A -> M B) :
  always R m -> (forall a, always R (k a)) -> always R (bind m k).
Proof.
  intros Hm Hk w. apply wp_bind. eapply wp_mono; [apply Hm | |]; cbn.
  - intros a w' H1. eapply wp_mono; [apply Hk | |]; cbn;
      intros; eapply db_trans; eauto.
  - auto.
Qed.

Lemma always_try_catch {A} (m : M A) (h : string -> M A) :
  always R m -> (forall e, always R (h e)) -> always R (try_catch m h).
Proof.
  intros Hm Hh w. apply wp_try_catch. eapply wp_mono; [apply Hm | |]; cbn.
  - auto.
  - intros e w' H1. eapply wp_mono; [apply Hh | |]; cbn;
      intros; eapply db_trans; eauto.
Qed.

Lemma always_for_of {A} (xs : list A) (body : A -> M unit) :
  (forall x, always R (body x)) -> always R (for_of xs body).
Proof.
  intros Hbody. induction xs as [| x xs IH].
  - apply always_ret.
  - cbn [for_of]. apply always_bind; [apply Hbody | intros; exact IH].
Qed.

Lemma always_db_stmt {A} (f : DB -> A * DB) ev :
  (forall d, R d (snd (f d))) -> always R (db_stmt f ev).
Proof.
  intros Hf w. apply wp_db_stmt; cbn.
  - intros _. apply db_refl.
  - apply Hf.
Qed.

Lemma always_db_query {A} (q : DB -> A) : always R (db_query q).
Proof. apply always_db_stmt. intros d. apply db_refl. Qed.

(** The continuation of a SELECT only has to be considered on what a
    SELECT can return. *)
Lemma always_bind_query {A B} (q : DB -> A) (k : A -> M B) :
  (forall d, always R (k (q d))) -> always R (bind (db_query q) k).
Proof.
  intros Hk w. apply wp_bind. apply wp_db_stmt; cbn.
  - intros _. apply db_refl.
  - eapply wp_mono; [apply Hk | |]; cbn; auto.
Qed.

End Always.

Section Steady.

Variable R : DB -> DB -> Prop.
Context {R_pre : DbPreorder R}.

Lemma steady_ret {A} (a : A) : steady R (ret a).
Proof.
  intros w Hq. hnf. cbn. repeat split; [exact Hq | apply db_refl].
Qed.

Lemma steady_emit e : steady R (emit e).
Proof.
  intros w Hq. hnf. cbn. repeat split; [exact Hq | apply db_refl].
Qed.

Lemma steady_console_error msg : steady R (console_error msg).
Proof. apply steady_emit. Qed.

Lemma steady_Date_now : steady R Date_now.
Proof.
  intros w Hq. hnf. cbn. repeat split; [exact Hq | apply db_refl].
Qed.

Lemma steady_bind {A B} (m : M A) (k : A -> M B) :
  steady R m -> (forall a, steady R (k a)) -> steady R (bind m k).
Proof.
  intros Hm Hk w Hq. apply wp_bind. eapply wp_mono; [apply Hm, Hq | |]; cbn.
  - intros a w' (Hq' & Hnow & H1).
    eapply wp_mono; [apply Hk, Hq' | |]; cbn.
    + intros b w'' (Hq'' & Hnow' & H2). repeat split; auto.
      * congruence.
      * eapply db_trans; eauto.
    + auto.
  - auto.
Qed.

Lemma steady_try_catch {A} (m : M A) (h : string -> M A) :
  steady R m -> steady R (try_catch m h).
Proof.
  intros Hm w Hq. apply wp_try_catch.
  eapply wp_mono; [apply Hm, Hq | |]; cbn; [auto | intros e w' []].
Qed.

Lemma steady_for_of {A} (xs : list A) (body : A -> M unit) :
  (forall x, steady R (body x)) -> steady R (for_of xs body).
Proof.
  intros Hbody. induction xs as [| x xs IH].
  - apply steady_ret.
  - cbn [for_of]. apply steady_bind; [apply Hbody | intros; exact IH].
Qed.

Lemma steady_db_stmt {A} (f : DB -> A * DB) ev :
  (forall d, R d (snd (f d))) -> steady R (db_stmt f ev).
Proof.
  intros Hf w Hq. apply wp_db_stmt_quiet; [exact Hq |].
  unfold quiet in *. cbn. rewrite Hq. auto.
Qed.

Lemma steady_db_query {A} (q : DB -> A) : steady R (db_query q).
Proof. apply steady_db_stmt. intros d. apply db_refl. Qed.

Lemma steady_bind_query {A B} (q : DB -> A) (k : A -> M B) :
  (forall d, steady R (k (q d))) -> steady R (bind (db_query q) k).
Proof.
  intros Hk w Hq. apply wp_bind. apply wp_db_stmt_quiet; [exact Hq |]. cbn.
  assert (Hq' : quiet (after_stmt w (w_db w) [])).
  { unfold quiet in *. cbn. now rewrite Hq. }
  eapply wp_mono; [apply Hk, Hq' | |]; cbn; auto.
Qed.

(** Blob failures are caught inside [deletePhotoFromFirebaseStorage]. *)
Lemma steady_deletePhotoFromFirebaseStorage filePath :
  steady R (deletePhotoFromFirebaseStorage filePath).
Proof.
  intros w Hq. unfold wp, deletePhotoFromFirebaseStorage, try_catch, blob_delete.
  destruct (w_blobFaults w) as [| [|] rest]; cbn;
    (split; [exact Hq | split; [reflexivity | apply db_refl]]).
Qed.

(** Using a [steady] operation inside a [wp] proof. *)
Lemma steady_wp {A} (m : M A) (Q : A -> World -> Prop) E w :
  steady R m ->
  quiet w ->
  (forall a w',
      quiet w' -> w_now w' = w_now w -> R (w_db w) (w_db w') -> Q a w') ->
  wp m Q E w.
Proof.
  intros Hm Hq HQ. eapply wp_mono; [apply Hm, Hq | |]; cbn.
  - intros a w' (H1 & H2 & H3). now apply HQ.
  - intros e w' [].
Qed.

End Steady.

(** Stepping through an operation, one construct at a time. *)
Ltac frame_step :=
  lazymatch goal with
  | |- DbPreorder _ => typeclasses eauto
  | |- always ?R (ret _) => apply (@always_ret R _)
  | |- always ?R (throw _) => apply (@always_throw R _)
  | |- always ?R (console_error _) => apply (@always_console_error R _)
  | |- always ?R (emit _) => apply (@always_emit R _)
  | |- always ?R Date_now => apply (@always_Date_now R _)
  | |- always ?R Math_random => apply (@always_Math_random R _)
  | |- always ?R (blob_delete _) => apply (@always_blob_delete R _)
  | |- always ?R (blob_save _) => apply (@always_blob_save R _)
  | |- always ?R (db_query _) => apply (@always_db_query R _)
  | |- always ?R (bind (db_query _) _) =>
      apply (@always_bind_query R _); intros ?
  | |- always ?R (bind _ _) => apply (@always_bind R _); [| intros ?]
  | |- always ?R (try_catch _ _) => apply (@always_try_catch R _); [| intros ?]
  | |- always ?R (for_of _ _) => apply (@always_for_of R _); intros ?
  | |- always _ (match ?x with _ => _ end) => destruct x
  | |- always _ (let _ := _ in _) => cbv zeta
  | |- steady ?R (ret _) => apply (@steady_ret R _)
  | |- steady ?R (console_error _) => apply (@steady_console_error R _)
  | |- steady ?R (emit _) => apply (@steady_emit R _)
  | |- steady ?R Date_now => apply (@steady_Date_now R _)
  | |- steady ?R (db_query _) => apply (@steady_db_query R _)
  | |- steady ?R (deletePhotoFromFirebaseStorage _) =>
      apply (@steady_deletePhotoFromFirebaseStorage R _)
  | |- steady ?R (bind (db_query _) _) =>
      apply (@steady_bind_query R _); intros ?
  | |- steady ?R (bind _ _) => apply (@steady_bind R _); [| intros ?]
  | |- steady ?R (try_catch _ _) => apply (@steady_try_catch R _)
  | |- steady ?R (for_of _ _) => apply (@steady_for_of R _); intros ?
  | |- steady _ (match ?x with _ => _ end) => destruct x
  | |- steady _ (let _ := _ in _) => cbv zeta
  end.

Ltac frame := repeat frame_step.

Lemma always_deletePhotoFromFirebaseStorage R `{DbPreorder R} filePath :
  always R (deletePhotoFromFirebaseStorage filePath).
Proof. unfold deletePhotoFromFirebaseStorage. frame. Qed.

Lemma always_mono (R R' : DB -> DB -> Prop) {A} (m : M A) :
  (forall d d', R d d' -> R' d d') -> always R m -> always R' m.
Proof.
  intros HR Hm w. eapply wp_mono; [apply Hm | |]; cbn; auto.
Qed.

Lemma steady_mono (R R' : DB -> DB -> Prop) {A} (m : M A) :
  (forall d d', R d d' -> R' d d') -> steady R m -> steady R' m.
Proof.
  intros HR Hm w Hq. eapply wp_mono; [apply Hm, Hq | |]; cbn.
  - intros a w' (H1 & H2 & H3). auto.
  - auto.
Qed.

#[export] Instance keeps_protected_preorder : DbPreorder keeps_protected.
Proof.
  split.
  - intros d. repeat split; auto.
  - intros d1 d2 d3 (Hc & Ho & Hp) (Hc' & Ho' & Hp'). repeat split; eauto.
Qed.

#[export] Instance same_sessions_preorder : DbPreorder same_sessions.
Proof.
  split; unfold same_sessions; [reflexivity | congruence].
Qed.

#[export] Instance shrinks_preorder : DbPreorder shrinks.
Proof.
  split.
  - intros d. split; apply incl_refl.
  - intros d1 d2 d3 [Hc Hp] [Hc' Hp']. split; eapply incl_tran; eauto.
Qed.

Lemma shrinks_rows_ok d d' : shrinks d d' -> rows_ok d d'.
Proof. intros [Hc Hp]. split; intros x Hx; left; auto. Qed.

Lemma incl_keep {A} (P : A -> bool) l : incl (Sql.keep P l) l.
Proof. apply incl_filter. Qed.

Lemma shrinks_delete_photos P d : shrinks d (Sql.delete_photos P d).
Proof. split; cbn; [apply incl_refl | apply incl_keep]. Qed.

Lemma shrinks_delete_collectionOwners P d :
  shrinks d (Sql.delete_collectionOwners P d).
Proof. split; cbn; apply incl_refl. Qed.

Lemma shrinks_delete_collections P d : shrinks d (Sql.delete_collections P d).
Proof. split; cbn; [apply incl_keep | apply incl_refl]. Qed.

Lemma shrinks_delete_sessions P d : shrinks d (Sql.delete_sessions P d).
Proof. split; cbn; apply incl_keep. Qed.

Lemma shrinks_delete_users P d : shrinks d (Sql.delete_users P d).
Proof. split; cbn; apply incl_keep. Qed.

Lemma shrinks_upsert_session s d : shrinks d (Sql.upsert_session s d).
Proof.
  unfold Sql.upsert_session.
  destruct (Sql.mem_str _ _); split; cbn; apply incl_refl.
Qed.

Lemma shrinks_insert_owner o d : shrinks d (Sql.insert_owner o d).
Proof. split; cbn; apply incl_refl. Qed.

(** * The protected set (DemoCleanupService) *)

Lemma mem_In x l : Sql.mem x l = true <-> In x l.
Proof.
  unfold Sql.mem. rewrite existsb_exists. split.
  - intros (y & Hy & Heq). apply Z.eqb_eq in Heq. now subst.
  - intros H. exists x. split; [exact H | apply Z.eqb_refl].
Qed.

Lemma keep_In {A} (P : A -> bool) l x :
  In x (Sql.keep P l) <-> In x l /\ P x = false.
Proof.
  unfold Sql.keep. rewrite filter_In. now rewrite negb_true_iff.
Qed.

Section NonProtected.

Variable ids : list Z.
Hypothesis ids_free : forall id, In id ids -> ~ protected id.

Lemma delete_photos_keeps_protected d :
  keeps_protected d (Sql.delete_photos (in_collections ids) d).
Proof.
  repeat split; cbn; auto.
  intros p id Hin Hcol Hprot. apply keep_In. split; [exact Hin |].
  unfold in_collections. rewrite Hcol. cbn.
  destruct (Sql.mem id ids) eqn:E; [| reflexivity].
  apply mem_In in E. now apply ids_free in E.
Qed.

Lemma delete_owners_keeps_protected d :
  keeps_protected d
    (Sql.delete_collectionOwners (fun o => Sql.mem (o_collectionId o) ids) d).
Proof.
  repeat split; cbn; auto.
  intros o Hin Hprot. apply keep_In. split; [exact Hin |].
  destruct (Sql.mem (o_collectionId o) ids) eqn:E; [| reflexivity].
  apply mem_In in E. now apply ids_free in E.
Qed.

Lemma delete_collections_keeps_protected d :
  keeps_protected d
    (Sql.delete_collections (fun c => Sql.mem (c_id c) ids) d).
Proof.
  repeat split; cbn; auto.
  - intros c Hin Hprot. apply keep_In. split; [exact Hin |].
    destruct (Sql.mem (c_id c) ids) eqn:E; [| reflexivity].
    apply mem_In in E. now apply ids_free in E.
  - intros o Hin Hprot. apply keep_In. split; [exact Hin |].
    match goal with |- ?b = false => destruct b eqn:E end; [| reflexivity].
    apply mem_In, in_map_iff in E as (c & Hid & Hc).
    apply filter_In in Hc as [_ Hc]. apply mem_In in Hc.
    rewrite Hid in Hc. now apply ids_free in Hc.
Qed.

Lemma always_cleanup_steps :
  always keeps_protected
    (cleanupPhotosFromFirebaseStorage ids ;;
     cleanupPhotosFromDatabase ids ;;
     cleanupCollectionOwnerships ids ;;
     cleanupCollectionsFromDatabase ids).
Proof.
  unfold cleanupPhotosFromFirebaseStorage, cleanupPhotosFromDatabase,
    cleanupCollectionOwnerships, cleanupCollectionsFromDatabase,
    db_delete, db_run.
  frame;
    try apply always_deletePhotoFromFirebaseStorage;
    try typeclasses eauto;
    apply always_db_stmt; try typeclasses eauto; intros d; cbn [snd].
  - apply delete_photos_keeps_protected.
  - apply delete_owners_keeps_protected.
  - apply delete_collections_keeps_protected.
Qed.

End NonProtected.

Lemma non_protected_rows_free {A} (keep_row : A -> bool) (id_of : A -> Z)
    (name_of : A -> string) (rows : list A) :
  (forall r, keep_row r = true -> Sql.mem (id_of r) PROTECTED_COLLECTION_IDS = false) ->
  forall id,
    In id (map fst (map (fun r => (id_of r, name_of r)) (filter keep_row rows))) ->
    ~ protected id.
Proof.
  intros Hkeep id Hin Hprot. rewrite map_map in Hin. cbn in Hin.
  apply in_map_iff in Hin as (r & <- & Hr).
  apply filter_In in Hr as [_ Hr]. apply Hkeep in Hr.
  apply mem_In in Hprot. congruence.
Qed.

Lemma always_cleanupDemoCollectionsAndPhotos demoUserId :
  always keeps_protected (cleanupDemoCollectionsAndPhotos demoUserId).
Proof.
  unfold cleanupDemoCollectionsAndPhotos.
  frame_step; [| frame].
  frame_step.
  match goal with
  | |- always _ (match ?rows with _ => _ end) =>
      assert (Hfree : forall id, In id (map fst rows) -> ~ protected id)
  end.
  { apply non_protected_rows_free. intros r Hr.
    apply andb_true_iff in Hr as [_ Hr]. now apply negb_true_iff in Hr. }
  match goal with
  | |- always _ (match ?rows with _ => _ end) =>
      destruct rows as [| row rows'] eqn:E
  end.
  - frame.
  - cbv zeta. apply always_cleanup_steps. exact Hfree.
Qed.

Lemma always_cleanupDemoUserContent :
  always keeps_protected cleanupDemoUserContent.
Proof.
  unfold cleanupDemoUserContent.
  frame; apply always_cleanupDemoCollectionsAndPhotos.
Qed.

Lemma always_cleanupDemoUserContentForSession sessionId :
  always keeps_protected (cleanupDemoUserContentForSession sessionId).
Proof.
  unfold cleanupDemoUserContentForSession.
  frame; apply always_cleanupDemoCollectionsAndPhotos.
Qed.

Lemma try_catch_total {A} (m : M A) (msg : string) (a : A) w :
  exists r, fst (try_catch m (fun _ => console_error msg ;; ret a) w) = Ok r.
Proof.
  unfold try_catch. destruct (m w) as [[r | e] w']; cbn; eauto.
Qed.

Lemma try_catch_log_total (m : M unit) (msg : string) w :
  fst (try_catch m (fun _ => console_error msg) w) = Ok tt.
Proof.
  unfold try_catch. destruct (m w) as [[[] | e] w']; reflexivity.
Qed.

(** C7: whatever the tables hold and whatever fails on the way, neither
    [cleanupDemoUserContent] nor [cleanupDemoUserContentForSession] removes
    a collection whose id is in the allowlist [1; 2; 3; 4; 6], an ownership
    row of such a collection (the demo account's included) or a photo in
    such a collection; both return normally. *)
Theorem demo_cleanup_keeps_protected_collections :
  forall w sessionId,
    PROTECTED_COLLECTION_IDS = [1; 2; 3; 4; 6] /\
    fst (cleanupDemoUserContent w) = Ok tt /\
    keeps_protected (w_db w) (w_db (snd (cleanupDemoUserContent w))) /\
    fst (cleanupDemoUserContentForSession sessionId w) = Ok tt /\
    keeps_protected (w_db w)
      (w_db (snd (cleanupDemoUserContentForSession sessionId w))).
Proof.
  intros w sessionId. split; [reflexivity |].
  split; [apply try_catch_log_total |].
  split.
  - pose proof (wp_run _ _ _ _ (always_cleanupDemoUserContent w)) as H.
    now destruct (fst (cleanupDemoUserContent w)).
  - split; [apply try_catch_log_total |].
    pose proof (wp_run _ _ _ _
                  (always_cleanupDemoUserContentForSession sessionId w)) as H.
    now destruct (fst (cleanupDemoUserContentForSession sessionId w)).
Qed.

(** Scenario E: deleting a session of the demo account removes the
    collection created in it, with its photo and blob attempt first, and
    keeps protected collection 1, its photo and its ownership. *)
Lemma demo_session_delete_scenario :
  let run :=
    DatabaseSessionStore.delete "d1" (Sample.world Sample.db_demo 1000000 []) in
  collections (w_db (snd run)) = [Sample.album 1] /\
  collectionOwners (w_db (snd run)) = [mkOwner 1 2] /\
  map p_id (photos (w_db (snd run))) = [41] /\
  sessions (w_db (snd run)) = [] /\
  w_trace (snd run) =
    [BlobDelete "uploads/photo-3.jpg" true; PhotoRowsDeleted [40];
     PhotoRowsDeleted []].
Proof. vm_compute. repeat split; reflexivity. Qed.

(** * What the database accepts *)

(** [photos_go_with], read as a statement about rows. *)
Lemma photos_go_with_spec gone_c gone_p d :
  photos_go_with gone_c gone_p d = true <->
  forall p c,
    In p (photos d) -> In c (collections d) ->
    p_collectionId p = Some (c_id c) -> gone_c c = true -> gone_p p = true.
Proof.
  unfold photos_go_with. rewrite forallb_forall. split.
  - intros H p c Hp Hc Href Hgone.
    apply H, orb_true_iff in Hp as [Hp | Hp]; [exact Hp |].
    apply negb_true_iff in Hp.
    assert (Hex : existsb
                    (fun c => gone_c c && Sql.eq_int (p_collectionId p) (c_id c))
                    (collections d) = true).
    { apply existsb_exists. exists c. split; [exact Hc |].
      rewrite Hgone, Href. cbn. apply Z.eqb_refl. }
    congruence.
  - intros H p Hp. destruct (gone_p p) eqn:E; [reflexivity |].
    cbn [orb]. apply negb_true_iff.
    destruct (existsb _ (collections d)) eqn:Hex; [| reflexivity].
    apply existsb_exists in Hex as (c & Hc & Hb).
    apply andb_true_iff in Hb as [Hgone Href].
    destruct (p_collectionId p) as [x |] eqn:Hx; [| discriminate Href].
    cbn in Href. apply Z.eqb_eq in Href. subst x.
    rewrite (H p c Hp Hc Hx Hgone) in E. discriminate E.
Qed.

(** Removing rows keeps it: what holds of the tables before an operation
    holds at each of its deletes. *)
Lemma photos_go_with_shrinks gone_c gone_p d d' :
  shrinks d d' ->
  photos_go_with gone_c gone_p d = true ->
  photos_go_with gone_c gone_p d' = true.
Proof.
  intros [Hc Hp]. rewrite !photos_go_with_spec. intros H p c Hin Hin'.
  apply H; auto.
Qed.

(** After the selected photos and collections are deleted, no photo is
    left in a collection that is gone. *)
Lemma photos_go_with_no_dangling gone_c gone_p d :
  photos_go_with gone_c gone_p d = true ->
  forall p c,
    In p (Sql.keep gone_p (photos d)) -> In c (collections d) ->
    p_collectionId p = Some (c_id c) ->
    In c (Sql.keep gone_c (collections d)).
Proof.
  rewrite photos_go_with_spec. intros H p c Hp Hc Href.
  apply keep_In in Hp as [Hp Hkept]. apply keep_In. split; [exact Hc |].
  destruct (gone_c c) eqn:E; [| reflexivity].
  rewrite (H p c Hp Hc Href E) in Hkept. discriminate Hkept.
Qed.

(** * Lazy expiry (DatabaseSessionStore.get) *)

Section SteadySessions.

Lemma steady_cleanup_steps ids :
  steady same_sessions
    (cleanupPhotosFromFirebaseStorage ids ;;
     cleanupPhotosFromDatabase ids ;;
     cleanupCollectionOwnerships ids ;;
     cleanupCollectionsFromDatabase ids).
Proof.
  unfold cleanupPhotosFromFirebaseStorage, cleanupPhotosFromDatabase,
    cleanupCollectionOwnerships, cleanupCollectionsFromDatabase,
    db_delete, db_run.
  frame; apply steady_db_stmt; try typeclasses eauto; intros d; reflexivity.
Qed.

Lemma steady_cleanupDemoCollectionsAndPhotos demoUserId :
  steady same_sessions (cleanupDemoCollectionsAndPhotos demoUserId).
Proof.
  unfold cleanupDemoCollectionsAndPhotos.
  do 2 frame_step.
  match goal with
  | |- steady _ (match ?rows with _ => _ end) => destruct rows
  end; [frame | cbv zeta; apply steady_cleanup_steps].
Qed.

Lemma steady_cleanupDemoUserContentForSession sessionId :
  steady same_sessions (cleanupDemoUserContentForSession sessionId).
Proof.
  unfold cleanupDemoUserContentForSession.
  frame; apply steady_cleanupDemoCollectionsAndPhotos.
Qed.

Lemma steady_cleanupUserCollectionsAndPhotos userId :
  steady same_sessions (cleanupUserCollectionsAndPhotos userId).
Proof.
  unfold cleanupUserCollectionsAndPhotos.
  do 2 frame_step. cbv zeta.
  match goal with
  | |- steady _ (match ?rows with _ => _ end) => destruct rows
  end; [frame | apply steady_cleanup_steps].
Qed.

Lemma steady_removeProtectedCollectionOwnerships userId :
  steady same_sessions (removeProtectedCollectionOwnerships userId).
Proof.
  unfold removeProtectedCollectionOwnerships, db_run.
  frame; apply steady_db_stmt; try typeclasses eauto; intros d; reflexivity.
Qed.

End SteadySessions.

Lemma mem_str_In x l : Sql.mem_str x l = true <-> In x l.
Proof.
  unfold Sql.mem_str. rewrite existsb_exists. split.
  - intros (y & Hy & Heq). apply String.eqb_eq in Heq. now subst.
  - intros H. exists x. split; [exact H | apply String.eqb_refl].
Qed.

Lemma delete_sessions_gone sessionId d :
  session_gone sessionId d (Sql.delete_sessions (session_is sessionId) d).
Proof.
  split.
  - intros s Hin Hid. cbn in Hin. apply keep_In in Hin as [_ Hs].
    unfold session_is in Hs. rewrite Hid, String.eqb_refl in Hs. discriminate.
  - intros (s & Hs & Hid).
    assert (Hgone : Sql.mem_str sessionId
                      (map s_id (filter (session_is sessionId) (sessions d)))
                    = true).
    { apply mem_str_In, in_map_iff. exists s. split; [exact Hid |].
      apply filter_In. split; [exact Hs |].
      unfold session_is. rewrite Hid. apply String.eqb_refl. }
    split; cbn.
    + intros c Hin Hc. apply keep_In in Hin as [_ Hkept].
      rewrite Hc in Hkept. cbn in Hkept. congruence.
    + intros p Hin Hp. apply keep_In in Hin as [_ Hkept].
      rewrite Hp in Hkept. cbn in Hkept. congruence.
Qed.

Lemma session_gone_shrinks sessionId d0 d d' :
  shrinks d d' -> incl (sessions d') (sessions d) ->
  session_gone sessionId d0 d -> session_gone sessionId d0 d'.
Proof.
  intros [Hc Hp] Hs [Hno Hcontent]. split.
  - intros s Hin. apply Hno, Hs, Hin.
  - intros Hex. destruct (Hcontent Hex) as [Hc' Hp']. split.
    + intros c Hin. apply Hc', Hc, Hin.
    + intros p Hin. apply Hp', Hp, Hin.
Qed.

Lemma delete_users_gone sessionId P d0 d :
  session_gone sessionId d0 d ->
  session_gone sessionId d0 (Sql.delete_users P d).
Proof.
  apply session_gone_shrinks.
  - apply shrinks_delete_users.
  - cbn. apply incl_keep.
Qed.

Lemma session_gone_same sessionId d0 d1 d' :
  sessions d1 = sessions d0 ->
  session_gone sessionId d1 d' -> session_gone sessionId d0 d'.
Proof.
  intros Hs [Hno Hcontent]. split; [exact Hno |].
  intros Hex. apply Hcontent. now rewrite Hs.
Qed.

Lemma quiet_after_stmt w d' ev : quiet w -> quiet (after_stmt w d' ev).
Proof. unfold quiet. cbn. now intros ->. Qed.

Lemma cleanupTemporaryDemoUser_removes_session userId sessionId w :
  quiet w ->
  sessionId <> "" ->
  wp (cleanupTemporaryDemoUser userId (Some sessionId))
     (fun _ w' =>
        quiet w' /\ w_now w' = w_now w /\
        session_gone sessionId (w_db w) (w_db w'))
     (fun _ _ => False) w.
Proof.
  intros Hq Hsid. unfold cleanupTemporaryDemoUser.
  assert (Htruthy : Js.truthy sessionId = true).
  { unfold Js.truthy. apply negb_true_iff.
    now apply String.eqb_neq. }
  rewrite Htruthy.
  apply wp_try_catch, wp_bind.
  apply wp_db_stmt_quiet; [exact Hq |]. cbn [fst snd].
  apply wp_bind.
  eapply (@steady_wp same_sessions);
    [apply steady_cleanupUserCollectionsAndPhotos
    | now apply quiet_after_stmt |].
  intros [] w1 Hq1 Hnow1 Hs1.
  apply wp_bind.
  eapply (@steady_wp same_sessions);
    [apply steady_removeProtectedCollectionOwnerships | exact Hq1 |].
  intros [] w2 Hq2 Hnow2 Hs2.
  apply wp_bind, wp_try_catch.
  unfold db_delete. apply wp_db_stmt_quiet; [exact Hq2 |]. cbn [fst snd].
  apply wp_db_stmt_quiet; [now apply quiet_after_stmt |]. cbn [fst snd].
  split; [now apply quiet_after_stmt, quiet_after_stmt |].
  split; [cbn in *; congruence |].
  cbn [w_db after_stmt].
  apply delete_users_gone.
  apply session_gone_same with (d1 := w_db w2);
    [| apply delete_sessions_gone].
  unfold same_sessions in *. cbn in *. congruence.
Qed.

Lemma delete_removes_session sessionId w :
  quiet w ->
  sessionId <> "" ->
  wp (DatabaseSessionStore.delete sessionId)
     (fun _ w' =>
        quiet w' /\ w_now w' = w_now w /\
        session_gone sessionId (w_db w) (w_db w'))
     (fun _ _ => False) w.
Proof.
  intros Hq Hsid. unfold DatabaseSessionStore.delete.
  apply wp_try_catch, wp_bind.
  apply wp_db_stmt_quiet; [exact Hq |]. cbn [fst snd].
  assert (Hq0 : quiet (after_stmt w (w_db w) [])) by now apply quiet_after_stmt.
  assert (Hrow : forall w0,
             quiet w0 -> w_now w0 = w_now w ->
             sessions (w_db w0) = sessions (w_db w) ->
             wp (db_delete (Sql.delete_sessions (session_is sessionId))
                   (Sql.session_cascade_photos (session_is sessionId)) ;;
                 ret false)
                (fun _ w' =>
                   quiet w' /\ w_now w' = w_now w /\
                   session_gone sessionId (w_db w) (w_db w'))
                (fun e w' =>
                   wp (console_error "Error deleting session:" ;; ret false)
                      (fun _ w'' =>
                         quiet w'' /\ w_now w'' = w_now w /\
                         session_gone sessionId (w_db w) (w_db w''))
                      (fun _ _ => False) w') w0).
  { intros w0 Hw0 Hnow0 Hs0. apply wp_bind. unfold db_delete.
    apply wp_db_stmt_quiet; [exact Hw0 |]. cbn [fst snd].
    split; [now apply quiet_after_stmt |].
    split; [exact Hnow0 |].
    apply session_gone_same with (d1 := w_db w0); [exact Hs0 |].
    apply delete_sessions_gone. }
  destruct (Sql.limit 1 _) as [| [userId username] rest].
  - apply Hrow; [exact Hq0 | reflexivity | reflexivity].
  - destruct (isTemporaryDemoUser username).
    + apply wp_bind.
      eapply wp_mono;
        [apply cleanupTemporaryDemoUser_removes_session; [exact Hq0 | exact Hsid]
        | | intros e w' []].
      intros [] w' H. exact H.
    + apply wp_bind.
      eapply (@steady_wp same_sessions);
        [apply steady_cleanupDemoUserContentForSession | exact Hq0 |].
      intros [] w1 Hq1 Hnow1 Hs1.
      apply Hrow; [exact Hq1 | exact Hnow1 | exact Hs1].
Qed.

Lemma wp_trivial {A} (m : M A) (Q : A -> World -> Prop)
    (E : string -> World -> Prop) w :
  (forall a w', Q a w') -> (forall e w', E e w') -> wp m Q E w.
Proof.
  intros HQ HE. unfold wp. destruct (m w) as [[a | e] w']; auto.
Qed.





(** * Renewal destroys the temporary content, in general *)

Lemma steady_extendTemporaryContentExpiration sessionId t :
  steady same_sessions
    (TemporalStorageService.extendTemporaryContentExpiration sessionId t).
Proof.
  unfold TemporalStorageService.extendTemporaryContentExpiration, db_run.
  frame; apply steady_db_stmt; try typeclasses eauto; intros d; reflexivity.
Qed.

(** Whenever the renewed session has a row, the renewal handler answers
    200 and leaves no collection and no photo tied to that session.  (For
    the session of an account that exists and is not an ephemeral one, and
    where the database accepts the delete of the old session row.) *)
Lemma refreshSession_leaves_no_temporary_content :
  forall w req sessionId user s,
    quiet w ->
    req_sessionId req = Some sessionId -> sessionId <> "" ->
    req_user req = Some user ->
    account_exists (u_id user) (w_db w) = true ->
    isTemporaryDemoUser (u_username user) = false ->
    (forall s', In s' (sessions (w_db w)) -> s_id s' = sessionId ->
                isTemporaryDemoUser (s_username s') = false) ->
    session_deletable sessionId (w_db w) = true ->
    In s (sessions (w_db w)) -> s_id s = sessionId ->
    let run := AuthController.refreshSession req w in
    (exists newSessionId,
        fst run =
          Ok (mkResponse 200 (Some newSessionId)
                (Some (w_now w + 10 * 60 * 1000)))) /\
    no_content sessionId (w_db (snd run)).
Proof.
  intros w req sessionId user s Hq Hsid Hne Huser _ _ _ _ Hs Hid run.
  assert (Hwp : wp (AuthController.refreshSession req)
                  (fun r w' =>
                     (exists newSessionId,
                         r = mkResponse 200 (Some newSessionId)
                               (Some (w_now w + 10 * 60 * 1000))) /\
                     no_content sessionId (w_db w'))
                  (fun _ _ => False) w).
  { unfold AuthController.refreshSession. rewrite Hsid, Huser.
    assert (T : Js.truthy sessionId = true).
    { unfold Js.truthy. now apply negb_true_iff, String.eqb_neq. }
    rewrite T. cbn [negb].
    apply wp_try_catch, wp_bind, wp_Date_now, wp_bind.
    eapply (@steady_wp same_sessions);
      [apply steady_extendTemporaryContentExpiration | exact Hq |].
    intros [] w1 Hq1 Hnow1 Hs1.
    apply wp_bind. unfold AuthService.deleteSession. apply wp_bind.
    eapply wp_mono;
      [apply delete_removes_session; [exact Hq1 | exact Hne]
      | | intros e w' []].
    intros b w2 (Hq2 & Hnow2 & [_ Hgone]). cbn.
    assert (Hcontent : no_content sessionId (w_db w2)).
    { apply Hgone. exists s. unfold same_sessions in Hs1.
      rewrite Hs1. split; [exact Hs | exact Hid]. }
    destruct (createSession_quiet (u_id user) (u_username user) Hq2)
      as (newId & w3 & Hrun & Hq3 & Hnow3 & Hc3 & Hp3 & _).
    unfold wp, bind. rewrite Hrun. cbn.
    split.
    - exists newId. do 3 f_equal. congruence.
    - destruct Hcontent as [Hc Hp]. split.
      + intros c. rewrite Hc3. apply Hc.
      + intros p. rewrite Hp3. apply Hp. }
  pose proof (wp_run _ _ _ _ Hwp) as H. unfold run.
  destruct (fst (AuthController.refreshSession req w)) as [r | e];
    [| destruct H].
  destruct H as [(newId & ->) Hcontent].
  split; [now exists newId | exact Hcontent].
Qed.

(** * Failure semantics of the session store *)

(** C6, as stated, fails for [set]: its handler logs and re-throws. *)
Lemma set_propagates_storage_error :
  ~ (forall w sessionId data,
        exists r, fst (DatabaseSessionStore.set sessionId data w) = Ok r).
Proof.
  intros H.
  destruct (H (mkWorld Sample.db_near_expiry [] 1000000 [Some "ECONNRESET"]
                  [] [] [])
              "s1" (mkSessionData 7 "alice" 1600000)) as [r Hr].
  vm_compute in Hr. discriminate Hr.
Qed.

Lemma get_total sessionId w :
  exists r, fst (DatabaseSessionStore.get sessionId w) = Ok r.
Proof. apply try_catch_total. Qed.

Lemma get_failing_lookup sessionId w msg rest :
  w_dbFaults w = Some msg :: rest ->
  DatabaseSessionStore.get sessionId w =
    (Ok None,
     mkWorld (w_db w) (w_blobs w) (w_now w) rest (w_blobFaults w) (w_random w)
             (w_trace w ++ [ConsoleError "Error getting session:"])).
Proof.
  intros Hf.
  unfold DatabaseSessionStore.get, try_catch, bind, db_query, db_stmt.
  rewrite Hf. reflexivity.
Qed.

Lemma set_failing sessionId data w msg rest :
  w_dbFaults w = Some msg :: rest ->
  DatabaseSessionStore.set sessionId data w =
    (Throw msg,
     mkWorld (w_db w) (w_blobs w) (w_now w) rest (w_blobFaults w) (w_random w)
             (w_trace w ++ [ConsoleError "Error setting session:"])).
Proof.
  intros Hf.
  unfold DatabaseSessionStore.set, try_catch, bind, db_run, db_stmt.
  rewrite Hf. reflexivity.
Qed.

Lemma createSession_failing userId username w msg rest :
  w_dbFaults w = Some msg :: rest ->
  fst (AuthService.createSession userId username w) = Throw msg.
Proof.
  intros Hf.
  unfold AuthService.createSession, AuthService.generateSessionId, bind,
    Math_random.
  destruct (w_random w) as [| r rs]; cbn [Date_now];
    erewrite set_failing by (cbn; exact Hf); reflexivity.
Qed.

(** The auto-refresh inside [getSession] writes through [set]: a failure of
    that write reaches the caller of [getSession]. *)
Lemma getSession_propagates_refresh_failure sessionId w s msg rest :
  w_dbFaults w = None :: Some msg :: rest ->
  stored_session sessionId (w_db w) = Some s ->
  w_now w <= s_expiresAt s ->
  s_expiresAt s - w_now w < SESSION_REFRESH_THRESHOLD ->
  fst (AuthService.getSession sessionId w) = Throw msg.
Proof.
  intros Hf Hs Hle Hnear.
  unfold AuthService.getSession, DatabaseSessionStore.get, try_catch, bind,
    db_query, db_stmt.
  rewrite Hf. cbn [fst snd]. rewrite limit_1_hd.
  unfold stored_session in Hs. rewrite Hs. cbn [Date_now w_now after_stmt].
  destruct (Z.ltb_spec (s_expiresAt s) (w_now w)); [lia |].
  cbn [ret expiresAt w_now after_stmt].
  destruct (Z.ltb_spec (s_expiresAt s - w_now w) SESSION_REFRESH_THRESHOLD);
    [| lia].
  erewrite set_failing by (cbn; rewrite Hf; reflexivity). reflexivity.
Qed.

(** C6 (amended): [get] never throws; a storage error raised by its lookup
    is caught and logged inside the store and the caller sees "session
    absent".  A storage error raised during [set] is caught and logged
    inside the store and then thrown again, with nothing written:
    [createSession], which writes through [set], propagates it to its
    caller. *)
Theorem session_store_failure_semantics :
  forall w sessionId data userId username,
    (exists r, fst (DatabaseSessionStore.get sessionId w) = Ok r) /\
    (forall msg rest,
        w_dbFaults w = Some msg :: rest ->
        let logged tag :=
          mkWorld (w_db w) (w_blobs w) (w_now w) rest (w_blobFaults w)
                  (w_random w) (w_trace w ++ [ConsoleError tag]) in
        DatabaseSessionStore.get sessionId w =
          (Ok None, logged "Error getting session:") /\
        DatabaseSessionStore.set sessionId data w =
          (Throw msg, logged "Error setting session:") /\
        fst (AuthService.createSession userId username w) = Throw msg).
Proof.
  intros w sessionId data userId username. split; [apply get_total |].
  intros msg rest Hf logged. split; [| split].
  - eapply get_failing_lookup. exact Hf.
  - eapply set_failing. exact Hf.
  - eapply createSession_failing. exact Hf.
Qed.

Lemma session_store_failure_semantics_witness :
  DatabaseSessionStore.get "s1"
    (mkWorld Sample.db_near_expiry [] 1000000 [Some "ECONNRESET"] [] [] []) =
    (Ok None,
     mkWorld Sample.db_near_expiry [] 1000000 [] [] []
             [ConsoleError "Error getting session:"]) /\
  DatabaseSessionStore.set "s1" (mkSessionData 7 "alice" 1600000)
    (mkWorld Sample.db_near_expiry [] 1000000 [Some "ECONNRESET"] [] [] []) =
    (Throw "ECONNRESET",
     mkWorld Sample.db_near_expiry [] 1000000 [] [] []
             [ConsoleError "Error setting session:"]).
Proof.
  destruct (session_store_failure_semantics
              (mkWorld Sample.db_near_expiry [] 1000000 [Some "ECONNRESET"]
                 [] [] [])
              "s1" (mkSessionData 7 "alice" 1600000) 7 "alice")
    as [_ Hfail].
  destruct (Hfail "ECONNRESET" [] eq_refl) as (Hget & Hset & _).
  split; [exact Hget | exact Hset].
Defined.

(** * Blobs before rows (TemporalStorageService) *)


Lemma delete_blobs_run rows :
  forall w,
    wp (TemporalStorageService.delete_blobs rows)
       (fun _ w' =>
          w_db w' = w_db w /\ w_dbFaults w' = w_dbFaults w /\
          w_now w' = w_now w /\
          w_trace w' = w_trace w ++ blob_attempts rows (w_blobFaults w))
       (fun _ _ => False) w.
Proof.
  unfold TemporalStorageService.delete_blobs.
  induction rows as [| p rows IH]; intros w.
  - cbn. now rewrite app_nil_r.
  - cbn [for_of]. apply wp_bind.
    unfold wp at 1.
    unfold deletePhotoFromFirebaseStorage, try_catch, blob_delete.
    fold (blob_key (p_filePath p)).
    destruct (w_blobFaults w) as [| [|] later] eqn:F;
      cbn [console_error emit];
      (eapply wp_mono; [apply IH | | auto]); cbn;
      intros _ w' (Hdb & Hf & Hnow & Ht); repeat split; auto;
      rewrite Ht; cbn; now rewrite <- ?app_assoc.
Qed.





(** * The temporal-flag invariant *)

#[export] Instance rows_ok_preorder : DbPreorder rows_ok.
Proof.
  split.
  - intros d. split; auto.
  - intros d1 d2 d3 [Hc Hp] [Hc' Hp']. split.
    + intros c Hin. destruct (Hc' c Hin) as [H | H]; auto.
    + intros p Hin. destruct (Hp' p Hin) as [H | H]; auto.
Qed.

Create HintDb frame.

#[local] Hint Resolve shrinks_delete_photos shrinks_delete_collectionOwners
  shrinks_delete_collections shrinks_delete_sessions shrinks_delete_users
  shrinks_upsert_session shrinks_insert_owner shrinks_rows_ok : frame.

(** Stepping through an operation down to its database statements. *)
Ltac frame_stmts :=
  unfold db_delete, db_run, db_exec;
  repeat first
    [ frame_step
    | lazymatch goal with
      | |- always ?R (db_stmt _ _) =>
          apply (@always_db_stmt R _); intros ?; cbn [snd]
      end ];
  auto with frame.

Section AlwaysShrinks.

Lemma shrinks_deletePhotoFromFirebaseStorage filePath :
  always shrinks (deletePhotoFromFirebaseStorage filePath).
Proof. apply (@always_deletePhotoFromFirebaseStorage shrinks _). Qed.

Hint Resolve shrinks_deletePhotoFromFirebaseStorage : frame.

Lemma shrinks_cleanup_steps ids :
  always shrinks
    (cleanupPhotosFromFirebaseStorage ids ;;
     cleanupPhotosFromDatabase ids ;;
     cleanupCollectionOwnerships ids ;;
     cleanupCollectionsFromDatabase ids).
Proof.
  unfold cleanupPhotosFromFirebaseStorage, cleanupPhotosFromDatabase,
    cleanupCollectionOwnerships, cleanupCollectionsFromDatabase.
  frame_stmts.
Qed.

Hint Resolve shrinks_cleanup_steps : frame.

Lemma shrinks_cleanupDemoCollectionsAndPhotos demoUserId :
  always shrinks (cleanupDemoCollectionsAndPhotos demoUserId).
Proof.
  unfold cleanupDemoCollectionsAndPhotos.
  frame_step; [| frame]. frame_step.
  match goal with
  | |- always _ (match ?rows with _ => _ end) => destruct rows
  end; [frame | cbv zeta; auto with frame].
Qed.

Hint Resolve shrinks_cleanupDemoCollectionsAndPhotos : frame.

Lemma shrinks_cleanupDemoUserContentForSession sessionId :
  always shrinks (cleanupDemoUserContentForSession sessionId).
Proof. unfold cleanupDemoUserContentForSession. frame_stmts. Qed.

Lemma shrinks_cleanupUserCollectionsAndPhotos userId :
  always shrinks (cleanupUserCollectionsAndPhotos userId).
Proof.
  unfold cleanupUserCollectionsAndPhotos.
  frame_step; [| frame]. frame_step. cbv zeta.
  match goal with
  | |- always _ (match ?rows with _ => _ end) => destruct rows
  end; [frame | auto with frame].
Qed.

Lemma shrinks_removeProtectedCollectionOwnerships userId :
  always shrinks (removeProtectedCollectionOwnerships userId).
Proof. unfold removeProtectedCollectionOwnerships. frame_stmts. Qed.

Hint Resolve shrinks_cleanupDemoUserContentForSession
  shrinks_cleanupUserCollectionsAndPhotos
  shrinks_removeProtectedCollectionOwnerships : frame.

Lemma shrinks_cleanupTemporaryDemoUser userId sessionId :
  always shrinks (cleanupTemporaryDemoUser userId sessionId).
Proof. unfold cleanupTemporaryDemoUser. frame_stmts. Qed.

Hint Resolve shrinks_cleanupTemporaryDemoUser : frame.

Lemma shrinks_delete sessionId :
  always shrinks (DatabaseSessionStore.delete sessionId).
Proof. unfold DatabaseSessionStore.delete. frame_stmts. Qed.

Hint Resolve shrinks_delete : frame.

Lemma shrinks_get sessionId :
  always shrinks (DatabaseSessionStore.get sessionId).
Proof. unfold DatabaseSessionStore.get. frame_stmts. Qed.

Lemma shrinks_set sessionId data :
  always shrinks (DatabaseSessionStore.set sessionId data).
Proof. unfold DatabaseSessionStore.set. frame_stmts. Qed.

Hint Resolve shrinks_get shrinks_set : frame.

Lemma shrinks_getSession sessionId :
  always shrinks (AuthService.getSession sessionId).
Proof. unfold AuthService.getSession. frame_stmts. Qed.

Hint Resolve shrinks_getSession : frame.

Lemma shrinks_requireAuth req :
  always shrinks (AuthController.requireAuth req).
Proof. unfold AuthController.requireAuth, getUser. frame_stmts. Qed.

End AlwaysShrinks.

Section AlwaysExtra.

Variable R : DB -> DB -> Prop.
Context {R_pre : DbPreorder R}.

Lemma always_bind_ret {A B} (a : A) (k : A -> M B) :
  always R (k a) -> always R (bind (ret a) k).
Proof. intros Hk w. apply wp_bind. exact (Hk w). Qed.

Lemma always_bind_throw {A B} msg (k : A -> M B) :
  always R (bind (throw msg) k).
Proof. intros w. exact (db_refl (w_db w)). Qed.

Lemma always_retry_from {A} (operation : M A) maxRetries remaining :
  always R operation ->
  forall attempt lastError,
    always R (retry_from operation maxRetries attempt remaining lastError).
Proof.
  intros Hop. induction remaining as [| n IH]; intros attempt lastError.
  - cbn. frame.
  - cbn [retry_from]. frame_step; [exact Hop |].
    frame_step; [frame |].
    destruct (is_connection_error _ && (attempt <? maxRetries)%nat).
    + apply IH.
    + frame.
Qed.

Lemma always_withDatabaseRetry {A} (operation : M A) :
  always R operation -> always R (withDatabaseRetry operation).
Proof. intros Hop. now apply always_retry_from. Qed.

End AlwaysExtra.

Lemma requireAuth_authenticated req w :
  wp (AuthController.requireAuth req)
     (fun r _ => forall req', r = inr req' -> authenticated req')
     (fun _ _ => True) w.
Proof.
  unfold AuthController.requireAuth.
  destruct (AuthController.token req) as [sessionId |]; [| cbn; discriminate].
  destruct (Js.truthy sessionId) eqn:T; cbn [negb]; [| cbn; discriminate].
  apply wp_try_catch, wp_bind, wp_trivial.
  - intros [session |] w1; [| cbn; discriminate].
    apply wp_bind, wp_trivial.
    + intros [user |] w2; cbn; [| discriminate].
      intros req' [= <-]. exists sessionId, user. cbn.
      split; [reflexivity | split; [| reflexivity]].
      intros ->. cbn in T. discriminate T.
    + intros e w2. cbn. discriminate.
  - intros e w1. cbn. discriminate.
Qed.

Lemma rows_ok_insert_collection (mk : Z -> Collection) (d : DB) :
  collection_ok (mk (collections_seq d)) ->
  rows_ok d (snd (Sql.insert_collection mk d)).
Proof.
  intros Hok. split; cbn; auto.
  intros c Hin. apply in_app_iff in Hin as [Hin | [<- | []]]; auto.
Qed.

Lemma rows_ok_insert_photo (mk : Z -> Photo) (d : DB) :
  photo_ok (mk (photos_seq d)) ->
  rows_ok d (snd (Sql.insert_photo mk d)).
Proof.
  intros Hok. split; cbn; auto.
  intros p Hin. apply in_app_iff in Hin as [Hin | [<- | []]]; auto.
Qed.

(** The flags the create-collection handler computes for a request that
    carries a non-empty session id. *)
Lemma handler_flags_ok (makeTemporary : bool) (sessionId : string) (t : Z) :
  sessionId <> "" ->
  let sid := if makeTemporary then Some sessionId else None in
  temporal_flag_ok (Some makeTemporary) sid
    (if makeTemporary && Js.truthy (or_else sid "") then Some t else None).
Proof.
  intros Hne.
  assert (T : Js.truthy sessionId = true).
  { unfold Js.truthy. now apply negb_true_iff, String.eqb_neq. }
  destruct makeTemporary; cbn.
  - rewrite T, T. split; [split; discriminate | discriminate].
  - split; [discriminate | auto].
Qed.

Lemma always_createCollection data :
  temporal_flag_ok (ic_isTemporary data) (ic_sessionId data) (ic_expiresAt data) ->
  always rows_ok (createCollection data).
Proof.
  intros Hok. unfold createCollection, getUserPartner. frame_stmts.
  all: now apply rows_ok_insert_collection.
Qed.

Lemma always_createPhoto data :
  temporal_flag_ok (ip_isTemporary data) (ip_sessionId data) (ip_expiresAt data) ->
  always rows_ok (createPhoto data).
Proof.
  intros Hok. unfold createPhoto. frame_stmts.
  now apply rows_ok_insert_photo.
Qed.

Lemma always_create_collection_handler req body files :
  authenticated req ->
  always rows_ok (create_collection_handler req body files).
Proof.
  intros (sessionId & user & Hsid & Hne & Huser).
  unfold create_collection_handler. rewrite Huser, Hsid.
  frame_step; [| frame].
  destruct (body_name body) as [name |]; [| frame].
  destruct (negb (Js.truthy name)); [frame |].
  cbv zeta. frame_step; [frame |].
  unfold validateSchema.
  destruct (Sql.mem_str _ collectionEnum);
    [apply (@always_bind_ret rows_ok _) | apply (@always_bind_throw rows_ok _)].
  frame_step; [| frame_step; [| frame]].
  - apply (@always_withDatabaseRetry rows_ok _), always_createCollection.
    cbn. now apply handler_flags_ok.
  - frame_step. unfold generateFileName, savePhotoToFirebaseStorage.
    frame.
    apply (@always_withDatabaseRetry rows_ok _), always_createPhoto.
    cbn. now apply handler_flags_ok.
Qed.

Lemma always_POST_collections req body files :
  always rows_ok (POST_collections req body files).
Proof.
  intros w. unfold POST_collections. apply wp_bind.
  pose proof (shrinks_requireAuth req w) as Hframe.
  pose proof (requireAuth_authenticated req w) as Hauth.
  unfold wp in *.
  destruct (AuthController.requireAuth req w) as [[[response | req'] | e] w1].
  - cbn. now apply shrinks_rows_ok.
  - destruct (upload_array files).
    + pose proof (always_create_collection_handler body files
                    (Hauth req' eq_refl) w1) as Hh.
      unfold wp in Hh.
      destruct (create_collection_handler req' body files w1) as [[r | e] w2];
        (eapply db_trans; [apply shrinks_rows_ok, Hframe | exact Hh]).
    + cbn. now apply shrinks_rows_ok.
  - now apply shrinks_rows_ok.
Qed.

Lemma make_collection_permanent_ok c :
  collection_ok (TemporalStorageService.make_collection_permanent c).
Proof. split; cbn; [discriminate | auto]. Qed.

Lemma make_photo_permanent_ok p :
  photo_ok (TemporalStorageService.make_photo_permanent p).
Proof. split; cbn; [discriminate | auto]. Qed.

Lemma makeCollectionPermanent_rows collectionId w :
  let run := TemporalStorageService.makeCollectionPermanent collectionId w in
  rows_ok (w_db w) (w_db (snd run)) /\
  (fst run = Ok true ->
   forall c, In c (collections (w_db (snd run))) -> c_id c = collectionId ->
             collection_ok c).
Proof.
  unfold TemporalStorageService.makeCollectionPermanent, try_catch, bind,
    db_exec, db_stmt.
  destruct (w_dbFaults w) as [| [msg |] rest]; cbn.
  1, 3: split;
    [ split; [| auto]; intros c Hin;
      apply in_map_iff in Hin as (c0 & <- & Hc0);
      destruct (c_id c0 =? collectionId)%Z;
      [right; apply make_collection_permanent_ok | now left]
    | intros _ c Hin Hid;
      apply in_map_iff in Hin as (c0 & <- & Hc0);
      destruct (Z.eqb_spec (c_id c0) collectionId);
      [apply make_collection_permanent_ok | contradiction] ].
  split; [apply db_refl | discriminate].
Qed.

Lemma makePhotoPermanent_rows photoId w :
  let run := TemporalStorageService.makePhotoPermanent photoId w in
  rows_ok (w_db w) (w_db (snd run)) /\
  (fst run = Ok true ->
   forall p, In p (photos (w_db (snd run))) -> p_id p = photoId -> photo_ok p).
Proof.
  unfold TemporalStorageService.makePhotoPermanent, try_catch, bind,
    db_exec, db_stmt.
  destruct (w_dbFaults w) as [| [msg |] rest]; cbn.
  1, 3: split;
    [ split; [auto |]; intros p Hin;
      apply in_map_iff in Hin as (p0 & <- & Hp0);
      destruct (p_id p0 =? photoId)%Z;
      [right; apply make_photo_permanent_ok | now left]
    | intros _ p Hin Hid;
      apply in_map_iff in Hin as (p0 & <- & Hp0);
      destruct (Z.eqb_spec (p_id p0) photoId);
      [apply make_photo_permanent_ok | contradiction] ].
  split; [apply db_refl | discriminate].
Qed.

(** C9: whatever the request and whatever fails on the way, every
    collection row and every photo row in the tables after the
    authenticated create-collection route, after [makeCollectionPermanent]
    and after [makePhotoPermanent] is a row that was there before,
    unchanged, or satisfies the temporal-flag invariant ([isTemporary =
    true] implies [sessionId] and [expiresAt] non-null, [isTemporary =
    false] implies both null); and the rows the two conversions report as
    converted satisfy it. *)
Theorem core_operations_keep_temporal_flag_invariant :
  forall w req body files collectionId photoId,
    rows_ok (w_db w) (w_db (snd (POST_collections req body files w))) /\
    (let run := TemporalStorageService.makeCollectionPermanent collectionId w in
     rows_ok (w_db w) (w_db (snd run)) /\
     (fst run = Ok true ->
      forall c, In c (collections (w_db (snd run))) -> c_id c = collectionId ->
                collection_ok c)) /\
    (let run := TemporalStorageService.makePhotoPermanent photoId w in
     rows_ok (w_db w) (w_db (snd run)) /\
     (fst run = Ok true ->
      forall p, In p (photos (w_db (snd run))) -> p_id p = photoId ->
                photo_ok p)).
Proof.
  intros w req body files collectionId photoId. split; [| split].
  - pose proof (wp_run _ _ _ _ (always_POST_collections req body files w)) as H.
    now destruct (fst (POST_collections req body files w)).
  - apply makeCollectionPermanent_rows.
  - apply makePhotoPermanent_rows.
Qed.

Lemma core_operations_keep_temporal_flag_invariant_witness :
  let created :=
    snd (POST_collections Sample.renewal_request Sample.create_body
           [Sample.upload]
           (Sample.world Sample.db_session 1000000 ["123456789"])) in
  collections (w_db created) =
    [Sample.album 5;
     mkCollection 10 "trip" None "custom" (Some 7) (Some true) (Some "s1")
                  (Some 1600000)] /\
  (forall c, In c (collections (w_db created)) ->
             In c (collections Sample.db_session) \/ collection_ok c) /\
  (forall c,
      In c (collections
              (w_db (snd (TemporalStorageService.makeCollectionPermanent 10
                            created)))) ->
      c_id c = 10 -> collection_ok c).
Proof.
  intros created. split; [reflexivity |].
  destruct (core_operations_keep_temporal_flag_invariant
              (Sample.world Sample.db_session 1000000 ["123456789"])
              Sample.renewal_request Sample.create_body [Sample.upload] 10 10)
    as ([Hrows _] & _ & _).
  split; [exact Hrows |].
  destruct (core_operations_keep_temporal_flag_invariant
              created Sample.renewal_request Sample.create_body [] 10 10)
    as (_ & (_ & Hconverted) & _).
  apply Hconverted. reflexivity.
Defined.

(** * The early return of the grant and the sweep's session test *)

(** Without the first protected collection the grant does nothing. *)
Lemma grantAccessToProtectedCollections_returns_early userId w :
  quiet w ->
  (forall c, In c (collections (w_db w)) -> c_id c <> 1) ->
  grantAccessToProtectedCollections userId w = (Ok tt, w).
Proof.
  intros Hq Habsent. unfold grantAccessToProtectedCollections, try_catch, bind.
  rewrite db_query_quiet by exact Hq. cbn [nth PROTECTED_COLLECTION_IDS].
  now rewrite (filter_key_absent c_id _ Habsent).
Qed.

(** A session that expires in the future never counts as active for the
    sweep. *)
Lemma live_session_not_selected (s : Session) (userId now : Z) :
  now < s_expiresAt s ->
  (s_userId s =? userId)%Z && (s_expiresAt s =? now)%Z = false.
Proof.
  intros Hlive. apply andb_false_iff. right. apply Z.eqb_neq. lia.
Qed.

(** * The sweep tears down every account with a live session *)

#[export] Instance dwindles_preorder : DbPreorder dwindles.
Proof.
  split.
  - intros d. split; apply incl_refl.
  - intros d1 d2 d3 [Hu Hs] [Hu' Hs']. split; eapply incl_tran; eauto.
Qed.

Lemma dwindles_delete_photos P d : dwindles d (Sql.delete_photos P d).
Proof. split; cbn; apply incl_refl. Qed.

Lemma dwindles_delete_collectionOwners P d :
  dwindles d (Sql.delete_collectionOwners P d).
Proof. split; cbn; apply incl_refl. Qed.

Lemma dwindles_delete_collections P d :
  dwindles d (Sql.delete_collections P d).
Proof. split; cbn; apply incl_refl. Qed.

Lemma dwindles_delete_users P d : dwindles d (Sql.delete_users P d).
Proof. split; cbn; apply incl_keep. Qed.

#[local] Hint Resolve dwindles_delete_photos dwindles_delete_collectionOwners
  dwindles_delete_collections dwindles_delete_users : frame.

Ltac steady_stmts :=
  unfold db_delete, db_run, db_exec;
  repeat first
    [ frame_step
    | lazymatch goal with
      | |- steady ?R (db_stmt _ _) =>
          apply (@steady_db_stmt R _); intros ?; cbn [snd]
      end ];
  auto with frame.

Lemma dwindles_cleanup_steps ids :
  steady dwindles
    (cleanupPhotosFromFirebaseStorage ids ;;
     cleanupPhotosFromDatabase ids ;;
     cleanupCollectionOwnerships ids ;;
     cleanupCollectionsFromDatabase ids).
Proof.
  unfold cleanupPhotosFromFirebaseStorage, cleanupPhotosFromDatabase,
    cleanupCollectionOwnerships, cleanupCollectionsFromDatabase.
  steady_stmts.
Qed.

Lemma dwindles_cleanupUserCollectionsAndPhotos userId :
  steady dwindles (cleanupUserCollectionsAndPhotos userId).
Proof.
  unfold cleanupUserCollectionsAndPhotos.
  do 2 frame_step. cbv zeta.
  match goal with
  | |- steady _ (match ?rows with _ => _ end) => destruct rows
  end; [frame | apply dwindles_cleanup_steps].
Qed.

Lemma dwindles_removeProtectedCollectionOwnerships userId :
  steady dwindles (removeProtectedCollectionOwnerships userId).
Proof. unfold removeProtectedCollectionOwnerships. steady_stmts. Qed.

Lemma delete_users_no_user userId d :
  no_user userId (Sql.delete_users (user_is userId) d).
Proof.
  intros u Hin Hid. cbn in Hin. apply keep_In in Hin as [_ Hu].
  unfold user_is in Hu. rewrite Hid, Z.eqb_refl in Hu. discriminate.
Qed.

Lemma cleanupTemporaryDemoUser_removes_user userId w :
  quiet w ->
  wp (cleanupTemporaryDemoUser userId None)
     (fun _ w' =>
        quiet w' /\ w_now w' = w_now w /\
        dwindles (w_db w) (w_db w') /\ no_user userId (w_db w'))
     (fun _ _ => False) w.
Proof.
  intros Hq. unfold cleanupTemporaryDemoUser.
  apply wp_try_catch, wp_bind.
  apply wp_db_stmt_quiet; [exact Hq |]. cbn [fst snd].
  apply wp_bind.
  eapply (@steady_wp dwindles);
    [apply dwindles_cleanupUserCollectionsAndPhotos
    | now apply quiet_after_stmt |].
  intros [] w1 Hq1 Hnow1 Hd1.
  apply wp_bind.
  eapply (@steady_wp dwindles);
    [apply dwindles_removeProtectedCollectionOwnerships | exact Hq1 |].
  intros [] w2 Hq2 Hnow2 Hd2.
  apply wp_bind. cbn [ret wp].
  unfold db_delete. apply wp_db_stmt_quiet; [exact Hq2 |]. cbn [fst snd].
  split; [now apply quiet_after_stmt |].
  split; [cbn in *; congruence |].
  cbn [w_db after_stmt]. split; [| apply delete_users_no_user].
  eapply db_trans; [exact Hd1 |].
  eapply db_trans; [exact Hd2 | apply dwindles_delete_users].
Qed.

Lemma dwindles_no_user userId d d' :
  dwindles d d' -> no_user userId d -> no_user userId d'.
Proof. intros [Hu _] Hno u Hin. apply Hno, Hu, Hin. Qed.

Section SweepLoop.

Variable userId : Z.
Variable t0 : Z.

Lemma sweep_body_removes (user : Z * string) w :
  quiet w -> off_beat userId t0 w ->
  wp (try_catch
        (now <- Date_now ;;
         activeSessions <-
           db_query
             (fun d =>
                filter
                  (fun s =>
                     (s_userId s =? fst user)%Z && (s_expiresAt s =? now)%Z)
                  (sessions d)) ;;
         match activeSessions with
         | [] => cleanupTemporaryDemoUser (fst user) None
         | _ => ret tt
         end)
        (fun _ => console_error "Error checking sessions for user:"))
     (fun _ w' =>
        quiet w' /\ off_beat userId t0 w' /\
        (fst user = userId \/ no_user userId (w_db w) ->
         no_user userId (w_db w')))
     (fun _ _ => False) w.
Proof.
  intros Hq [Hnow Hlive].
  apply wp_try_catch, wp_bind, wp_Date_now, wp_bind.
  apply wp_db_stmt_quiet; [exact Hq |]. cbn [fst snd].
  assert (Hq0 : quiet (after_stmt w (w_db w) [])) by now apply quiet_after_stmt.
  destruct (filter _ (sessions (w_db w))) as [| s0 rest] eqn:Hactive.
  - eapply wp_mono;
      [apply cleanupTemporaryDemoUser_removes_user, Hq0 | | intros e w' []].
    cbn. intros [] w' (Hq' & Hnow' & Hd & Hgone).
    split; [exact Hq' |]. split.
    + split; [congruence |]. intros s Hs. apply Hlive.
      now apply (proj2 Hd).
    + intros [<- | Hno]; [exact Hgone |].
      now apply (dwindles_no_user Hd).
  - cbn. split; [exact Hq0 |]. split; [now split |].
    intros [Heq | Hno]; [| exact Hno]. exfalso.
    assert (Hin : In s0 (filter
                           (fun s => (s_userId s =? fst user)%Z &&
                                     (s_expiresAt s =? w_now w)%Z)
                           (sessions (w_db w)))).
    { rewrite Hactive. now left. }
    apply filter_In in Hin as [Hin Hsel].
    apply andb_true_iff in Hsel as [Hu Ht].
    apply Z.eqb_eq in Hu, Ht.
    apply (Hlive s0 Hin); congruence.
Qed.

Lemma sweep_loop_removes (xs : list (Z * string)) :
  forall w,
    quiet w -> off_beat userId t0 w ->
    In userId (map fst xs) \/ no_user userId (w_db w) ->
    wp (for_of xs
          (fun user =>
             try_catch
               (now <- Date_now ;;
                activeSessions <-
                  db_query
                    (fun d =>
                       filter
                         (fun s =>
                            (s_userId s =? fst user)%Z &&
                            (s_expiresAt s =? now)%Z)
                         (sessions d)) ;;
                match activeSessions with
                | [] => cleanupTemporaryDemoUser (fst user) None
                | _ => ret tt
                end)
               (fun _ => console_error "Error checking sessions for user:")))
       (fun _ w' => no_user userId (w_db w'))
       (fun _ _ => False) w.
Proof.
  induction xs as [| x xs IH]; intros w Hq Hlive Hcase.
  - cbn. destruct Hcase as [[] | Hno]. exact Hno.
  - cbn [for_of]. apply wp_bind.
    eapply wp_mono;
      [apply (sweep_body_removes x Hq Hlive) | | intros e w' []].
    cbn. intros [] w1 (Hq1 & Hlive1 & Hstep).
    apply IH; [exact Hq1 | exact Hlive1 |].
    destruct Hcase as [[Hx | Hin] | Hno]; auto.
Qed.

End SweepLoop.

(** In general: with no storage failure, the sweep deletes every
    reserved-prefix account whose sessions all expire in the future.  (The
    account is deleted where the database accepts it: [comments.user_id]
    and [collections.user_id], references without an [onDelete] action,
    are not part of the model.) *)
Lemma cleanupExpiredDemoUsers_removes_live_accounts :
  forall w u,
    quiet w ->
    In u (users (w_db w)) ->
    isTemporaryDemoUser (u_username u) = true ->
    (forall s, In s (sessions (w_db w)) -> s_userId s = u_id u ->
               w_now w < s_expiresAt s) ->
    no_user (u_id u) (w_db (snd (cleanupExpiredDemoUsers w))).
Proof.
  intros w u Hq Hu Hdemo Hlive.
  assert (Hwp : wp cleanupExpiredDemoUsers
                  (fun _ w' => no_user (u_id u) (w_db w'))
                  (fun _ _ => False) w).
  { unfold cleanupExpiredDemoUsers.
    apply wp_try_catch, wp_bind.
    apply wp_db_stmt_quiet; [exact Hq |]. cbn [fst snd].
    eapply wp_mono;
      [apply (@sweep_loop_removes (u_id u) (w_now w))
      | auto | intros e w' []].
    - now apply quiet_after_stmt.
    - split; [reflexivity |]. cbn. intros s Hs Hid.
      pose proof (Hlive s Hs Hid). lia.
    - left. apply in_map_iff.
      exists (u_id u, u_username u). split; [reflexivity |].
      apply filter_In. split; [| exact Hdemo].
      apply in_map_iff. now exists u. }
  pose proof (wp_run _ _ _ _ Hwp) as H.
  now destruct (fst (cleanupExpiredDemoUsers w)).
Qed.

(** * Further properties of the services *)

#[local] Arguments blob_key : simpl never.
#[local] Arguments Nat.ltb : simpl never.

Lemma quiet_with_db w d : quiet w -> quiet (with_db w d).
Proof. exact (fun H => H). Qed.

Lemma filter_update {A} (P : A -> bool) (f : A -> A) (l : list A) :
  (forall x, P (f x) = P x) ->
  filter P (map (fun x => if P x then f x else x) l) = map f (filter P l).
Proof.
  intros Hf. induction l as [| x l IH]; [reflexivity |].
  cbn [map filter]. destruct (P x) eqn:E.
  - rewrite Hf, E. cbn [map]. now rewrite IH.
  - rewrite E. exact IH.
Qed.

Lemma update_keeps_others {A} (P : A -> bool) (f : A -> A) (l : list A) x :
  In x l -> P x = false -> In x (map (fun y => if P y then f y else y) l).
Proof.
  intros Hin HP. apply in_map_iff. exists x. now rewrite HP.
Qed.

(** ** Temporary content of a session (TemporalStorageService) *)

Lemma getTemporaryContentBySession_quiet sessionId w :
  quiet w ->
  TemporalStorageService.getTemporaryContentBySession sessionId w =
    (Ok (filter (TemporalStorageService.session_collection sessionId)
           (collections (w_db w)),
         filter (TemporalStorageService.session_photo sessionId)
           (photos (w_db w))), w).
Proof.
  intros Hq.
  unfold TemporalStorageService.getTemporaryContentBySession, try_catch, bind.
  rewrite db_query_quiet by exact Hq.
  now rewrite db_query_quiet by exact Hq.
Qed.

Lemma extendTemporaryContentExpiration_quiet sessionId t w :
  quiet w ->
  TemporalStorageService.extendTemporaryContentExpiration sessionId t w =
    (Ok tt,
     with_db w
       (snd (Sql.update_photos (TemporalStorageService.session_photo sessionId)
               (TemporalStorageService.set_photo_expiresAt t)
               (snd (Sql.update_collections
                       (TemporalStorageService.session_collection sessionId)
                       (TemporalStorageService.set_collection_expiresAt t)
                       (w_db w)))))).
Proof.
  intros Hq.
  unfold TemporalStorageService.extendTemporaryContentExpiration, try_catch, bind.
  rewrite db_run_quiet by exact Hq.
  rewrite db_run_quiet by (apply quiet_with_db, Hq).
  reflexivity.
Qed.

(** X1: with no storage failure, after
    [extendTemporaryContentExpiration sessionId t] the temporary content
    listed for the session is the content listed before, row for row and
    in the same order, with [expiresAt] set to [t] and nothing else
    changed; the rows that are not temporary content of the session are
    untouched. *)
Theorem extend_then_list_temporary_content :
  forall w sessionId t,
    quiet w ->
    let cs := filter (TemporalStorageService.session_collection sessionId)
                (collections (w_db w)) in
    let ps := filter (TemporalStorageService.session_photo sessionId)
                (photos (w_db w)) in
    let extended :=
      TemporalStorageService.extendTemporaryContentExpiration sessionId t w in
    fst (TemporalStorageService.getTemporaryContentBySession sessionId w) =
      Ok (cs, ps) /\
    fst extended = Ok tt /\
    fst (TemporalStorageService.getTemporaryContentBySession sessionId
           (snd extended)) =
      Ok (map (TemporalStorageService.set_collection_expiresAt t) cs,
          map (TemporalStorageService.set_photo_expiresAt t) ps) /\
    (forall c, In c (collections (w_db w)) ->
               TemporalStorageService.session_collection sessionId c = false ->
               In c (collections (w_db (snd extended)))) /\
    (forall p, In p (photos (w_db w)) ->
               TemporalStorageService.session_photo sessionId p = false ->
               In p (photos (w_db (snd extended)))).
Proof.
  intros w sessionId t Hq cs ps extended. unfold extended.
  rewrite (getTemporaryContentBySession_quiet _ Hq).
  rewrite (extendTemporaryContentExpiration_quiet _ _ Hq).
  cbn [fst snd].
  rewrite getTemporaryContentBySession_quiet by (apply quiet_with_db, Hq).
  cbn [fst snd w_db with_db Sql.update_photos Sql.update_collections
       Sql.with_photos Sql.with_collections collections photos].
  repeat split.
  - rewrite !filter_update by (intros []; reflexivity). reflexivity.
  - intros c Hin Hc. now apply update_keeps_others.
  - intros p Hin Hp. now apply update_keeps_others.
Qed.

Lemma extend_then_list_temporary_content_witness :
  fst (TemporalStorageService.getTemporaryContentBySession "s1"
         (snd (TemporalStorageService.extendTemporaryContentExpiration "s1"
                 1600000 (Sample.world Sample.db_renewal 1000000 [])))) =
    Ok ([mkCollection 10 "trip" None "custom" (Some 7) (Some true) (Some "s1")
           (Some 1600000)],
        [mkPhoto 20 "beach" "photo-2.jpg" "image/jpeg" "photo-2.jpg"
           (Some false) (Some 5) (Some true) (Some "s1") (Some 1600000)]).
Proof.
  destruct (@extend_then_list_temporary_content
              (Sample.world Sample.db_renewal 1000000 []) "s1" 1600000 eq_refl)
    as (_ & _ & Hlisted & _).
  exact Hlisted.
Defined.

(** ** The periodic expiry sweep (AuthService.cleanExpiredSessions) *)

Lemma try_catch_log_run (m : M unit) (msg : string) w :
  exists w', try_catch m (fun _ => console_error msg) w = (Ok tt, w').
Proof.
  unfold try_catch. destruct (m w) as [[[] | e] w']; eexists; reflexivity.
Qed.

Lemma cleanExpiredTemporaryContent_total w :
  exists w', TemporalStorageService.cleanExpiredTemporaryContent w = (Ok tt, w').
Proof.
  unfold TemporalStorageService.cleanExpiredTemporaryContent, bind, Date_now.
  apply try_catch_log_run.
Qed.

(** The body shared by the expiry sweep and the logout teardown: with no
    storage failure the tables lose the selected photos and collections,
    whichever blob deletions fail. *)
Lemma sweep_quiet (P : Photo -> bool) (Pc : Collection -> bool) msg w :
  quiet w ->
  wp (try_catch
        (rows <- db_query (fun d => filter P (photos d)) ;;
         TemporalStorageService.delete_blobs rows ;;
         db_delete (Sql.delete_photos P) (fun d => filter P (photos d)) ;;
         db_run (Sql.delete_collections Pc))
        (fun _ => console_error msg))
     (fun _ w' =>
        quiet w' /\ w_now w' = w_now w /\
        w_db w' = Sql.delete_collections Pc (Sql.delete_photos P (w_db w)))
     (fun _ _ => False) w.
Proof.
  intros Hq. apply wp_try_catch, wp_bind.
  apply wp_db_stmt_quiet; [exact Hq |]. cbn [fst snd].
  apply wp_bind.
  eapply wp_mono; [apply delete_blobs_run | | intros e w' []]. cbn.
  intros _ w1 (Hdb & Hf & Hnow & _).
  assert (Hq1 : quiet w1).
  { unfold quiet in *. rewrite Hf, Hq. reflexivity. }
  apply wp_bind. unfold db_delete, db_run.
  apply wp_db_stmt_quiet; [exact Hq1 |]. cbn [fst snd].
  apply wp_db_stmt_quiet; [now apply quiet_after_stmt |]. cbn [fst snd].
  split; [now apply quiet_after_stmt, quiet_after_stmt |].
  split; [exact Hnow |].
  cbn [w_db after_stmt]. now rewrite Hdb.
Qed.

Lemma cleanExpiredTemporaryContent_quiet w :
  quiet w ->
  wp TemporalStorageService.cleanExpiredTemporaryContent
     (fun _ w' =>
        quiet w' /\ w_now w' = w_now w /\
        w_db w' =
          Sql.delete_collections
            (TemporalStorageService.expired_collection (w_now w))
            (Sql.delete_photos
               (TemporalStorageService.expired_photo (w_now w)) (w_db w)))
     (fun _ _ => False) w.
Proof.
  intros Hq. unfold TemporalStorageService.cleanExpiredTemporaryContent.
  apply wp_bind, wp_Date_now. now apply sweep_quiet.
Qed.

Lemma cleanExpiredSessions_quiet w :
  quiet w ->
  wp AuthService.cleanExpiredSessions
     (fun _ w' => w_db w' = swept (w_now w) (w_db w))
     (fun _ _ => False) w.
Proof.
  intros Hq. unfold AuthService.cleanExpiredSessions. apply wp_bind.
  eapply wp_mono;
    [apply cleanExpiredTemporaryContent_quiet, Hq | | intros e w' []].
  cbn. intros _ w1 (Hq1 & Hnow & Hdb).
  unfold DatabaseSessionStore.cleanExpiredSessions.
  apply wp_try_catch, wp_bind, wp_Date_now. unfold db_delete.
  apply wp_db_stmt_quiet; [exact Hq1 |]. cbn [fst snd w_db after_stmt].
  now rewrite Hnow, Hdb.
Qed.

Lemma inArray_str_tied now (d : DB) (sessionId : option string) :
  Sql.inArray_str sessionId
    (map s_id (filter (expired_session now) (sessions d))) = false <->
  ~ tied_to_expired now sessionId d.
Proof.
  unfold tied_to_expired, Sql.inArray_str. split.
  - intros Hmem (s & Hs & Hlt & ->).
    assert (Hin : Sql.mem_str (s_id s)
                    (map s_id (filter (expired_session now) (sessions d)))
                  = true).
    { apply mem_str_In, in_map, filter_In. split; [exact Hs |].
      now apply Z.ltb_lt. }
    congruence.
  - intros Hno. destruct sessionId as [sid |]; [| reflexivity].
    destruct (Sql.mem_str sid _) eqn:E; [| reflexivity].
    exfalso. apply Hno.
    apply mem_str_In, in_map_iff in E as (s & <- & Hs).
    apply filter_In in Hs as [Hs Hexp]. apply Z.ltb_lt in Hexp.
    now exists s.
Qed.

Lemma not_tied_to_expired_null now d : ~ tied_to_expired now None d.
Proof. intros (s & _ & _ & H). discriminate H. Qed.

Lemma swept_session now d s :
  In s (sessions (swept now d)) <-> In s (sessions d) /\ now <= s_expiresAt s.
Proof.
  change (sessions (swept now d))
    with (Sql.keep (expired_session now) (sessions d)).
  rewrite keep_In. unfold expired_session. now rewrite Z.ltb_ge.
Qed.

Lemma swept_photo now d p :
  In p (photos (swept now d)) <->
  In p (photos d) /\
  TemporalStorageService.expired_photo now p = false /\
  ~ tied_to_expired now (p_sessionId p) d.
Proof.
  change (photos (swept now d))
    with (Sql.keep
            (fun p =>
               Sql.inArray_str (p_sessionId p)
                 (map s_id (filter (expired_session now) (sessions d))))
            (Sql.keep (TemporalStorageService.expired_photo now) (photos d))).
  rewrite !keep_In. rewrite (inArray_str_tied now d). tauto.
Qed.

Lemma swept_collection now d c :
  In c (collections (swept now d)) <->
  In c (collections d) /\
  TemporalStorageService.expired_collection now c = false /\
  ~ tied_to_expired now (c_sessionId c) d.
Proof.
  change (collections (swept now d))
    with (Sql.keep
            (fun c =>
               Sql.inArray_str (c_sessionId c)
                 (map s_id (filter (expired_session now) (sessions d))))
            (Sql.keep (TemporalStorageService.expired_collection now)
               (collections d))).
  rewrite !keep_In. rewrite (inArray_str_tied now d). tauto.
Qed.

(** X2: the periodic sweep [AuthService.cleanExpiredSessions] never
    throws; with no storage failure, and where the database accepts its
    deletes (no photo that stays is in a collection that goes:
    [sweepable]), it leaves exactly the sessions that are not past their
    expiry, and exactly the photos and collections that are neither
    expired temporary content nor tied to a session past its expiry. *)
Theorem cleanExpiredSessions_sweeps_exactly_the_expired :
  forall w,
    let run := AuthService.cleanExpiredSessions w in
    let now := w_now w in
    fst run = Ok tt /\
    (quiet w ->
     sweepable now (w_db w) = true ->
     (forall s, In s (sessions (w_db (snd run))) <->
                In s (sessions (w_db w)) /\ now <= s_expiresAt s) /\
     (forall p, In p (photos (w_db (snd run))) <->
                In p (photos (w_db w)) /\
                TemporalStorageService.expired_photo now p = false /\
                ~ tied_to_expired now (p_sessionId p) (w_db w)) /\
     (forall c, In c (collections (w_db (snd run))) <->
                In c (collections (w_db w)) /\
                TemporalStorageService.expired_collection now c = false /\
                ~ tied_to_expired now (c_sessionId c) (w_db w))).
Proof.
  intros w run now. split.
  - destruct (cleanExpiredTemporaryContent_total w) as [w1 H1].
    unfold run, AuthService.cleanExpiredSessions, bind. rewrite H1.
    apply try_catch_log_total.
  - intros Hq _.
    pose proof (wp_run _ _ _ _ (cleanExpiredSessions_quiet Hq)) as H.
    fold run in H. destruct (fst run); [| destruct H].
    rewrite H. clear H. subst now. split; [| split].
    + intros s. apply swept_session.
    + intros p. apply swept_photo.
    + intros c. apply swept_collection.
Qed.

Lemma cleanExpiredSessions_sweeps_exactly_the_expired_witness :
  let run := AuthService.cleanExpiredSessions Sample.world_stale in
  In (Sample.photo 21 (Some true)) (photos (w_db (snd run))) /\
  ~ In (Sample.stale_photo 20 "a.jpg") (photos (w_db (snd run))) /\
  ~ In (mkSession "s1" 7 "alice" 900000) (sessions (w_db (snd run))).
Proof.
  destruct (cleanExpiredSessions_sweeps_exactly_the_expired Sample.world_stale)
    as [_ Hquiet].
  destruct (Hquiet eq_refl eq_refl) as (Hsessions & Hphotos & _).
  split; [| split].
  - apply Hphotos. split; [right; now left |]. split; [reflexivity |].
    apply not_tied_to_expired_null.
  - intros Hin. apply Hphotos in Hin as (_ & Hlive & _). discriminate Hlive.
  - intros Hin. apply Hsessions in Hin as [_ Hlive]. cbn in Hlive. lia.
Defined.

(** ** Logout (AuthController.logout, AuthService.logout) *)

Lemma shrinks_deleteTemporaryContentForSession sessionId :
  always shrinks (TemporalStorageService.deleteTemporaryContentForSession sessionId).
Proof.
  unfold TemporalStorageService.deleteTemporaryContentForSession,
    TemporalStorageService.delete_blobs.
  frame_stmts. apply shrinks_deletePhotoFromFirebaseStorage.
Qed.

Lemma shrinks_logout sessionId : always shrinks (AuthService.logout sessionId).
Proof.
  unfold AuthService.logout, AuthService.deleteSession.
  frame_stmts.
  - apply shrinks_deleteTemporaryContentForSession.
  - apply shrinks_delete.
Qed.

Lemma logout_total sessionId w :
  exists w', AuthService.logout sessionId w = (Ok tt, w').
Proof.
  unfold AuthService.logout, AuthService.deleteSession, bind.
  destruct (try_catch_log_run
              (sessionPhotos <-
                 db_query
                   (fun d =>
                      filter (TemporalStorageService.session_photo sessionId)
                        (photos d)) ;;
               TemporalStorageService.delete_blobs sessionPhotos ;;
               db_delete
                 (Sql.delete_photos
                    (TemporalStorageService.session_photo sessionId))
                 (fun d =>
                    filter (TemporalStorageService.session_photo sessionId)
                      (photos d)) ;;
               db_run
                 (Sql.delete_collections
                    (TemporalStorageService.session_collection sessionId)))
              "Error deleting temporary content for session:" w)
    as [w1 H1].
  unfold TemporalStorageService.deleteTemporaryContentForSession.
  rewrite H1.
  destruct (try_catch_total
              (sessionData <-
                 db_query
                   (fun d =>
                      Sql.limit 1
                        (map (fun s => (s_userId s, s_username s))
                           (filter (session_is sessionId) (sessions d)))) ;;
               match sessionData with
               | (userId, username) :: _ =>
                   if isTemporaryDemoUser username then
                     cleanupTemporaryDemoUser userId (Some sessionId) ;;
                     ret true
                   else
                     cleanupDemoUserContentForSession sessionId ;;
                     db_delete (Sql.delete_sessions (session_is sessionId))
                       (Sql.session_cascade_photos (session_is sessionId)) ;;
                     ret false
               | [] =>
                   db_delete (Sql.delete_sessions (session_is sessionId))
                     (Sql.session_cascade_photos (session_is sessionId)) ;;
                   ret false
               end)
              "Error deleting session:" false w1) as [r Hr].
  unfold DatabaseSessionStore.delete.
  match goal with
  | |- exists w', match ?run with _ => _ end = _ =>
      change (fst run = Ok r) in Hr; destruct run as [[b | e] w2]
  end; cbn in Hr; [| discriminate Hr].
  now exists w2.
Qed.

Lemma logout_quiet sessionId w :
  quiet w -> sessionId <> "" ->
  wp (AuthService.logout sessionId)
     (fun _ w' =>
        no_session sessionId (w_db w') /\
        (forall c, In c (collections (w_db w')) ->
                   TemporalStorageService.session_collection sessionId c = false) /\
        (forall p, In p (photos (w_db w')) ->
                   TemporalStorageService.session_photo sessionId p = false))
     (fun _ _ => False) w.
Proof.
  intros Hq Hsid. unfold AuthService.logout, AuthService.deleteSession.
  apply wp_bind.
  eapply wp_mono;
    [apply (@sweep_quiet (TemporalStorageService.session_photo sessionId)
              (TemporalStorageService.session_collection sessionId)), Hq
    | | intros e w' []].
  cbn. intros _ w1 (Hq1 & Hnow1 & Hdb1).
  apply wp_bind.
  pose proof (shrinks_delete sessionId w1) as Hshrink.
  pose proof (delete_removes_session Hq1 Hsid) as Hgone.
  unfold wp in *.
  destruct (DatabaseSessionStore.delete sessionId w1) as [[b | e] w2];
    [| destruct Hgone].
  cbn. destruct Hgone as (_ & _ & [Hno _]). destruct Hshrink as [Hc Hp].
  split; [exact Hno |]. split.
  - intros c Hin. apply Hc in Hin. rewrite Hdb1 in Hin. cbn in Hin.
    now apply keep_In in Hin.
  - intros p Hin. apply Hp in Hin. rewrite Hdb1 in Hin. cbn in Hin.
    now apply keep_In in Hin.
Qed.

(** X3: the logout handler answers 200 whatever happens, a storage
    failure included, and neither adds nor changes a collection or a
    photo; with no storage failure, and where the database accepts the
    delete of the session (every photo in a collection tied to the session
    is tied to it as well: [session_deletable]), the session row is gone
    afterwards and no temporary collection or photo of the session is
    left. *)
Theorem logout_removes_session_and_temporary_content :
  forall w req sessionId,
    req_sessionId req = Some sessionId -> sessionId <> "" ->
    let run := AuthController.logout req w in
    fst run = Ok (status 200) /\
    shrinks (w_db w) (w_db (snd run)) /\
    (quiet w ->
     session_deletable sessionId (w_db w) = true ->
     no_session sessionId (w_db (snd run)) /\
     (forall c, In c (collections (w_db (snd run))) ->
                TemporalStorageService.session_collection sessionId c = false) /\
     (forall p, In p (photos (w_db (snd run))) ->
                TemporalStorageService.session_photo sessionId p = false)).
Proof.
  intros w req sessionId Hreq Hsid run.
  assert (T : Js.truthy sessionId = true).
  { unfold Js.truthy. now apply negb_true_iff, String.eqb_neq. }
  assert (Hrun : run = (let (o, w') := AuthService.logout sessionId w in
                        (Ok (status 200), w'))).
  { unfold run, AuthController.logout, try_catch, bind. rewrite Hreq, T.
    destruct (logout_total sessionId w) as [w1 H1]. now rewrite H1. }
  destruct (logout_total sessionId w) as [w1 H1].
  rewrite Hrun, H1. cbn [fst snd].
  split; [reflexivity |]. split.
  - pose proof (shrinks_logout sessionId w) as H. unfold wp in H.
    now rewrite H1 in H.
  - intros Hq _. pose proof (logout_quiet Hq Hsid) as H. unfold wp in H.
    now rewrite H1 in H.
Qed.

Lemma logout_removes_session_and_temporary_content_witness :
  let run :=
    AuthController.logout
      (mkRequest None (Some "s1") (Some "s1") (Some Sample.alice))
      (Sample.world Sample.db_renewal 1000000 []) in
  fst run = Ok (status 200) /\
  no_session "s1" (w_db (snd run)) /\
  forall p, In p (photos (w_db (snd run))) ->
            TemporalStorageService.session_photo "s1" p = false.
Proof.
  assert (Hne : "s1" <> "") by discriminate.
  destruct (@logout_removes_session_and_temporary_content
              (Sample.world Sample.db_renewal 1000000 [])
              (mkRequest None (Some "s1") (Some "s1") (Some Sample.alice))
              "s1" eq_refl Hne)
    as (Hok & _ & Hquiet).
  destruct (Hquiet eq_refl eq_refl) as (Hno & _ & Hphotos).
  split; [exact Hok |]. split; [exact Hno | exact Hphotos].
Defined.

(** ** Making content permanent rescues it from the expiry sweep *)

Lemma makePhotoPermanent_quiet photoId w :
  quiet w ->
  TemporalStorageService.makePhotoPermanent photoId w =
    (Ok (0 <? List.length (filter (photo_is photoId) (photos (w_db w))))%nat,
     with_db w
       (snd (Sql.update_photos (photo_is photoId)
               TemporalStorageService.make_photo_permanent (w_db w)))).
Proof.
  intros Hq. unfold TemporalStorageService.makePhotoPermanent, try_catch, bind.
  rewrite db_exec_quiet by exact Hq. cbn [fst snd Sql.update_photos ret].
  now rewrite length_map.
Qed.

Lemma makeCollectionPermanent_quiet collectionId w :
  quiet w ->
  TemporalStorageService.makeCollectionPermanent collectionId w =
    (Ok (0 <? List.length
                (filter (collection_is collectionId) (collections (w_db w))))%nat,
     with_db w
       (snd (Sql.update_collections (collection_is collectionId)
               TemporalStorageService.make_collection_permanent (w_db w)))).
Proof.
  intros Hq.
  unfold TemporalStorageService.makeCollectionPermanent, try_catch, bind.
  rewrite db_exec_quiet by exact Hq. cbn [fst snd Sql.update_collections ret].
  now rewrite length_map.
Qed.

Lemma filter_In_length {A} (P : A -> bool) (l : list A) x :
  In x l -> P x = true -> (0 <? List.length (filter P l))%nat = true.
Proof.
  intros Hin HP.
  assert (H : In x (filter P l)) by (apply filter_In; now split).
  destruct (filter P l); [destruct H | reflexivity].
Qed.

Lemma update_In {A} (P : A -> bool) (f : A -> A) (l : list A) x :
  In x l -> P x = true -> In (f x) (map (fun y => if P y then f y else y) l).
Proof.
  intros Hin HP. apply in_map_iff. exists x. now rewrite HP.
Qed.

Lemma sweep_at now w :
  quiet w ->
  w_db (snd (AuthService.cleanExpiredSessions (at_time now w))) =
    swept now (w_db w).
Proof.
  intros Hq.
  assert (Hq' : quiet (at_time now w)) by exact Hq.
  pose proof (wp_run _ _ _ _ (cleanExpiredSessions_quiet Hq')) as H.
  destruct (fst (AuthService.cleanExpiredSessions (at_time now w)));
    [exact H | destruct H].
Qed.

(** X4: with no storage failure, [makePhotoPermanent] and
    [makeCollectionPermanent] answer true for a row that exists and clear
    its temporary flag, session and expiry, touching no other column; the
    converted row then survives the periodic expiry sweep, whenever that
    runs. *)
Theorem permanent_content_survives_the_sweep :
  forall w now,
    quiet w ->
    (forall p,
        In p (photos (w_db w)) ->
        let made := TemporalStorageService.makePhotoPermanent (p_id p) w in
        let kept := TemporalStorageService.make_photo_permanent p in
        fst made = Ok true /\
        In kept (photos (w_db (snd made))) /\
        In kept
          (photos
             (w_db (snd (AuthService.cleanExpiredSessions
                           (at_time now (snd made))))))) /\
    (forall c,
        In c (collections (w_db w)) ->
        let made := TemporalStorageService.makeCollectionPermanent (c_id c) w in
        let kept := TemporalStorageService.make_collection_permanent c in
        fst made = Ok true /\
        In kept (collections (w_db (snd made))) /\
        In kept
          (collections
             (w_db (snd (AuthService.cleanExpiredSessions
                           (at_time now (snd made))))))).
Proof.
  intros w now Hq. split.
  - intros p Hin made kept. unfold made.
    rewrite makePhotoPermanent_quiet by exact Hq. cbn [fst snd].
    assert (Hid : photo_is (p_id p) p = true) by apply Z.eqb_refl.
    assert (Hkept : In kept
                      (photos
                         (snd (Sql.update_photos (photo_is (p_id p))
                                 TemporalStorageService.make_photo_permanent
                                 (w_db w))))).
    { cbn. now apply update_In. }
    split; [now rewrite (filter_In_length _ _ _ Hin Hid) |].
    split; [exact Hkept |].
    rewrite sweep_at by (apply quiet_with_db, Hq).
    apply swept_photo. split; [exact Hkept |].
    split; [reflexivity | apply not_tied_to_expired_null].
  - intros c Hin made kept. unfold made.
    rewrite makeCollectionPermanent_quiet by exact Hq. cbn [fst snd].
    assert (Hid : collection_is (c_id c) c = true) by apply Z.eqb_refl.
    assert (Hkept : In kept
                      (collections
                         (snd (Sql.update_collections (collection_is (c_id c))
                                 TemporalStorageService.make_collection_permanent
                                 (w_db w))))).
    { cbn. now apply update_In. }
    split; [now rewrite (filter_In_length _ _ _ Hin Hid) |].
    split; [exact Hkept |].
    rewrite sweep_at by (apply quiet_with_db, Hq).
    apply swept_collection. split; [exact Hkept |].
    split; [reflexivity | apply not_tied_to_expired_null].
Qed.

Lemma permanent_content_survives_the_sweep_witness :
  In (mkPhoto 20 "beach" "photo-2.jpg" "image/jpeg" "photo-2.jpg" (Some false)
        (Some 5) (Some false) None None)
     (photos
        (w_db (snd (AuthService.cleanExpiredSessions
                      (at_time 2000000
                         (snd (TemporalStorageService.makePhotoPermanent 20
                                 (Sample.world Sample.db_renewal 1000000 []))))))))
  /\
  ~ In Sample.temporary_photo
      (photos
         (w_db (snd (AuthService.cleanExpiredSessions
                       (at_time 2000000
                          (Sample.world Sample.db_renewal 1000000 [])))))).
Proof.
  split.
  - destruct (@permanent_content_survives_the_sweep
                (Sample.world Sample.db_renewal 1000000 []) 2000000 eq_refl)
      as [Hphoto _].
    destruct (Hphoto Sample.temporary_photo) as (_ & _ & Hkept).
    + now left.
    + exact Hkept.
  - vm_compute. intros [].
Defined.

(** ** Deleting a collection (collection-model.ts, routes/collections.ts) *)

Lemma keep_keep {A} (P Q : A -> bool) (l : list A) :
  Sql.keep Q (Sql.keep P l) = Sql.keep (fun x => P x || Q x) l.
Proof.
  unfold Sql.keep. induction l as [| x l IH]; [reflexivity |].
  cbn [filter]. destruct (P x); cbn [negb orb filter].
  - exact IH.
  - destruct (Q x); cbn [negb]; now rewrite IH.
Qed.

Lemma keep_ext {A} (P Q : A -> bool) (l : list A) :
  (forall x, In x l -> P x = Q x) -> Sql.keep P l = Sql.keep Q l.
Proof.
  intros H. unfold Sql.keep. apply filter_ext_in.
  intros x Hx. now rewrite H.
Qed.

Lemma positive_length_existsb {A} (P : A -> bool) (l : list A) :
  (0 <? List.length (filter P l))%nat = existsb P l.
Proof.
  induction l as [| x l IH]; [reflexivity |].
  cbn [filter existsb]. now destruct (P x).
Qed.

(** With ids unique, the rows whose id is the id of a selected row are the
    selected rows. *)
Lemma mem_selected_ids (Q : Photo -> bool) (l : list Photo) p :
  NoDup (map p_id l) -> In p l ->
  Sql.mem (p_id p) (map p_id (filter Q l)) = Q p.
Proof.
  intros Hnd Hin. destruct (Q p) eqn:E.
  - apply mem_In, in_map, filter_In. now split.
  - destruct (Sql.mem (p_id p) (map p_id (filter Q l))) eqn:M; [| reflexivity].
    apply mem_In, in_map_iff in M as (q & Hid & Hq).
    apply filter_In in Hq as [Hq HQ].
    assert (q = p) as ->.
    { pose proof (filter_key_unique p_id l p Hnd Hin) as Hf.
      assert (Hq' : In q (filter (fun y => (p_id y =? p_id p)%Z) l)).
      { apply filter_In. split; [exact Hq |]. now apply Z.eqb_eq. }
      rewrite Hf in Hq'. now destruct Hq' as [-> | []]. }
    congruence.
Qed.

Lemma keep_nothing {A} (P : A -> bool) (l : list A) :
  (forall x, In x l -> P x = false) -> Sql.keep P l = l.
Proof.
  intros H. unfold Sql.keep. induction l as [| x l IH]; [reflexivity |].
  cbn [filter]. rewrite (H x) by now left. cbn [negb]. f_equal.
  apply IH. intros y Hy. apply H. now right.
Qed.

Lemma delete_photos_nothing P d :
  (forall p, In p (photos d) -> P p = false) -> Sql.delete_photos P d = d.
Proof.
  intros H. unfold Sql.delete_photos, Sql.with_photos.
  rewrite (keep_nothing _ _ H). now destruct d.
Qed.

Lemma delete_photos_twice P Q d :
  Sql.delete_photos Q (Sql.delete_photos P d) =
  Sql.delete_photos (fun p => P p || Q p) d.
Proof.
  unfold Sql.delete_photos, Sql.with_photos. cbn -[Sql.keep].
  now rewrite keep_keep.
Qed.

(** One blob deletion (a failure is logged and swallowed) followed by one
    deletion of photo rows. *)
Lemma delete_blob_then_rows filePath (P : Photo -> bool) w :
  quiet w ->
  wp (deletePhotoFromFirebaseStorage filePath ;;
      db_delete (Sql.delete_photos P) (fun d => filter P (photos d)))
     (fun _ w' =>
        quiet w' /\ w_now w' = w_now w /\
        w_db w' = Sql.delete_photos P (w_db w) /\
        exists t,
          w_trace w' = w_trace w ++ t /\
          attempted_keys t = [blob_key filePath])
     (fun _ _ => False) w.
Proof.
  intros Hq. destruct w as [d bl n f bf r t]. unfold quiet in Hq.
  cbn in Hq. subst f.
  unfold wp, bind, deletePhotoFromFirebaseStorage, try_catch, blob_delete,
    db_delete, db_stmt.
  fold (blob_key filePath).
  destruct bf as [| [|] later]; cbn -[blob_key Sql.delete_photos];
    (split; [reflexivity |]); (split; [reflexivity |]);
    (split; [reflexivity |]);
    (eexists; split; [rewrite <- !app_assoc; reflexivity | reflexivity]).
Qed.

(** The loop of [deleteCollection]: each photo has its blob addressed and
    then its row deleted. *)
Lemma delete_photos_loop (rows : list Photo) :
  forall w,
    quiet w ->
    wp (for_of rows
          (fun photo =>
             deletePhotoFromFirebaseStorage (p_filePath photo) ;;
             db_delete (Sql.delete_photos (photo_is (p_id photo)))
               (fun d => filter (photo_is (p_id photo)) (photos d))))
       (fun _ w' =>
          quiet w' /\ w_now w' = w_now w /\
          w_db w' =
            Sql.delete_photos (fun p => Sql.mem (p_id p) (map p_id rows))
              (w_db w) /\
          exists t,
            w_trace w' = w_trace w ++ t /\
            attempted_keys t = map (fun p => blob_key (p_filePath p)) rows)
       (fun _ _ => False) w.
Proof.
  induction rows as [| x rows IH]; intros w Hq.
  - cbn. split; [exact Hq |]. split; [reflexivity |]. split.
    + symmetry. now apply delete_photos_nothing.
    + exists []. now rewrite app_nil_r.
  - cbn [for_of]. apply wp_bind.
    eapply wp_mono;
      [apply delete_blob_then_rows, Hq | | intros e w' []].
    cbn beta. intros _ w1 (Hq1 & Hnow1 & Hdb1 & t1 & Ht1 & Hkeys1).
    eapply wp_mono; [apply IH, Hq1 | | intros e w' []].
    cbn beta. intros _ w2 (Hq2 & Hnow2 & Hdb2 & t2 & Ht2 & Hkeys2).
    split; [exact Hq2 |]. split; [congruence |]. split.
    + rewrite Hdb2, Hdb1. apply delete_photos_twice.
    + exists (t1 ++ t2). split.
      * now rewrite Ht2, Ht1, app_assoc.
      * unfold attempted_keys in *. rewrite flat_map_app.
        rewrite Hkeys1, Hkeys2. reflexivity.
Qed.

Lemma deleteCollection_quiet id w :
  quiet w ->
  wp (deleteCollection id)
     (fun r w' =>
        r = existsb (collection_is id) (collections (w_db w)) /\
        quiet w' /\ w_now w' = w_now w /\
        w_db w' =
          Sql.delete_collections (collection_is id)
            (Sql.delete_photos
               (fun p =>
                  Sql.mem (p_id p)
                    (map p_id (filter (in_collection id) (photos (w_db w)))))
               (w_db w)) /\
        exists t,
          w_trace w' = w_trace w ++ t /\
          attempted_keys t =
            map (fun p => blob_key (p_filePath p))
              (filter (in_collection id) (photos (w_db w))))
     (fun _ _ => False) w.
Proof.
  intros Hq. unfold deleteCollection.
  apply wp_bind, wp_db_stmt_quiet; [exact Hq |]. cbn [fst snd].
  apply wp_bind.
  eapply wp_mono;
    [apply delete_photos_loop; apply quiet_after_stmt; exact Hq
    | | intros e w' []].
  cbn beta. intros _ w1 (Hq1 & Hnow1 & Hdb1 & t & Ht & Hkeys).
  apply wp_bind. unfold db_exec.
  apply wp_db_stmt_quiet; [exact Hq1 |]. cbn [fst snd].
  apply wp_ret.
  rewrite positive_length_existsb, Hdb1.
  split; [reflexivity |].
  split; [now apply quiet_after_stmt |].
  split; [exact Hnow1 |].
  split; [reflexivity |].
  exists t. cbn [w_trace after_stmt] in *. rewrite Ht, !app_nil_r.
  now split.
Qed.

(** X5: with no storage failure and photo ids unique, [deleteCollection]
    answers whether the collection existed; it addresses the blob of each
    photo of the collection, by the key stored in the row, and deletes
    exactly those photo rows, the collection row and, if the collection
    existed, its ownership rows; every other row stays.  No id is exempt:
    the collections of the protected allowlist are deleted like any other. *)
Theorem deleteCollection_removes_the_collection_and_its_photos :
  forall w id,
    quiet w ->
    NoDup (map p_id (photos (w_db w))) ->
    let run := deleteCollection id w in
    let d := w_db w in
    let d' := w_db (snd run) in
    fst run = Ok (existsb (collection_is id) (collections d)) /\
    collections d' = Sql.keep (collection_is id) (collections d) /\
    photos d' = Sql.keep (in_collection id) (photos d) /\
    (forall o, In o (collectionOwners d') ->
               In o (collectionOwners d) /\
               (existsb (collection_is id) (collections d) = true ->
                o_collectionId o <> id)) /\
    (forall o, In o (collectionOwners d) -> o_collectionId o <> id ->
               In o (collectionOwners d')) /\
    users d' = users d /\ sessions d' = sessions d /\
    exists t,
      w_trace (snd run) = w_trace w ++ t /\
      attempted_keys t =
        map (fun p => blob_key (p_filePath p))
          (filter (in_collection id) (photos d)).
Proof.
  intros w id Hq Hnd run d d'.
  pose proof (wp_run _ _ _ _ (deleteCollection_quiet id Hq)) as H.
  fold run in H. subst d'. destruct (fst run) as [r | e]; [| destruct H].
  destruct H as (-> & _ & _ & -> & Htrace).
  split; [reflexivity |].
  split; [reflexivity |].
  split.
  { cbn -[Sql.mem Sql.keep]. apply keep_ext. intros p Hp.
    now apply mem_selected_ids. }
  split.
  { intros o Ho. cbn -[Sql.mem Sql.keep] in Ho.
    apply keep_In in Ho as [Ho Hkept].
    split; [exact Ho |]. intros Hex Hid.
    apply existsb_exists in Hex as (c & Hc & Hcid).
    assert (Hmem : Sql.mem (o_collectionId o)
                     (map c_id (filter (collection_is id) (collections d)))
                   = true).
    { apply mem_In, in_map_iff. exists c.
      unfold collection_is in Hcid. apply Z.eqb_eq in Hcid.
      split; [congruence |]. apply filter_In. split; [exact Hc |].
      now apply Z.eqb_eq. }
    subst d. congruence. }
  split.
  { intros o Ho Hid. cbn -[Sql.mem Sql.keep]. apply keep_In.
    split; [exact Ho |].
    match goal with |- ?b = false => destruct b eqn:E end; [| reflexivity].
    apply mem_In, in_map_iff in E as (c & Hcid & Hc).
    apply filter_In in Hc as [_ Hc]. apply Z.eqb_eq in Hc. congruence. }
  split; [reflexivity |]. split; [reflexivity |]. exact Htrace.
Qed.

Lemma deleteCollection_removes_the_collection_and_its_photos_witness :
  let run := deleteCollection 1 (Sample.world Sample.db_demo 1000000 []) in
  fst run = Ok true /\
  collections (w_db (snd run)) = [Sample.album 30] /\
  map p_id (photos (w_db (snd run))) = [40] /\
  collectionOwners (w_db (snd run)) = [mkOwner 30 2].
Proof.
  assert (Hnd : NoDup (map p_id (photos (w_db (Sample.world Sample.db_demo
                                                   1000000 []))))).
  { repeat constructor; cbn; intuition discriminate. }
  destruct (@deleteCollection_removes_the_collection_and_its_photos
              (Sample.world Sample.db_demo 1000000 []) 1 eq_refl Hnd)
    as (Hret & Hcols & Hphotos & _).
  split; [exact Hret |]. split; [exact Hcols |].
  split; [now rewrite Hphotos | reflexivity].
Defined.

Lemma getCollection_quiet id w :
  quiet w ->
  getCollection id w =
    (Ok (hd_error (filter (collection_is id) (collections (w_db w)))), w).
Proof.
  intros Hq. unfold getCollection, bind. now rewrite db_query_quiet.
Qed.

Lemma hd_error_existsb {A} (P : A -> bool) (l : list A) :
  existsb P l = match hd_error (filter P l) with Some _ => true | None => false end.
Proof.
  induction l as [| x l IH]; [reflexivity |].
  cbn [filter existsb]. now destruct (P x).
Qed.

Lemma limit_1_positive {A} (l : list A) :
  (0 <? List.length (Sql.limit 1 l))%nat = (0 <? List.length l)%nat.
Proof. now destruct l. Qed.

Lemma checkCollectionOwnership_quiet collectionId userId w :
  quiet w ->
  checkCollectionOwnership collectionId userId w =
    (Ok (owns userId collectionId (w_db w)), w).
Proof.
  intros Hq. unfold checkCollectionOwnership, bind.
  rewrite db_query_quiet by exact Hq. cbn [ret].
  now rewrite limit_1_positive, positive_length_existsb.
Qed.

(** X6: for a request that passed [requireAuth], with no storage failure
    and an id in the range of the [integer] column, the delete-collection
    handler answers 404 for an id that names no collection and 403 for a
    collection the account has no ownership row for, changing nothing in
    either case; for an owner it answers 204 and has run
    [deleteCollection].  Ownership is the only test: a co-owner of a
    protected collection deletes it. *)
Theorem delete_collection_route_checks_ownership :
  forall w req user id,
    quiet w ->
    int4 id = true ->
    req_user req = Some user ->
    let run := delete_collection_handler req (Some id) w in
    let found := existsb (collection_is id) (collections (w_db w)) in
    (found = false -> run = (Ok (status 404), w)) /\
    (found = true -> owns (u_id user) id (w_db w) = false ->
     run = (Ok (status 403), w)) /\
    (found = true -> owns (u_id user) id (w_db w) = true ->
     fst run = Ok (status 204) /\ snd run = snd (deleteCollection id w)).
Proof.
  intros w req user id Hq _ Huser run found.
  unfold run, delete_collection_handler, try_catch, bind. rewrite Huser.
  rewrite getCollection_quiet by exact Hq.
  unfold found. rewrite hd_error_existsb.
  destruct (hd_error (filter (collection_is id) (collections (w_db w))))
    as [c |] eqn:Hc.
  - split; [discriminate |].
    rewrite checkCollectionOwnership_quiet by exact Hq.
    destruct (owns (u_id user) id (w_db w)); cbn [negb].
    + split; [discriminate |]. intros _ _.
      pose proof (wp_run _ _ _ _ (deleteCollection_quiet id Hq)) as H.
      destruct (deleteCollection id w) as [[b | e] w']; cbn [fst snd] in *;
        [| destruct H].
      destruct H as (-> & _). rewrite hd_error_existsb, Hc. now split.
    + split; [reflexivity | discriminate].
  - split; [reflexivity |]. split; discriminate.
Qed.

Lemma delete_collection_route_checks_ownership_witness :
  let w := Sample.world Sample.db_demo 1000000 [] in
  let req := mkRequest None (Some "d1") (Some "d1")
               (Some (mkUser 2 "demo" "Demo User")) in
  In 1 PROTECTED_COLLECTION_IDS /\
  fst (delete_collection_handler req (Some 1) w) = Ok (status 204) /\
  collections (w_db (snd (delete_collection_handler req (Some 1) w))) =
    [Sample.album 30] /\
  delete_collection_handler
    (mkRequest None (Some "d1") (Some "d1") (Some Sample.alice)) (Some 1) w =
    (Ok (status 403), w).
Proof.
  intros w req. split; [now left |].
  destruct (@delete_collection_route_checks_ownership w req
              (mkUser 2 "demo" "Demo User") 1 eq_refl eq_refl eq_refl)
    as (_ & _ & Howner).
  destruct (Howner eq_refl eq_refl) as [Hstatus Hworld].
  split; [exact Hstatus |]. split; [now rewrite Hworld |].
  destruct (@delete_collection_route_checks_ownership w
              (mkRequest None (Some "d1") (Some "d1") (Some Sample.alice))
              Sample.alice 1 eq_refl eq_refl eq_refl)
    as (_ & Hdenied & _).
  exact (Hdenied eq_refl eq_refl).
Defined.

(** X7: for an id in the range of the [integer] column, the
    make-permanent handler for collections answers 403 to an account
    without an ownership row, changing nothing; to an owner it answers 200
    whatever the conversion did: also when the update is rejected by the
    storage, in which case nothing was converted. *)
Theorem make_permanent_route_reports_success_regardless :
  forall w req user id,
    int4 id = true ->
    req_user req = Some user ->
    let run := make_collection_permanent_handler req (Some id) w in
    (quiet w -> owns (u_id user) id (w_db w) = false ->
     run = (Ok (status 403), w)) /\
    (quiet w -> owns (u_id user) id (w_db w) = true ->
     fst run = Ok (status 200) /\
     snd run = snd (TemporalStorageService.makeCollectionPermanent id w)) /\
    (forall msg rest,
        w_dbFaults w = None :: Some msg :: rest ->
        owns (u_id user) id (w_db w) = true ->
        fst run = Ok (status 200) /\
        w_db (snd run) = w_db w /\
        w_trace (snd run) =
          w_trace w ++ [ConsoleError "Error making collection permanent:"]).
Proof.
  intros w req user id _ Huser run.
  unfold run, make_collection_permanent_handler, try_catch, bind.
  rewrite Huser. split; [| split].
  - intros Hq Hown.
    rewrite checkCollectionOwnership_quiet by exact Hq. now rewrite Hown.
  - intros Hq Hown.
    rewrite checkCollectionOwnership_quiet by exact Hq. rewrite Hown.
    cbn [negb].
    rewrite makeCollectionPermanent_quiet by exact Hq. now split.
  - intros msg rest Hf Hown.
    unfold checkCollectionOwnership, bind, db_query, db_stmt.
    rewrite Hf. cbn [fst snd ret].
    rewrite limit_1_positive, positive_length_existsb.
    fold (owns (u_id user) id (w_db w)). rewrite Hown. cbn [negb].
    unfold TemporalStorageService.makeCollectionPermanent, try_catch, bind,
      db_exec, db_stmt.
    cbn [w_dbFaults after_stmt tl]. rewrite Hf. cbn.
    rewrite app_nil_r. now split.
Qed.

Lemma make_permanent_route_reports_success_regardless_witness :
  let w := mkWorld Sample.db_renewal [] 1000000 [None; Some "ECONNRESET"]
             [] [] [] in
  let run :=
    make_collection_permanent_handler
      (mkRequest None (Some "s1") (Some "s1") (Some Sample.alice)) (Some 10) w in
  fst run = Ok (status 200) /\
  In Sample.temporary_album (collections (w_db (snd run))).
Proof.
  intros w run.
  destruct (@make_permanent_route_reports_success_regardless w
              (mkRequest None (Some "s1") (Some "s1") (Some Sample.alice))
              Sample.alice 10 eq_refl eq_refl)
    as (_ & _ & Hfail).
  destruct (Hfail "ECONNRESET" [] eq_refl eq_refl) as (Hstatus & Hdb & _).
  split; [exact Hstatus |].
  unfold run. rewrite Hdb. right. now left.
Defined.

(** ** Creating a collection (collection-model.ts, partnership-model.ts) *)

Lemma hd_error_limit_1 {A} (l : list A) : hd_error (Sql.limit 1 l) = hd_error l.
Proof. now destruct l. Qed.

Lemma getUserPartner_quiet userId w :
  quiet w ->
  getUserPartner userId w = (Ok (partner_of userId (w_db w)), w).
Proof.
  intros Hq. unfold getUserPartner, partner_of, bind.
  rewrite db_query_quiet by exact Hq.
  destruct (filter _ (partnerships (w_db w))) as [| q rest]; [reflexivity |].
  cbn [Sql.limit firstn].
  rewrite db_query_quiet by exact Hq. unfold ret. f_equal. f_equal.
  now destruct (filter _ (users (w_db w))).
Qed.

Lemma filter_app_fresh {A} (P : A -> bool) (l : list A) x :
  (forall y, In y l -> P y = false) -> P x = true ->
  filter P (l ++ [x]) = [x].
Proof.
  intros Hl Hx. rewrite filter_app, (filter_none _ _ Hl). cbn. now rewrite Hx.
Qed.

Lemma owns_app userId collectionId (d : DB) l :
  existsb
    (fun o => (o_collectionId o =? collectionId)%Z && (o_userId o =? userId)%Z)
    l = true ->
  forall l0 l1,
    collectionOwners d = l0 ++ l ++ l1 -> owns userId collectionId d = true.
Proof.
  intros H l0 l1 Hd. unfold owns. rewrite Hd, !existsb_app, H.
  now rewrite orb_true_r.
Qed.

Lemma createCollection_quiet data creator w :
  quiet w ->
  ic_userId data = Some creator ->
  createCollection data w =
    (Ok (collection_row data (collections_seq (w_db w))),
     with_db w (created_tables data creator (w_db w))).
Proof.
  intros Hq Hcreator. unfold createCollection, created_tables, bind.
  rewrite db_exec_quiet by exact Hq. rewrite Hcreator.
  cbn [fst snd Sql.insert_collection c_id].
  rewrite db_run_quiet by (apply quiet_with_db, Hq).
  rewrite getUserPartner_quiet by (apply quiet_with_db, Hq).
  change (partner_of creator (w_db (with_db _ _)))
    with (partner_of creator (w_db w)).
  destruct (partner_of creator (w_db w)) as [p |].
  - rewrite db_run_quiet by (apply quiet_with_db, Hq).
    unfold collection_row. now rewrite Hcreator.
  - unfold collection_row. now rewrite Hcreator.
Qed.

(** X8: with no storage failure, [createCollection] for a creator account
    inserts one collection row, under the next id of the sequence and with
    the columns asked for, one ownership row for the creator and one for
    the creator's partner if there is one, and nothing else;
    [checkCollectionOwnership] then answers true for both, and, ids below
    the sequence being taken, [getCollection] finds the new row. *)
Theorem createCollection_is_owned_by_creator_and_partner :
  forall w data creator,
    quiet w ->
    ic_userId data = Some creator ->
    let run := createCollection data w in
    let d := w_db w in
    let d' := w_db (snd run) in
    let id := collections_seq d in
    let created := collection_row data id in
    let partner := partner_of creator d in
    fst (getUserPartner creator w) = Ok partner /\
    fst run = Ok created /\
    collections d' = collections d ++ [created] /\
    collectionOwners d' =
      collectionOwners d ++
      mkOwner id creator ::
      match partner with
      | Some p => [mkOwner id (u_id p)]
      | None => []
      end /\
    photos d' = photos d /\ users d' = users d /\ sessions d' = sessions d /\
    fst (checkCollectionOwnership id creator (snd run)) = Ok true /\
    (forall p, partner = Some p ->
               fst (checkCollectionOwnership id (u_id p) (snd run)) = Ok true) /\
    ((forall c, In c (collections d) -> c_id c <> id) ->
     fst (getCollection id (snd run)) = Ok (Some created)).
Proof.
  intros w data creator Hq Hcreator run d d' id created partner.
  split; [now rewrite getUserPartner_quiet |].
  assert (Hrun : run = (Ok created, with_db w (created_tables data creator d)))
    by now apply createCollection_quiet.
  unfold created_tables in Hrun. fold id partner in Hrun. cbv zeta in Hrun.
  assert (Hq' : quiet (snd run)) by (rewrite Hrun; exact Hq).
  assert (Howners :
    collectionOwners d' =
      collectionOwners d ++
      mkOwner id creator ::
      match partner with
      | Some p => [mkOwner id (u_id p)]
      | None => []
      end).
  { unfold d'. rewrite Hrun. cbn. destruct partner; cbn; [| reflexivity].
    now rewrite <- app_assoc. }
  split; [now rewrite Hrun |].
  split; [unfold d'; rewrite Hrun; now destruct partner |].
  split; [exact Howners |].
  split; [unfold d'; rewrite Hrun; now destruct partner |].
  split; [unfold d'; rewrite Hrun; now destruct partner |].
  split; [unfold d'; rewrite Hrun; now destruct partner |].
  split; [| split].
  - rewrite checkCollectionOwnership_quiet by exact Hq'. cbn [fst]. f_equal.
    apply (@owns_app creator id (w_db (snd run)) [mkOwner id creator])
      with (l0 := collectionOwners d)
           (l1 := match partner with
                  | Some p => [mkOwner id (u_id p)]
                  | None => []
                  end).
    + cbn. now rewrite !Z.eqb_refl.
    + exact Howners.
  - intros p Hp.
    rewrite checkCollectionOwnership_quiet by exact Hq'. cbn [fst]. f_equal.
    apply (@owns_app (u_id p) id (w_db (snd run)) [mkOwner id (u_id p)])
      with (l0 := collectionOwners d ++ [mkOwner id creator]) (l1 := []).
    + cbn. now rewrite !Z.eqb_refl.
    + fold d'. rewrite Howners, Hp. now rewrite <- app_assoc.
  - intros Hfresh.
    rewrite getCollection_quiet by exact Hq'. cbn [fst]. do 2 f_equal.
    assert (Hcols : collections (w_db (snd run)) = collections d ++ [created]).
    { rewrite Hrun. now destruct partner. }
    rewrite Hcols, filter_app_fresh; [reflexivity | |].
    + intros c Hc. apply Z.eqb_neq. now apply Hfresh.
    + apply Z.eqb_refl.
Qed.

Lemma createCollection_is_owned_by_creator_and_partner_witness :
  let w :=
    Sample.world
      (mkDB [Sample.alice; mkUser 8 "bob" "Bob"] [] [Sample.album 5]
            [mkOwner 5 7] [] [mkPartnership 7 8] 9 6 1) 1000000 [] in
  let run :=
    createCollection
      (mkInsertCollection "trip" None "travels" (Some 8) (Some false) None None)
      w in
  collectionOwners (w_db (snd run)) = [mkOwner 5 7; mkOwner 6 8; mkOwner 6 7] /\
  fst (checkCollectionOwnership 6 7 (snd run)) = Ok true.
Proof.
  intros w run.
  destruct (@createCollection_is_owned_by_creator_and_partner w
              (mkInsertCollection "trip" None "travels" (Some 8) (Some false)
                 None None)
              8 eq_refl eq_refl)
    as (_ & _ & _ & Howners & _ & _ & _ & _ & Hpartner & _).
  split; [exact Howners |].
  exact (Hpartner Sample.alice eq_refl).
Defined.

(** ** Photos: create, read, delete (photo-model.ts) *)

Lemma getPhoto_quiet id w :
  quiet w ->
  getPhoto id w = (Ok (hd_error (filter (photo_is id) (photos (w_db w)))), w).
Proof.
  intros Hq. unfold getPhoto, bind. now rewrite db_query_quiet.
Qed.

Lemma deletePhoto_present id p w :
  quiet w ->
  hd_error (filter (photo_is id) (photos (w_db w))) = Some p ->
  wp (deletePhoto id)
     (fun r w' =>
        r = true /\ quiet w' /\
        w_db w' = Sql.delete_photos (photo_is id) (w_db w) /\
        w_trace w' =
          w_trace w ++ blob_attempts [p] (w_blobFaults w) ++
          [PhotoRowsDeleted (map p_id (filter (photo_is id) (photos (w_db w))))])
     (fun _ _ => False) w.
Proof.
  intros Hq Hp. unfold deletePhoto. apply wp_bind.
  unfold wp at 1. rewrite getPhoto_quiet by exact Hq. rewrite Hp.
  destruct w as [d bl n f bf r t]. unfold quiet in Hq. cbn in Hq. subst f.
  unfold wp, bind, deletePhotoFromFirebaseStorage, try_catch, blob_delete,
    db_stmt.
  fold (blob_key (p_filePath p)).
  assert (Hlen : (0 <? List.length (filter (photo_is id) (photos d)))%nat = true).
  { cbn in Hp. now destruct (filter (photo_is id) (photos d)). }
  destruct bf as [| [|] later];
    cbn -[blob_key Sql.delete_photos Nat.ltb] in *; rewrite Hlen;
    (split; [reflexivity |]); (split; [reflexivity |]);
    (split; [reflexivity |]); now rewrite <- !app_assoc.
Qed.

(** X9: with no storage failure, [deletePhoto] answers false and changes
    nothing for an id that names no photo; for a photo that exists it
    answers true, first addresses the blob by the key stored in the row and
    then deletes the row, whether or not the blob deletion fails (a failure
    is logged and swallowed); no other photo row is touched. *)
Theorem deletePhoto_deletes_blob_then_row :
  forall w id,
    quiet w ->
    let run := deletePhoto id w in
    ((forall p, In p (photos (w_db w)) -> p_id p <> id) ->
     run = (Ok false, w)) /\
    (forall p,
        hd_error (filter (photo_is id) (photos (w_db w))) = Some p ->
        fst run = Ok true /\
        w_db (snd run) = Sql.delete_photos (photo_is id) (w_db w) /\
        (forall q, In q (photos (w_db (snd run))) <->
                   In q (photos (w_db w)) /\ p_id q <> id) /\
        w_trace (snd run) =
          w_trace w ++ blob_attempts [p] (w_blobFaults w) ++
          [PhotoRowsDeleted
             (map p_id (filter (photo_is id) (photos (w_db w))))]).
Proof.
  intros w id Hq run. split.
  - intros Habs. unfold run, deletePhoto, bind.
    rewrite getPhoto_quiet by exact Hq.
    replace (filter (photo_is id) (photos (w_db w))) with (@nil Photo)
      by (symmetry; apply (filter_key_absent p_id _ Habs)).
    reflexivity.
  - intros p Hp.
    pose proof (wp_run _ _ _ _ (deletePhoto_present id Hq Hp)) as H.
    fold run in H. destruct (fst run) as [r | e]; [| destruct H].
    destruct H as (-> & _ & Hdb & Htrace).
    split; [reflexivity |]. split; [exact Hdb |]. split; [| exact Htrace].
    intros q. rewrite Hdb. cbn -[Sql.keep]. rewrite keep_In.
    unfold photo_is. rewrite Z.eqb_neq. reflexivity.
Qed.

Lemma deletePhoto_deletes_blob_then_row_witness :
  let run := deletePhoto 20 Sample.world_stale in
  fst run = Ok true /\
  map p_id (photos (w_db (snd run))) = [21; 22] /\
  w_trace (snd run) =
    [BlobDelete "uploads/a.jpg" false;
     ConsoleError "Error deleting photo from Firebase Storage:";
     PhotoRowsDeleted [20]].
Proof.
  destruct (@deletePhoto_deletes_blob_then_row Sample.world_stale 20 eq_refl)
    as [_ Hpresent].
  destruct (Hpresent (Sample.stale_photo 20 "a.jpg") eq_refl)
    as (Hret & Hdb & _ & Htrace).
  split; [exact Hret |]. split; [now rewrite Hdb | exact Htrace].
Defined.

Lemma createPhoto_quiet data w :
  quiet w ->
  createPhoto data w =
    (Ok (photo_row data (photos_seq (w_db w))),
     with_db w (snd (Sql.insert_photo (photo_row data) (w_db w)))).
Proof.
  intros Hq. unfold createPhoto. now rewrite db_exec_quiet.
Qed.

Lemma keep_app_fresh {A} (P : A -> bool) (l : list A) x :
  (forall y, In y l -> P y = false) -> P x = true ->
  Sql.keep P (l ++ [x]) = l.
Proof.
  intros Hl Hx. unfold Sql.keep. rewrite filter_app. cbn. rewrite Hx. cbn.
  rewrite app_nil_r. now apply keep_nothing.
Qed.

(** X10: with no storage failure and the ids below the sequence taken,
    [createPhoto] stores the row under the next id, with the columns asked
    for and a like flag that is never NULL; [getPhoto] finds it under that
    id, and [deletePhoto] of that id gives back the photo table as it was
    before the creation. *)
Theorem createPhoto_then_read_then_delete :
  forall w data,
    quiet w ->
    (forall p, In p (photos (w_db w)) -> p_id p <> photos_seq (w_db w)) ->
    let id := photos_seq (w_db w) in
    let created := createPhoto data w in
    let row := photo_row data id in
    fst created = Ok row /\
    p_isLiked row <> None /\
    photos (w_db (snd created)) = photos (w_db w) ++ [row] /\
    fst (getPhoto id (snd created)) = Ok (Some row) /\
    fst (deletePhoto id (snd created)) = Ok true /\
    photos (w_db (snd (deletePhoto id (snd created)))) = photos (w_db w).
Proof.
  intros w data Hq Hfresh id created row. unfold created.
  rewrite createPhoto_quiet by exact Hq. cbn [fst snd].
  set (w1 := with_db w (snd (Sql.insert_photo (photo_row data) (w_db w)))).
  assert (Hq1 : quiet w1) by exact Hq.
  assert (Hphotos : photos (w_db w1) = photos (w_db w) ++ [row]) by reflexivity.
  assert (Hfound : filter (photo_is id) (photos (w_db w1)) = [row]).
  { rewrite Hphotos. apply filter_app_fresh.
    - intros p Hp. apply Z.eqb_neq. now apply Hfresh.
    - apply Z.eqb_refl. }
  split; [reflexivity |]. split; [discriminate |]. split; [exact Hphotos |].
  split; [rewrite getPhoto_quiet by exact Hq1; now rewrite Hfound |].
  assert (Hhd : hd_error (filter (photo_is id) (photos (w_db w1))) = Some row)
    by now rewrite Hfound.
  pose proof (wp_run _ _ _ _ (deletePhoto_present id Hq1 Hhd)) as H.
  destruct (deletePhoto id w1) as [[r | e] w2]; cbn [fst snd] in *;
    [| destruct H].
  destruct H as (-> & _ & Hdb & _).
  split; [reflexivity |]. rewrite Hdb. cbn -[Sql.keep].
  apply keep_app_fresh.
  - intros p Hp. apply Z.eqb_neq. now apply Hfresh.
  - apply Z.eqb_refl.
Qed.

Lemma createPhoto_then_read_then_delete_witness :
  let data :=
    mkInsertPhoto "cat" "photo-9.jpg" "image/jpeg" "photo-9.jpg" None (Some 5)
      (Some false) None None in
  let created := createPhoto data (Sample.world Sample.db_liked 1000 []) in
  fst created =
    Ok (mkPhoto 22 "cat" "photo-9.jpg" "image/jpeg" "photo-9.jpg" (Some false)
          (Some 5) (Some false) None None) /\
  photos (w_db (snd (deletePhoto 22 (snd created)))) = photos Sample.db_liked.
Proof.
  intros data created.
  assert (Hfresh : forall p,
             In p (photos (w_db (Sample.world Sample.db_liked 1000 []))) ->
             p_id p <> photos_seq (w_db (Sample.world Sample.db_liked 1000 []))).
  { intros p [<- | [<- | []]]; discriminate. }
  destruct (@createPhoto_then_read_then_delete
              (Sample.world Sample.db_liked 1000 []) data eq_refl Hfresh)
    as (Hrow & _ & _ & _ & _ & Hback).
  split; [exact Hrow | exact Hback].
Defined.

(** ** Retrying a database operation (types.ts) *)

Lemma retry_from_step {A} (operation : M A) maxRetries attempt remaining
    lastError w :
  retry_from operation maxRetries attempt (S remaining) lastError w =
    match operation w with
    | (Ok a, w1) => (Ok a, w1)
    | (Throw e, w1) =>
        if is_connection_error e && (attempt <? maxRetries)%nat
        then retry_from operation maxRetries (S attempt) remaining e
               (attempt_logged w1)
        else (Throw e, attempt_logged w1)
    end.
Proof.
  cbn [retry_from]. unfold try_catch, bind.
  destruct (operation w) as [[a | e] w1]; [reflexivity |].
  cbn [console_error emit]. fold (attempt_logged w1).
  now destruct (is_connection_error e && (attempt <? maxRetries)%nat).
Qed.

(** X11: [withDatabaseRetry] runs the operation at most three times.  A
    result is returned as it is; an error that is not a connection error
    ([ETIMEDOUT], [ECONNRESET]) is thrown again after the attempt that
    raised it; after a connection error the operation is run again, and
    the error of the third attempt is thrown whatever it is.  Every failed
    attempt is logged, and what a failed attempt did to the tables stays. *)
Theorem withDatabaseRetry_retries_connection_errors_only :
  forall (A : Type) (operation : M A) (w : World),
    let retried := withDatabaseRetry operation w in
    (forall a w1, operation w = (Ok a, w1) -> retried = (Ok a, w1)) /\
    (forall e w1,
        operation w = (Throw e, w1) -> is_connection_error e = false ->
        retried = (Throw e, attempt_logged w1)) /\
    (forall e1 w1,
        operation w = (Throw e1, w1) -> is_connection_error e1 = true ->
        (forall a w2,
            operation (attempt_logged w1) = (Ok a, w2) -> retried = (Ok a, w2)) /\
        (forall e w2,
            operation (attempt_logged w1) = (Throw e, w2) ->
            is_connection_error e = false ->
            retried = (Throw e, attempt_logged w2)) /\
        (forall e2 w2,
            operation (attempt_logged w1) = (Throw e2, w2) ->
            is_connection_error e2 = true ->
            (forall a w3,
                operation (attempt_logged w2) = (Ok a, w3) ->
                retried = (Ok a, w3)) /\
            (forall e3 w3,
                operation (attempt_logged w2) = (Throw e3, w3) ->
                retried = (Throw e3, attempt_logged w3)))).
Proof.
  intros A operation w retried. unfold retried, withDatabaseRetry.
  rewrite retry_from_step.
  split; [| split].
  - intros a w1 ->. reflexivity.
  - intros e w1 -> ->. reflexivity.
  - intros e1 w1 -> ->. cbn [andb Nat.ltb Nat.leb].
    change (1 <? 3)%nat with true. cbn iota.
    rewrite retry_from_step.
    split; [| split].
    + intros a w2 ->. reflexivity.
    + intros e w2 -> ->. reflexivity.
    + intros e2 w2 -> ->. change (2 <? 3)%nat with true. cbn [andb].
      rewrite retry_from_step.
      split.
      * intros a w3 ->. reflexivity.
      * intros e3 w3 ->. change (3 <? 3)%nat with false.
        now rewrite andb_false_r.
Qed.

Lemma withDatabaseRetry_retries_connection_errors_only_witness :
  let w :=
    mkWorld Sample.db_liked [] 1000 [Some "read ECONNRESET"; None] [] [] [] in
  fst (withDatabaseRetry (getPhoto 21) w) = Ok (Some (Sample.photo 21 (Some false)))
  /\
  w_trace (snd (withDatabaseRetry (getPhoto 21) w)) =
    [ConsoleError "Database operation failed:"].
Proof.
  intros w.
  destruct (withDatabaseRetry_retries_connection_errors_only (getPhoto 21) w)
    as (_ & _ & Hretry).
  destruct (Hretry "read ECONNRESET"
              (mkWorld Sample.db_liked [] 1000 [None] [] [] []) eq_refl eq_refl)
    as (Hsecond & _).
  rewrite (Hsecond (Some (Sample.photo 21 (Some false)))
             (mkWorld Sample.db_liked [] 1000 [] [] []
                [ConsoleError "Database operation failed:"]) eq_refl).
  split; reflexivity.
Defined.

(** ** Blob keys (photo-model.ts) *)

Lemma includes_char (c : ascii) (s : string) :
  Js.includes (String c EmptyString) s = Js.has_char c s.
Proof.
  unfold Js.includes. induction s as [| b s IH]; [reflexivity |].
  cbn [String.index String.prefix Js.has_char].
  destruct (ascii_dec c b) as [<- | Hneq].
  - rewrite Ascii.eqb_refl.
    assert (Hp : String.prefix "" s = true) by now destruct s.
    now rewrite Hp.
  - assert (Hb : Ascii.eqb b c = false).
    { apply Ascii.eqb_neq. congruence. }
    rewrite Hb. cbn [orb]. rewrite <- IH.
    now destruct (String.index 0 (String c EmptyString) s).
Qed.

Lemma split_pop_has_no_separator (sep : ascii) (s : string) :
  Js.has_char sep (Js.split_pop sep s) = false.
Proof.
  induction s as [| c s IH]; [reflexivity |].
  cbn [Js.split_pop]. destruct (Ascii.eqb c sep) eqn:E; [exact IH |].
  destruct (Js.has_char sep s) eqn:H; [exact IH |].
  cbn [Js.has_char]. now rewrite E, H.
Qed.

Lemma blob_key_shape filePath :
  exists name,
    blob_key filePath = ("uploads/" ++ name)%string /\
    Js.has_char "/" name = false /\
    (Js.has_char "/" filePath = false -> name = filePath).
Proof.
  unfold blob_key. rewrite (includes_char "/" filePath).
  destruct (Js.has_char "/" filePath) eqn:E.
  - exists (Js.split_pop "/" filePath).
    split; [reflexivity |]. split; [apply split_pop_has_no_separator |].
    discriminate.
  - exists filePath. now repeat split.
Qed.

(** X12: [deletePhotoFromFirebaseStorage] never throws and never touches
    the tables; it addresses exactly one blob, under a key made of the
    prefix [uploads/] and a name without [/]: the stored path itself when
    that has no [/], its last segment otherwise.  No other blob is removed,
    and a failure of the blob store is logged and swallowed. *)
Theorem deletePhotoFromFirebaseStorage_addresses_one_upload :
  forall filePath w,
    let run := deletePhotoFromFirebaseStorage filePath w in
    fst run = Ok tt /\
    w_db (snd run) = w_db w /\
    (exists name,
        blob_key filePath = ("uploads/" ++ name)%string /\
        Js.has_char "/" name = false /\
        (Js.has_char "/" filePath = false -> name = filePath)) /\
    (exists t,
        w_trace (snd run) = w_trace w ++ t /\
        attempted_keys t = [blob_key filePath]) /\
    (forall key, In key (w_blobs w) -> key <> blob_key filePath ->
                 In key (w_blobs (snd run))).
Proof.
  intros filePath w run. unfold run.
  unfold deletePhotoFromFirebaseStorage, try_catch, blob_delete.
  fold (blob_key filePath).
  split; [now destruct (w_blobFaults w) as [| [|] later] |].
  split; [now destruct (w_blobFaults w) as [| [|] later] |].
  split; [apply blob_key_shape |].
  split.
  - destruct (w_blobFaults w) as [| [|] later]; cbn -[blob_key];
      eexists; (split; [rewrite <- ?app_assoc; reflexivity | reflexivity]).
  - intros key Hin Hneq.
    destruct (w_blobFaults w) as [| [|] later]; cbn -[blob_key]; auto;
      apply filter_In; (split; [exact Hin |]);
      apply negb_true_iff; now apply String.eqb_neq.
Qed.

Lemma string_app_inj (a b c : string) :
  (a ++ b)%string = (a ++ c)%string -> b = c.
Proof.
  induction a as [| x a IH]; cbn; [auto |].
  intros [= H]. now apply IH.
Qed.

(** X13: with the blob store working, a photo saved under a file name
    without [/] is stored under [uploads/<name>], the path handed back is
    the name, and deleting by that path removes the blob again.  For a
    file name with a [/] the deletion addresses another key and the blob
    stays. *)
Theorem save_then_delete_blob :
  forall fileName w,
    w_blobFaults w = [] ->
    let saved := savePhotoToFirebaseStorage fileName w in
    let key := ("uploads/" ++ fileName)%string in
    fst saved = Ok fileName /\
    In key (w_blobs (snd saved)) /\
    (Js.has_char "/" fileName = false ->
     ~ In key (w_blobs (snd (deletePhotoFromFirebaseStorage fileName (snd saved))))) /\
    (Js.has_char "/" fileName = true ->
     In key (w_blobs (snd (deletePhotoFromFirebaseStorage fileName (snd saved))))).
Proof.
  intros fileName w Hf saved key. unfold saved.
  unfold savePhotoToFirebaseStorage, try_catch, bind, blob_save. rewrite Hf.
  cbn [fst snd ret w_blobs tl].
  split; [reflexivity |]. split; [now left |].
  unfold deletePhotoFromFirebaseStorage, try_catch, blob_delete.
  fold (blob_key fileName). cbn [w_blobFaults tl snd w_blobs].
  split.
  - intros Hplain Hin. apply filter_In in Hin as [_ Hneq].
    destruct (blob_key_shape fileName) as (name & Hkey & _ & Hname).
    rewrite Hkey, (Hname Hplain) in Hneq. fold key in Hneq.
    now rewrite String.eqb_refl in Hneq.
  - intros Hslash. apply filter_In. split; [now left |].
    apply negb_true_iff, String.eqb_neq. intros Heq.
    destruct (blob_key_shape fileName) as (name & Hkey & Hno & _).
    rewrite Hkey in Heq. apply string_app_inj in Heq. congruence.
Qed.

Lemma save_then_delete_blob_witness :
  let w := Sample.world Sample.db_liked 1000 [] in
  ~ In "uploads/photo-7.png"
      (w_blobs (snd (deletePhotoFromFirebaseStorage "photo-7.png"
                       (snd (savePhotoToFirebaseStorage "photo-7.png" w))))) /\
  In "uploads/photo-7.a/b"
     (w_blobs (snd (deletePhotoFromFirebaseStorage "photo-7.a/b"
                      (snd (savePhotoToFirebaseStorage "photo-7.a/b" w))))).
Proof.
  intros w.
  destruct (@save_then_delete_blob "photo-7.png" w eq_refl)
    as (_ & _ & Hgone & _).
  destruct (@save_then_delete_blob "photo-7.a/b" w eq_refl)
    as (_ & _ & _ & Hstays).
  exact (conj (Hgone eq_refl) (Hstays eq_refl)).
Defined.

(** ** Listing sessions (DatabaseSessionStore.entries, has, getUserSessions) *)

Lemma filter_session_unique (l : list Session) (s : Session) :
  NoDup (map s_id l) -> In s l -> filter (session_is (s_id s)) l = [s].
Proof.
  induction l as [| y l IH]; cbn [map filter In]; intros Hnd Hin.
  - contradiction.
  - inversion Hnd as [| ? ? Hnotin Hnd']; subst. unfold session_is at 1.
    destruct Hin as [-> | Hin].
    + rewrite String.eqb_refl. f_equal.
      apply filter_none; intros z Hz.
      apply String.eqb_neq. intros Heq. apply Hnotin. rewrite <- Heq.
      now apply in_map.
    + destruct (String.eqb_spec (s_id y) (s_id s)) as [Heq | Hneq].
      * exfalso. apply Hnotin. rewrite Heq. now apply in_map.
      * now apply IH.
Qed.

Lemma entries_quiet w :
  quiet w ->
  DatabaseSessionStore.entries w =
    (Ok (map (fun s => (s_id s, DatabaseSessionStore.session_data s))
           (filter (fun s => (w_now w <? s_expiresAt s)%Z) (sessions (w_db w)))),
     w).
Proof.
  intros Hq. unfold DatabaseSessionStore.entries, try_catch, bind.
  now rewrite db_query_quiet.
Qed.

Lemma getUserSessions_quiet userId w :
  quiet w ->
  DatabaseSessionStore.getUserSessions userId w =
    (Ok (map DatabaseSessionStore.session_data
           (filter (fun s => (w_now w <? s_expiresAt s)%Z)
              (filter (fun s => (s_userId s =? userId)%Z) (sessions (w_db w))))),
     w).
Proof.
  intros Hq. unfold DatabaseSessionStore.getUserSessions, try_catch, bind.
  now rewrite db_query_quiet.
Qed.

Lemma entries_live w :
  wp DatabaseSessionStore.entries
     (fun l _ => forall sessionId data,
                   In (sessionId, data) l -> w_now w < expiresAt data)
     (fun _ _ => False) w.
Proof.
  unfold DatabaseSessionStore.entries.
  apply wp_try_catch, wp_bind, wp_db_stmt.
  - intros msg. cbn. intros sessionId data [].
  - cbn [fst snd]. apply wp_bind, wp_Date_now. cbn.
    intros sessionId data Hin.
    apply in_map_iff in Hin as (s & [= <- <-] & Hs).
    apply filter_In in Hs as [_ Hs]. cbn. now apply Z.ltb_lt.
Qed.

(** X14: [entries] never throws and, whatever fails, lists only sessions
    whose expiry lies strictly after the current time.  With no storage
    failure and session ids unique: a stored session with a later expiry
    is listed by [entries], returned unchanged by [get], reported by [has]
    and listed by [getUserSessions] for its account; a session that
    expires at exactly the current time is still returned by [get] but
    listed by neither [entries] nor [getUserSessions]. *)
Theorem entries_lists_the_live_sessions :
  forall w,
    (exists l, fst (DatabaseSessionStore.entries w) = Ok l) /\
    (forall l sessionId data,
        fst (DatabaseSessionStore.entries w) = Ok l ->
        In (sessionId, data) l -> w_now w < expiresAt data) /\
    (quiet w ->
     NoDup (map s_id (sessions (w_db w))) ->
     forall s l mine,
       In s (sessions (w_db w)) ->
       fst (DatabaseSessionStore.entries w) = Ok l ->
       fst (DatabaseSessionStore.getUserSessions (s_userId s) w) = Ok mine ->
       let data := DatabaseSessionStore.session_data s in
       (w_now w < s_expiresAt s ->
        In (s_id s, data) l /\ In data mine /\
        DatabaseSessionStore.get (s_id s) w = (Ok (Some data), w) /\
        fst (DatabaseSessionStore.has (s_id s) w) = Ok true) /\
       (s_expiresAt s = w_now w ->
        ~ In (s_id s, data) l /\ ~ In data mine /\
        DatabaseSessionStore.get (s_id s) w = (Ok (Some data), w))).
Proof.
  intros w. split; [apply try_catch_total |]. split.
  - intros l sessionId data Hrun.
    pose proof (wp_run _ _ _ _ (entries_live w)) as H. rewrite Hrun in H.
    apply H.
  - intros Hq Hnd s l mine Hs Hl Hmine data.
    rewrite entries_quiet in Hl by exact Hq.
    rewrite getUserSessions_quiet in Hmine by exact Hq.
    cbn [fst] in Hl, Hmine. injection Hl as <-. injection Hmine as <-.
    assert (Hstored : stored_session (s_id s) (w_db w) = Some s).
    { unfold stored_session. now rewrite filter_session_unique. }
    split.
    + intros Hlive.
      assert (Hget : DatabaseSessionStore.get (s_id s) w = (Ok (Some data), w)).
      { apply get_unexpired_quiet; [exact Hq | exact Hstored | lia]. }
      split; [| split; [| split]].
      * apply in_map_iff. exists s. split; [reflexivity |].
        apply filter_In. split; [exact Hs | now apply Z.ltb_lt].
      * apply in_map. apply filter_In. split; [| now apply Z.ltb_lt].
        apply filter_In. split; [exact Hs | apply Z.eqb_refl].
      * exact Hget.
      * unfold DatabaseSessionStore.has, try_catch, bind. now rewrite Hget.
    + intros Hedge. split; [| split].
      * intros Hin. apply in_map_iff in Hin as (s' & [= _ _ _ He] & Hs').
        apply filter_In in Hs' as [_ Hlive]. apply Z.ltb_lt in Hlive. lia.
      * intros Hin. apply in_map_iff in Hin as (s' & Hdata & Hs').
        apply filter_In in Hs' as [_ Hlive]. apply Z.ltb_lt in Hlive.
        unfold data, DatabaseSessionStore.session_data in Hdata.
        injection Hdata as _ _ He. lia.
      * apply get_unexpired_quiet; [exact Hq | exact Hstored | lia].
Qed.

Lemma entries_lists_the_live_sessions_witness :
  let w := Sample.world Sample.db_near_expiry 1060000 [] in
  fst (DatabaseSessionStore.entries w) = Ok [] /\
  DatabaseSessionStore.get "s1" w = (Ok (Some (mkSessionData 7 "alice" 1060000)), w).
Proof.
  intros w.
  destruct (entries_lists_the_live_sessions w) as (_ & _ & Hquiet).
  assert (Hnd : NoDup (map s_id (sessions (w_db w)))).
  { repeat constructor. intros []. }
  destruct (Hquiet eq_refl Hnd (mkSession "s1" 7 "alice" 1060000) [] []
              (or_introl eq_refl) eq_refl eq_refl)
    as [_ Hedge].
  destruct (Hedge eq_refl) as (_ & _ & Hget).
  split; [reflexivity | exact Hget].
Defined.

(** ** Ephemeral demo accounts: creation (DemoUserService) *)

#[export] Instance grants_to_preorder userId : DbPreorder (grants_to userId).
Proof.
  split.
  - intros d. do 5 (split; [reflexivity |]).
    exists []. split; [now rewrite app_nil_r | intros o []].
  - intros d1 d2 d3 (Hu & Hs & Hc & Hp & Hq & a & Ho & Ha)
      (Hu' & Hs' & Hc' & Hp' & Hq' & a' & Ho' & Ha').
    do 5 (split; [congruence |]).
    exists (a ++ a'). split; [now rewrite Ho', Ho, app_assoc |].
    intros o Hin. apply in_app_iff in Hin as [Hin | Hin]; auto.
Qed.

Lemma steady_for_of_in (R : DB -> DB -> Prop) `{DbPreorder R} {A}
    (xs : list A) (body : A -> M unit) :
  (forall x, In x xs -> steady R (body x)) -> steady R (for_of xs body).
Proof.
  induction xs as [| x xs IH]; intros Hbody.
  - apply (@steady_ret R _).
  - cbn [for_of]. apply (@steady_bind R _).
    + apply Hbody. now left.
    + intros _. apply IH. intros y Hy. apply Hbody. now right.
Qed.

Lemma steady_grantAccessToProtectedCollections userId :
  steady (grants_to userId) (grantAccessToProtectedCollections userId).
Proof.
  unfold grantAccessToProtectedCollections.
  do 2 frame_step.
  match goal with
  | |- steady _ (match ?rows with _ => _ end) => destruct rows
  end; [frame |].
  apply steady_for_of_in; [typeclasses eauto |].
  intros collectionId Hin. unfold db_run. frame.
  apply (@steady_db_stmt (grants_to userId) _). intros tables.
  do 5 (split; [reflexivity |]).
  exists [mkOwner collectionId userId]. split; [reflexivity |].
  intros o [<- | []]. now split.
Qed.

Lemma prefixed_name_is_temporary (rest : string) :
  isTemporaryDemoUser (DEMO_USER_PREFIX ++ rest) = true.
Proof.
  unfold isTemporaryDemoUser, DEMO_USER_PREFIX. cbn.
  repeat match goal with
         | |- context [ascii_dec ?a ?a] =>
             destruct (ascii_dec a a) as [_ | Hne]; [| now destruct Hne]
         end.
  now destruct rest.
Qed.

Lemma createSession_run userId username w :
  quiet w ->
  exists sessionId w',
    AuthService.createSession userId username w = (Ok sessionId, w') /\
    quiet w' /\ w_now w' = w_now w /\ w_trace w' = w_trace w /\
    w_db w' =
      Sql.upsert_session
        (mkSession sessionId userId username (w_now w + SESSION_DURATION))
        (w_db w).
Proof.
  intros Hq.
  unfold AuthService.createSession, AuthService.generateSessionId, bind,
    Math_random.
  destruct (w_random w) as [| r rest] eqn:R.
  - exists "". eexists. cbn [Date_now]. rewrite set_quiet by exact Hq.
    split; [reflexivity |]. now repeat split.
  - exists r. eexists. cbn [Date_now]. rewrite set_quiet by exact Hq.
    split; [reflexivity |]. now repeat split.
Qed.

Lemma upsert_session_same s d :
  users (Sql.upsert_session s d) = users d /\
  collections (Sql.upsert_session s d) = collections d /\
  collectionOwners (Sql.upsert_session s d) = collectionOwners d /\
  photos (Sql.upsert_session s d) = photos d.
Proof.
  unfold Sql.upsert_session. now destruct (Sql.mem_str _ _).
Qed.

Lemma upsert_session_partnerships s d :
  partnerships (Sql.upsert_session s d) = partnerships d.
Proof.
  unfold Sql.upsert_session. now destruct (Sql.mem_str _ _).
Qed.

Lemma upsert_session_sessions s d d' :
  sessions d' = sessions d ->
  sessions (Sql.upsert_session s d') = sessions (Sql.upsert_session s d).
Proof.
  intros H. unfold Sql.upsert_session. rewrite H.
  now destruct (Sql.mem_str _ _).
Qed.

Lemma createTemporaryDemoUser_quiet w :
  quiet w ->
  wp createTemporaryDemoUser
     (fun r w' =>
        quiet w' /\ w_now w' = w_now w /\
        exists user sessionId,
          r = (user, sessionId) /\
          u_id user = users_seq (w_db w) /\
          isTemporaryDemoUser (u_username user) = true /\
          users (w_db w') = users (w_db w) ++ [user] /\
          stored_session sessionId (w_db w') =
            Some (mkSession sessionId (u_id user) (u_username user)
                    (w_now w + SESSION_DURATION)) /\
          (exists t,
              w_trace w' =
                t ++ [Scheduled (10 * 60 * 1000) (u_id user) sessionId]) /\
          collections (w_db w') = collections (w_db w) /\
          photos (w_db w') = photos (w_db w) /\
          partnerships (w_db w') = partnerships (w_db w) /\
          sessions (w_db w') =
            sessions
              (Sql.upsert_session
                 (mkSession sessionId (u_id user) (u_username user)
                    (w_now w + SESSION_DURATION)) (w_db w)) /\
          exists added,
            collectionOwners (w_db w') = collectionOwners (w_db w) ++ added /\
            forall o, In o added ->
                      o_userId o = u_id user /\ protected (o_collectionId o))
     (fun _ _ => False) w.
Proof.
  intros Hq. set (d := w_db w).
  unfold createTemporaryDemoUser, generateDemoUsername.
  apply wp_try_catch, wp_bind, wp_bind, wp_Date_now, wp_bind.
  unfold wp at 1, Math_random.
  set (w0 := match w_random w with
             | r :: rest => with_random w rest
             | [] => w
             end).
  set (token := match w_random w with r :: _ => r | [] => "" end).
  assert (Hrandom :
    match w_random w with
    | r :: rest => (Ok r, with_random w rest)
    | [] => (Ok "", w)
    end = (Ok token, w0)).
  { unfold token, w0. now destruct (w_random w). }
  rewrite Hrandom.
  assert (Hq0 : quiet w0) by (unfold w0; now destruct (w_random w)).
  assert (Hdb0 : w_db w0 = d) by (unfold w0; now destruct (w_random w)).
  assert (Hnow0 : w_now w0 = w_now w) by (unfold w0; now destruct (w_random w)).
  apply wp_ret. cbv zeta. apply wp_bind. unfold db_exec.
  apply wp_db_stmt_quiet; [exact Hq0 |]. cbn [fst snd Sql.insert_user].
  rewrite Hdb0.
  set (user := mkUser (users_seq d) _ _).
  apply wp_bind.
  eapply (@steady_wp (grants_to (u_id user)));
    [apply steady_grantAccessToProtectedCollections
    | now apply quiet_after_stmt |].
  intros [] w1 Hq1 Hnow1 (Hu1 & Hs1 & Hc1 & Hp1 & Hpt1 & added & Ho1 & Hadded).
  cbn [w_db after_stmt users sessions collections photos collectionOwners
       w_now] in *.
  apply wp_bind.
  destruct (createSession_run (u_id user) (u_username user) Hq1)
    as (sessionId & w2 & Hrun & Hq2 & Hnow2 & Ht2 & Hdb2).
  unfold wp at 1. rewrite Hrun.
  apply wp_bind, wp_emit, wp_ret.
  split; [exact Hq2 |]. split; [cbn [w_now]; congruence |].
  exists user, sessionId. cbn [w_db w_trace].
  destruct (upsert_session_same
              (mkSession sessionId (u_id user) (u_username user)
                 (w_now w1 + SESSION_DURATION)) (w_db w1))
    as (Hu2 & Hc2 & Ho2 & Hp2).
  rewrite Hdb2.
  split; [reflexivity |]. split; [reflexivity |].
  split; [apply prefixed_name_is_temporary |].
  split; [now rewrite Hu2, Hu1 |].
  split.
  { replace (w_now w + SESSION_DURATION) with (w_now w1 + SESSION_DURATION)
      by (f_equal; congruence).
    apply (stored_session_upsert (mkSession sessionId _ _ _)). }
  split; [now exists (w_trace w2) |].
  split; [now rewrite Hc2, Hc1 |]. split; [now rewrite Hp2, Hp1 |].
  split; [now rewrite upsert_session_partnerships, Hpt1 |].
  split.
  { replace (w_now w + SESSION_DURATION) with (w_now w1 + SESSION_DURATION)
      by (f_equal; congruence).
    now apply upsert_session_sessions. }
  exists added. split; [now rewrite Ho2, Ho1 | exact Hadded].
Qed.

(** X15: with no storage failure, [createTemporaryDemoUser] adds one
    account, under the next id of the sequence and with a name that
    [isTemporaryDemoUser] recognises, stores a session for it that expires
    [SESSION_DURATION] (10 minutes) later, and schedules the teardown of
    exactly that account and session after the same delay; collections and
    photos are untouched, and every ownership row added ties the new
    account to a collection of the protected allowlist. *)
Theorem createTemporaryDemoUser_creates_a_recognised_account :
  forall w,
    quiet w ->
    let run := createTemporaryDemoUser w in
    let d := w_db w in
    let d' := w_db (snd run) in
    exists user sessionId,
      fst run = Ok (user, sessionId) /\
      u_id user = users_seq d /\
      isTemporaryDemoUser (u_username user) = true /\
      users d' = users d ++ [user] /\
      stored_session sessionId d' =
        Some (mkSession sessionId (u_id user) (u_username user)
                (w_now w + SESSION_DURATION)) /\
      (exists t,
          w_trace (snd run) =
            t ++ [Scheduled (10 * 60 * 1000) (u_id user) sessionId]) /\
      collections d' = collections d /\ photos d' = photos d /\
      (forall o, In o (collectionOwners d') ->
                 In o (collectionOwners d) \/
                 (o_userId o = u_id user /\ protected (o_collectionId o))).
Proof.
  intros w Hq run d d'.
  pose proof (wp_run _ _ _ _ (createTemporaryDemoUser_quiet Hq)) as H.
  fold run in H. destruct (fst run) as [r | e]; [| destruct H].
  destruct H as (_ & _ & user & sessionId & -> & Hid & Hname & Hu & Hs & Ht &
                   Hc & Hp & _ & _ & added & Ho & Hadded).
  exists user, sessionId. do 8 (split; [assumption || reflexivity |]).
  intros o Hin. fold d' in Ho. rewrite Ho in Hin.
  apply in_app_iff in Hin as [Hin | Hin]; [now left | right; auto].
Qed.

Lemma createTemporaryDemoUser_creates_a_recognised_account_witness :
  exists user sessionId,
    fst (createTemporaryDemoUser
           (Sample.world Sample.db_grant_all 1700000000000 ["ab12cd"; "s9"])) =
      Ok (user, sessionId) /\
    u_id user = 5 /\
    isTemporaryDemoUser (u_username user) = true.
Proof.
  destruct (@createTemporaryDemoUser_creates_a_recognised_account
              (Sample.world Sample.db_grant_all 1700000000000 ["ab12cd"; "s9"])
              eq_refl)
    as (user & sessionId & Hrun & Hid & Hname & _).
  exists user, sessionId. split; [exact Hrun |]. split; [exact Hid | exact Hname].
Defined.

(** ** Ephemeral demo accounts: teardown (DemoUserService) *)

#[export] Instance keeps_shared_preorder userId sessionId :
  DbPreorder (keeps_shared userId sessionId).
Proof.
  split.
  - intros d. split; [apply incl_refl |]. repeat split; auto.
  - intros d1 d2 d3 (Hi & Hu & Hs & Hc & Hp & Ho) (Hi' & Hu' & Hs' & Hc' & Hp' & Ho').
    split; [eapply incl_tran; eauto |].
    split; [auto |]. split; [auto |]. split; [auto |].
    split; [eauto |].
    intros o Hin Hprot Hother Hfree.
    apply Ho'; auto; intros c Hc2; apply Hfree; now apply Hi.
Qed.

Section KeepsShared.

Variable userId : Z.
Variable sessionId : option string.

Section NonProtectedIds.

Variable ids : list Z.
Hypothesis ids_free : forall id, In id ids -> ~ protected id.

Lemma not_listed id : protected id -> Sql.mem id ids = false.
Proof.
  intros Hprot. destruct (Sql.mem id ids) eqn:E; [| reflexivity].
  apply mem_In in E. now apply ids_free in E.
Qed.

Lemma shared_delete_photos d :
  keeps_shared userId sessionId d (Sql.delete_photos (in_collections ids) d).
Proof.
  split; [apply incl_refl |]. repeat split; auto.
  intros p id Hin Hcol Hprot _. cbn -[Sql.keep]. apply keep_In.
  split; [exact Hin |]. unfold in_collections. rewrite Hcol.
  now apply not_listed.
Qed.

Lemma shared_delete_owners d :
  keeps_shared userId sessionId d
    (Sql.delete_collectionOwners (fun o => Sql.mem (o_collectionId o) ids) d).
Proof.
  split; [apply incl_refl |]. repeat split; auto.
  intros o Hin Hprot _ _. cbn -[Sql.keep]. apply keep_In.
  split; [exact Hin |]. now apply not_listed.
Qed.

Lemma shared_delete_collections d :
  keeps_shared userId sessionId d
    (Sql.delete_collections (fun c => Sql.mem (c_id c) ids) d).
Proof.
  split; [cbn -[Sql.keep]; apply incl_keep |].
  split; [auto |]. split; [auto |]. split; [| split; [auto |]].
  - intros c Hin Hprot _. cbn -[Sql.keep]. apply keep_In.
    split; [exact Hin |]. now apply not_listed.
  - intros o Hin Hprot _ _. cbn -[Sql.keep Sql.mem]. apply keep_In.
    split; [exact Hin |].
    match goal with |- ?b = false => destruct b eqn:E end; [| reflexivity].
    apply mem_In, in_map_iff in E as (c & Hid & Hc).
    apply filter_In in Hc as [_ Hc]. apply mem_In in Hc.
    rewrite Hid in Hc. now apply ids_free in Hc.
Qed.

Lemma shared_cleanup_steps :
  always (keeps_shared userId sessionId)
    (cleanupPhotosFromFirebaseStorage ids ;;
     cleanupPhotosFromDatabase ids ;;
     cleanupCollectionOwnerships ids ;;
     cleanupCollectionsFromDatabase ids).
Proof.
  unfold cleanupPhotosFromFirebaseStorage, cleanupPhotosFromDatabase,
    cleanupCollectionOwnerships, cleanupCollectionsFromDatabase,
    db_delete, db_run.
  frame;
    try apply always_deletePhotoFromFirebaseStorage;
    try typeclasses eauto;
    apply always_db_stmt; try typeclasses eauto; intros d; cbn [snd].
  - apply shared_delete_photos.
  - apply shared_delete_owners.
  - apply shared_delete_collections.
Qed.

End NonProtectedIds.

Lemma shared_cleanupUserCollectionsAndPhotos :
  always (keeps_shared userId sessionId)
    (cleanupUserCollectionsAndPhotos userId).
Proof.
  unfold cleanupUserCollectionsAndPhotos.
  frame_step; [| frame]. frame_step. cbv zeta.
  match goal with
  | |- always _ (match ?rows with _ => _ end) =>
      assert (Hfree : forall id, In id (map fst rows) -> ~ protected id)
  end.
  { intros id Hin Hprot. apply in_map_iff in Hin as (r & <- & Hr).
    apply filter_In in Hr as [_ Hr]. apply negb_true_iff in Hr.
    apply mem_In in Hprot. congruence. }
  match goal with
  | |- always _ (match ?rows with _ => _ end) =>
      destruct rows as [| row rows'] eqn:E
  end.
  - frame.
  - apply shared_cleanup_steps. exact Hfree.
Qed.

Lemma shared_delete_own_ownership collectionId d :
  keeps_shared userId sessionId d
    (Sql.delete_collectionOwners (owner_is userId collectionId) d).
Proof.
  split; [apply incl_refl |]. repeat split; auto.
  intros o Hin _ Hother _. cbn -[Sql.keep]. apply keep_In.
  split; [exact Hin |]. unfold owner_is.
  apply andb_false_iff. left. now apply Z.eqb_neq.
Qed.

Lemma shared_removeProtectedCollectionOwnerships :
  always (keeps_shared userId sessionId)
    (removeProtectedCollectionOwnerships userId).
Proof.
  unfold removeProtectedCollectionOwnerships, db_run.
  frame; apply always_db_stmt; try typeclasses eauto; intros d; cbn [snd];
    apply shared_delete_own_ownership.
Qed.

(** Deleting sessions spares, by cascade, what is tied to no session. *)
Lemma shared_delete_sessions (P : Session -> bool) d :
  (forall s, s_userId s <> userId -> Some (s_id s) <> sessionId -> P s = false) ->
  keeps_shared userId sessionId d (Sql.delete_sessions P d).
Proof.
  intros HP.
  split; [cbn -[Sql.keep]; apply incl_keep |].
  split; [auto |]. split; [| split; [| split]].
  - intros s Hin Hother Hsid. cbn -[Sql.keep]. apply keep_In.
    split; [exact Hin | now apply HP].
  - intros c Hin _ Hnull. cbn -[Sql.keep]. apply keep_In.
    split; [exact Hin |]. now rewrite Hnull.
  - intros p id Hin _ _ Hnull. cbn -[Sql.keep]. apply keep_In.
    split; [exact Hin |]. now rewrite Hnull.
  - intros o Hin _ _ Hfree. cbn -[Sql.keep Sql.mem Sql.inArray_str].
    apply keep_In. split; [exact Hin |].
    match goal with |- ?b = false => destruct b eqn:E end; [| reflexivity].
    apply mem_In, in_map_iff in E as (c & Hid & Hc).
    apply filter_In in Hc as [Hc Htied].
    rewrite (Hfree c Hc Hid) in Htied. discriminate Htied.
Qed.

Lemma shared_delete_users d :
  keeps_shared userId sessionId d (Sql.delete_users (user_is userId) d).
Proof.
  set (gone := map u_id (filter (user_is userId) (users d))).
  assert (Hgone : forall id, Sql.mem id gone = true -> id = userId).
  { intros id Hid. apply mem_In, in_map_iff in Hid as (u & <- & Hu).
    apply filter_In in Hu as [_ Hu]. now apply Z.eqb_eq in Hu. }
  assert (Hspared : forall id, id <> userId -> Sql.mem id gone = false).
  { intros id Hid. destruct (Sql.mem id gone) eqn:E; [| reflexivity].
    now apply Hgone in E. }
  unfold Sql.delete_users. fold gone.
  eapply db_trans; [| apply shared_delete_sessions].
  - split; [apply incl_refl |].
    split; [| split; [auto |]; split; [auto |]; split; [auto |]].
    + intros u Hin Hother. cbn -[Sql.keep]. apply keep_In.
      split; [exact Hin |]. unfold user_is. now apply Z.eqb_neq.
    + intros o Hin _ Hother _. cbn -[Sql.keep Sql.mem]. apply keep_In.
      split; [exact Hin | now apply Hspared].
  - intros s Hother _. now apply Hspared.
Qed.

End KeepsShared.

Lemma shared_cleanupTemporaryDemoUser userId sessionId :
  always (keeps_shared userId sessionId)
    (cleanupTemporaryDemoUser userId sessionId).
Proof.
  unfold cleanupTemporaryDemoUser.
  frame_step; [| frame].
  frame_step. frame_step; [apply shared_cleanupUserCollectionsAndPhotos |].
  frame_step; [apply shared_removeProtectedCollectionOwnerships |].
  frame_step.
  - destruct sessionId as [sid |]; [| frame].
    destruct (Js.truthy sid); [| frame].
    frame_step; [| frame]. unfold db_delete.
    apply always_db_stmt; [typeclasses eauto |]. intros tables. cbn [snd].
    apply shared_delete_sessions. intros s _ Hsid. unfold session_is.
    apply String.eqb_neq. congruence.
  - unfold db_delete.
    apply always_db_stmt; [typeclasses eauto |]. intros tables. cbn [snd].
    apply shared_delete_users.
Qed.

(** X16: whatever the tables hold and whatever fails on the way, the
    teardown [cleanupTemporaryDemoUser userId sessionId] returns normally
    and leaves alone every other account, every session of another account
    (other than the session handed in), every protected collection that is
    tied to no session, every photo in such a collection that is tied to no
    session, and every ownership row that ties another account to such a
    collection; it adds or changes no collection row. *)
Theorem cleanupTemporaryDemoUser_keeps_what_is_shared :
  forall w userId sessionId,
    let run := cleanupTemporaryDemoUser userId sessionId w in
    fst run = Ok tt /\
    keeps_shared userId sessionId (w_db w) (w_db (snd run)).
Proof.
  intros w userId sessionId run. split.
  - apply try_catch_log_total.
  - pose proof (wp_run _ _ _ _
                  (shared_cleanupTemporaryDemoUser userId sessionId w)) as H.
    fold run in H. now destruct (fst run).
Qed.

(** ** The authentication middleware (AuthController.requireAuth) *)

Lemma get_some sessionId w :
  wp (DatabaseSessionStore.get sessionId)
     (fun r w' =>
        forall data,
          r = Some data ->
          w_db w' = w_db w /\ w_now w' = w_now w /\
          exists s,
            stored_session sessionId (w_db w) = Some s /\
            data = DatabaseSessionStore.session_data s /\
            w_now w <= s_expiresAt s)
     (fun _ _ => False) w.
Proof.
  unfold DatabaseSessionStore.get.
  apply wp_try_catch, wp_bind, wp_db_stmt.
  - intros msg. cbn. discriminate.
  - cbn [fst snd]. rewrite limit_1_hd. fold (stored_session sessionId (w_db w)).
    destruct (stored_session sessionId (w_db w)) as [s |] eqn:Hs.
    + apply wp_bind, wp_Date_now. cbn [w_now after_stmt].
      destruct (Z.ltb_spec (s_expiresAt s) (w_now w)) as [Hlt | Hge].
      * apply wp_bind, wp_trivial.
        -- intros a w'. cbn. discriminate.
        -- intros e w'. cbn. discriminate.
      * cbn. intros data [= <-]. repeat split. now exists s.
    + cbn. discriminate.
Qed.

Lemma getSession_some sessionId w :
  wp (AuthService.getSession sessionId)
     (fun r w' =>
        forall data,
          r = Some data ->
          w_now w' = w_now w /\ users (w_db w') = users (w_db w) /\
          exists s,
            stored_session sessionId (w_db w') = Some s /\
            s_userId s = userId data /\
            s_expiresAt s = expiresAt data /\
            w_now w + SESSION_REFRESH_THRESHOLD <= s_expiresAt s)
     (fun _ _ => True) w.
Proof.
  unfold AuthService.getSession. apply wp_bind.
  eapply wp_mono; [apply get_some | | intros e w' []].
  cbn beta. intros [data |] w1 H; [| cbn; discriminate].
  destruct (H data eq_refl) as (Hdb & Hnow & s & Hs & -> & Hlive).
  apply wp_bind, wp_Date_now.
  cbn [expiresAt DatabaseSessionStore.session_data].
  destruct (Z.ltb_spec (s_expiresAt s - w_now w1) SESSION_REFRESH_THRESHOLD)
    as [Hnear | Hfar].
  - apply wp_bind, wp_Date_now, wp_bind.
    unfold DatabaseSessionStore.set.
    apply wp_try_catch. unfold db_run. apply wp_db_stmt.
    + intros msg. now cbn.
    + cbn [fst snd]. apply wp_ret. intros data [= <-].
      cbn [w_now w_db after_stmt userId DatabaseSessionStore.session_data
           username expiresAt].
      split; [exact Hnow |].
      split; [rewrite <- Hdb; apply upsert_session_same |].
      eexists. split; [apply (stored_session_upsert (mkSession sessionId _ _ _)) |].
      cbn [s_userId s_expiresAt]. split; [reflexivity |].
      split; [reflexivity |].
      unfold SESSION_DURATION, SESSION_REFRESH_THRESHOLD. lia.
  - apply wp_ret. intros data [= <-].
    split; [exact Hnow |]. split; [now rewrite Hdb |].
    exists s. rewrite Hdb. repeat split; [exact Hs |]. lia.
Qed.

(** X17: whatever the tables hold and whatever fails on the way,
    [requireAuth] hands a request on only with the session id of its token
    and an account attached, and only when, at that moment, the account
    exists and a session with at least [SESSION_REFRESH_THRESHOLD]
    (2 minutes) left to live is stored under that id for that account: a
    session closer to its expiry has been extended first.  In every other
    case the middleware answers itself, with 401 or 500. *)
Theorem requireAuth_admits_only_live_sessions :
  forall w req,
    let run := AuthController.requireAuth req w in
    (forall req',
        fst run = Ok (inr req') ->
        exists sessionId,
          AuthController.token req = Some sessionId /\ sessionId <> "" /\
          admitted sessionId (w_now w) (w_db (snd run)) req') /\
    (forall response,
        fst run = Ok (inl response) ->
        response = status 401 \/ response = status 500) /\
    (exists r, fst run = Ok r).
Proof.
  intros w req run.
  assert (Hwp :
    wp (AuthController.requireAuth req)
       (fun r w' =>
          match r with
          | inr req' =>
              exists sessionId,
                AuthController.token req = Some sessionId /\ sessionId <> "" /\
                admitted sessionId (w_now w) (w_db w') req'
          | inl response => response = status 401 \/ response = status 500
          end)
       (fun _ _ => False) w).
  { unfold AuthController.requireAuth.
    destruct (AuthController.token req) as [sessionId |]; [| cbn; now left].
    destruct (Js.truthy sessionId) eqn:T; cbn [negb]; [| cbn; now left].
    assert (Hne : sessionId <> "").
    { intros ->. discriminate T. }
    apply wp_try_catch, wp_bind.
    eapply wp_mono; [apply getSession_some | |].
    - cbn beta. intros [data |] w1 H; [| cbn; now left].
      destruct (H data eq_refl) as (Hnow & Husers & s & Hs & Hid & _ & Hlive).
      apply wp_bind. unfold getUser. apply wp_bind, wp_db_stmt.
      + intros msg. cbn. now right.
      + cbn [fst snd]. apply wp_ret.
        destruct (hd_error (filter (user_is (userId data)) (users (w_db w1))))
          as [user |] eqn:Hu; [| cbn; now left].
        cbn. exists sessionId. split; [reflexivity |]. split; [exact Hne |].
        exists user, s. cbn.
        assert (Hin : In user (filter (user_is (userId data)) (users (w_db w1)))).
        { destruct (filter _ (users (w_db w1))); [discriminate Hu |].
          injection Hu as ->. now left. }
        apply filter_In in Hin as [Hin Huid]. apply Z.eqb_eq in Huid.
        repeat split; auto. congruence.
    - intros e w1 _. cbn. now right. }
  pose proof (wp_run _ _ _ _ Hwp) as H. fold run in H.
  destruct (fst run) as [[response | req'] | e]; [| | destruct H].
  - split; [discriminate |]. split; [| eauto]. now intros ? [= <-].
  - split; [| split; [discriminate | eauto]]. now intros ? [= <-].
Qed.

(** ** Cleanup of the permanent demo account (DemoCleanupService,
    routes/demo-cleanup.ts) *)

Lemma join_In (d : DB) c o :
  In (c, o) (Sql.collections_join_owners d) <->
  In c (collections d) /\ In o (collectionOwners d) /\
  o_collectionId o = c_id c.
Proof.
  unfold Sql.collections_join_owners. rewrite in_flat_map. split.
  - intros (c' & Hc & Hin). apply in_map_iff in Hin as (o' & [= <- <-] & Ho).
    apply filter_In in Ho as [Ho Hid]. apply Z.eqb_eq in Hid. now repeat split.
  - intros (Hc & Ho & Hid). exists c. split; [exact Hc |].
    apply in_map_iff. exists o. split; [reflexivity |].
    apply filter_In. split; [exact Ho | now apply Z.eqb_eq].
Qed.

Lemma owned_ids_In userId d id :
  In id (owned_ids userId d) <->
  exists c o,
    In c (collections d) /\ In o (collectionOwners d) /\
    o_collectionId o = c_id c /\ o_userId o = userId /\ c_id c = id.
Proof.
  unfold owned_ids. rewrite in_map_iff. split.
  - intros ([c o] & <- & Hr). apply filter_In in Hr as [Hr Hu].
    apply join_In in Hr as (Hc & Ho & Hid). apply Z.eqb_eq in Hu.
    exists c, o. now repeat split.
  - intros (c & o & Hc & Ho & Hid & Hu & <-). exists (c, o).
    split; [reflexivity |]. apply filter_In.
    split; [now apply join_In | now apply Z.eqb_eq].
Qed.

(** The four steps of a cleanup, with no storage failure. *)
Lemma cleanup_steps_quiet ids w :
  quiet w ->
  wp (cleanupPhotosFromFirebaseStorage ids ;;
      cleanupPhotosFromDatabase ids ;;
      cleanupCollectionOwnerships ids ;;
      cleanupCollectionsFromDatabase ids)
     (fun _ w' =>
        quiet w' /\ w_now w' = w_now w /\
        w_db w' =
          Sql.delete_collections (fun c => Sql.mem (c_id c) ids)
            (Sql.delete_collectionOwners
               (fun o => Sql.mem (o_collectionId o) ids)
               (Sql.delete_photos (in_collections ids) (w_db w))))
     (fun _ _ => False) w.
Proof.
  intros Hq.
  unfold cleanupPhotosFromFirebaseStorage, cleanupPhotosFromDatabase,
    cleanupCollectionOwnerships, cleanupCollectionsFromDatabase.
  apply wp_bind, wp_try_catch, wp_bind.
  apply wp_db_stmt_quiet; [exact Hq |]. cbn [fst snd].
  eapply wp_mono;
    [apply (delete_blobs_run
              (filter (in_collections ids) (photos (w_db w)))) | |
     intros e w' []].
  cbn beta. intros _ w1 (Hdb & Hf & Hnow & _).
  assert (Hq1 : quiet w1).
  { unfold quiet in *. rewrite Hf. cbn. now rewrite Hq. }
  cbn [w_db w_now after_stmt] in Hdb, Hnow.
  apply wp_bind, wp_try_catch. unfold db_delete.
  apply wp_db_stmt_quiet; [exact Hq1 |]. cbn [fst snd].
  apply wp_bind, wp_try_catch. unfold db_run.
  apply wp_db_stmt_quiet; [now apply quiet_after_stmt |]. cbn [fst snd].
  apply wp_try_catch.
  apply wp_db_stmt_quiet; [now apply quiet_after_stmt, quiet_after_stmt |].
  cbn [fst snd].
  split; [now apply quiet_after_stmt, quiet_after_stmt, quiet_after_stmt |].
  split; [exact Hnow |].
  cbn [w_db after_stmt]. now rewrite Hdb.
Qed.

(** After the three deletions no collection of [ids] is left in the
    join. *)
Lemma cleaned_owned_ids userId ids d id :
  In id
    (owned_ids userId
       (Sql.delete_collections (fun c => Sql.mem (c_id c) ids)
          (Sql.delete_collectionOwners
             (fun o => Sql.mem (o_collectionId o) ids)
             (Sql.delete_photos (in_collections ids) d)))) ->
  In id (owned_ids userId d) /\ ~ In id ids.
Proof.
  intros Hin. apply owned_ids_In in Hin as (c & o & Hc & Ho & Hid & Hu & <-).
  cbn -[Sql.keep Sql.mem] in Hc, Ho.
  apply keep_In in Hc as [Hc Hkept].
  apply keep_In in Ho as [Ho _]. apply keep_In in Ho as [Ho _].
  split.
  - apply owned_ids_In. exists c, o. now repeat split.
  - intros Hlisted. apply mem_In in Hlisted. congruence.
Qed.

Lemma cleanupDemoCollectionsAndPhotos_quiet demoUserId w :
  quiet w ->
  wp (cleanupDemoCollectionsAndPhotos demoUserId)
     (fun _ w' =>
        quiet w' /\ w_now w' = w_now w /\ users (w_db w') = users (w_db w) /\
        forall id, In id (owned_ids demoUserId (w_db w')) -> protected id)
     (fun _ _ => False) w.
Proof.
  intros Hq. unfold cleanupDemoCollectionsAndPhotos.
  apply wp_try_catch, wp_bind.
  apply wp_db_stmt_quiet; [exact Hq |]. cbn [fst snd].
  set (rows := map _ (filter _ (Sql.collections_join_owners (w_db w)))).
  assert (Hrows : forall id,
             In id (owned_ids demoUserId (w_db w)) -> ~ protected id ->
             In id (map fst rows)).
  { intros id Hin Hfree. unfold rows. rewrite map_map. cbn [fst].
    unfold owned_ids in Hin. apply in_map_iff in Hin as (r & <- & Hr).
    apply filter_In in Hr as [Hr Hu].
    apply in_map_iff. exists r. split; [reflexivity |].
    apply filter_In. split; [exact Hr |]. rewrite Hu. cbn [andb].
    apply negb_true_iff.
    destruct (Sql.mem (c_id (fst r)) PROTECTED_COLLECTION_IDS) eqn:E;
      [| reflexivity].
    apply mem_In in E. contradiction. }
  assert (Hdec : forall id, protected id \/ ~ protected id).
  { intros id. destruct (Sql.mem id PROTECTED_COLLECTION_IDS) eqn:E.
    - left. now apply mem_In.
    - right. intros H. apply mem_In in H. congruence. }
  destruct rows as [| row rows'] eqn:E.
  - apply wp_ret.
    split; [now apply quiet_after_stmt |]. split; [reflexivity |].
    split; [reflexivity |]. cbn [w_db after_stmt].
    intros id Hin. destruct (Hdec id) as [H | H]; [exact H |].
    destruct (Hrows id Hin H).
  - cbv zeta. rewrite <- E.
    eapply wp_mono;
      [apply cleanup_steps_quiet; now apply quiet_after_stmt | |
       intros e w' []].
    cbn beta. intros _ w1 (Hq1 & Hnow1 & Hdb1).
    cbn [w_db w_now after_stmt] in Hdb1, Hnow1.
    split; [exact Hq1 |]. split; [exact Hnow1 |].
    split; [now rewrite Hdb1 |].
    intros id Hin. rewrite Hdb1 in Hin.
    apply cleaned_owned_ids in Hin as [Hin Hnot].
    destruct (Hdec id) as [H | H]; [exact H |].
    apply Hrows in Hin; [| exact H]. rewrite <- E in Hin.
    destruct (Hnot Hin).
Qed.

Lemma cleanupDemoUserContent_quiet w :
  quiet w ->
  wp cleanupDemoUserContent
     (fun _ w' =>
        quiet w' /\ users (w_db w') = users (w_db w) /\
        forall demoUserId rest,
          demo_account (w_db w) = demoUserId :: rest ->
          forall id, In id (owned_ids demoUserId (w_db w')) -> protected id)
     (fun _ _ => False) w.
Proof.
  intros Hq. unfold cleanupDemoUserContent.
  apply wp_try_catch, wp_bind.
  apply wp_db_stmt_quiet; [exact Hq |]. cbn [fst snd].
  fold (demo_account (w_db w)).
  destruct (demo_account (w_db w)) as [| demoUserId rest].
  - apply wp_ret. split; [now apply quiet_after_stmt |].
    split; [reflexivity |]. discriminate.
  - eapply wp_mono;
      [apply cleanupDemoCollectionsAndPhotos_quiet; now apply quiet_after_stmt
      | | intros e w' []].
    cbn beta. intros _ w1 (Hq1 & _ & Hu1 & Hprot).
    split; [exact Hq1 |]. split; [exact Hu1 |].
    intros uid rest' [= <- _]. exact Hprot.
Qed.

Lemma filter_all {A} (P : A -> bool) (l : list A) :
  (forall x, In x l -> P x = true) -> filter P l = l.
Proof.
  intros H. induction l as [| x l IH]; [reflexivity |].
  cbn [filter]. rewrite (H x) by now left. f_equal.
  apply IH. intros y Hy. apply H. now right.
Qed.

Lemma getDemoUserContentSummary_quiet w :
  quiet w ->
  exists summary,
    getDemoUserContentSummary w = (Ok summary, w) /\
    (demo_account (w_db w) = [] -> summary = mkSummary 0 0 0 0) /\
    (forall demoUserId rest,
        demo_account (w_db w) = demoUserId :: rest ->
        totalCollections summary =
          Z.of_nat (List.length (owned_ids demoUserId (w_db w))) /\
        ((forall id, In id (owned_ids demoUserId (w_db w)) -> protected id) ->
         nonProtectedCollections summary = 0 /\
         protectedCollections summary = totalCollections summary)).
Proof.
  intros Hq. unfold getDemoUserContentSummary, try_catch, bind.
  rewrite db_query_quiet by exact Hq. fold (demo_account (w_db w)).
  destruct (demo_account (w_db w)) as [| demoUserId rest].
  - eexists. split; [reflexivity |]. split; [reflexivity | discriminate].
  - rewrite db_query_quiet by exact Hq. fold (owned_ids demoUserId (w_db w)).
    cbv zeta.
    destruct (owned_ids demoUserId (w_db w)) as [| id0 ids] eqn:E.
    + eexists. split; [reflexivity |]. split; [discriminate |].
      intros uid rest' [= <- _]. rewrite E. cbn. now repeat split.
    + rewrite db_query_quiet by exact Hq.
      eexists. split; [reflexivity |]. split; [discriminate |].
      intros uid rest' [= <- _]. rewrite E. cbn [totalCollections].
      split; [reflexivity |]. intros Hprot.
      cbn [nonProtectedCollections protectedCollections totalCollections].
      rewrite filter_all.
      * split; [lia | reflexivity].
      * intros id Hid. apply mem_In. now apply Hprot.
Qed.

(** X18: for a request that passed [requireAuth] and with no storage
    failure, the manual cleanup handler answers 403 to every account whose
    name is not [demo], changing nothing; for the account [demo] it answers
    200 with the summaries taken before and after the cleanup, and the
    summary after reports no collection outside the protected allowlist:
    every collection the demo account still has an ownership row for is a
    protected one. *)
Theorem demo_cleanup_route_leaves_only_protected_collections :
  forall w req user,
    quiet w ->
    req_user req = Some user ->
    let run := demo_cleanup_handler req w in
    (u_username user <> "demo" -> run = (Ok (status 403, None), w)) /\
    (u_username user = "demo" ->
     exists before after,
       fst run = Ok (status 200, Some (before, after)) /\
       fst (getDemoUserContentSummary w) = Ok before /\
       nonProtectedCollections after = 0 /\
       protectedCollections after = totalCollections after /\
       forall demoUserId rest id,
         demo_account (w_db w) = demoUserId :: rest ->
         In id (owned_ids demoUserId (w_db (snd run))) -> protected id).
Proof.
  intros w req user Hq Huser run. unfold run, demo_cleanup_handler.
  rewrite Huser. split.
  - intros Hname. apply String.eqb_neq in Hname. now rewrite Hname.
  - intros Hname. apply String.eqb_eq in Hname. rewrite Hname. cbn [negb].
    unfold try_catch, bind.
    destruct (getDemoUserContentSummary_quiet Hq) as (before & Hbefore & _).
    rewrite Hbefore.
    pose proof (cleanupDemoUserContent_quiet Hq) as Hclean. unfold wp in Hclean.
    destruct (cleanupDemoUserContent w) as [[[] | e] w1]; [| destruct Hclean].
    destruct Hclean as (Hq1 & Hu1 & Hprot).
    destruct (getDemoUserContentSummary_quiet Hq1)
      as (after & Hafter & Hnone & Hsome).
    rewrite Hafter. exists before, after. cbn [fst snd ret].
    assert (Hsame : demo_account (w_db w1) = demo_account (w_db w)).
    { unfold demo_account. now rewrite Hu1. }
    split; [reflexivity |]. split; [reflexivity |].
    destruct (demo_account (w_db w)) as [| demoUserId rest] eqn:E.
    + rewrite (Hnone Hsame). cbn. repeat split. discriminate.
    + destruct (Hsome demoUserId rest Hsame) as [_ Hzero].
      destruct (Hzero (Hprot demoUserId rest eq_refl)) as [H0 H1].
      split; [exact H0 |]. split; [exact H1 |].
      intros uid rest' id [= <- _]. apply (Hprot demoUserId rest eq_refl).
Qed.

Lemma demo_cleanup_route_leaves_only_protected_collections_witness :
  let w := Sample.world Sample.db_demo 1000000 [] in
  fst (demo_cleanup_handler
         (mkRequest None (Some "d1") (Some "d1")
            (Some (mkUser 2 "demo" "Demo User"))) w) =
    Ok (status 200, Some (mkSummary 2 1 1 2, mkSummary 1 1 0 1)) /\
  demo_cleanup_handler
    (mkRequest None (Some "s1") (Some "s1") (Some Sample.alice)) w =
    (Ok (status 403, None), w).
Proof.
  intros w.
  destruct (@demo_cleanup_route_leaves_only_protected_collections w
              (mkRequest None (Some "s1") (Some "s1") (Some Sample.alice))
              Sample.alice eq_refl eq_refl)
    as [Hdenied _].
  split; [reflexivity |]. apply Hdenied. discriminate.
Defined.

(** ** Seeding the demo account (user-model.ts) *)

Lemma getUserByUsername_quiet username w :
  quiet w ->
  getUserByUsername username w =
    (Ok (hd_error
           (filter (fun u => String.eqb (u_username u) username) (users (w_db w)))),
     w).
Proof.
  intros Hq. unfold getUserByUsername, bind. now rewrite db_query_quiet.
Qed.

Lemma initializeUsers_quiet w :
  quiet w ->
  initializeUsers w =
    (Ok tt,
     match
       hd_error (filter (fun u => String.eqb (u_username u) "demo") (users (w_db w)))
     with
     | Some _ => w
     | None => with_db w (snd (Sql.insert_user "demo" "Demo User" (w_db w)))
     end).
Proof.
  intros Hq. unfold initializeUsers, try_catch, bind.
  rewrite getUserByUsername_quiet by exact Hq.
  destruct (hd_error _) as [demo |]; [reflexivity |].
  unfold createUser. now rewrite db_exec_quiet.
Qed.

(** X19: [initializeUsers] never throws.  With no storage failure there
    is an account named [demo] afterwards that [getUserByUsername] finds;
    when there was one before, nothing changes; otherwise exactly one row
    is added, under the next id of the sequence; and running it a second
    time changes nothing. *)
Theorem initializeUsers_seeds_the_demo_account_once :
  forall w,
    let run := initializeUsers w in
    fst run = Ok tt /\
    (quiet w ->
     (exists demo,
         fst (getUserByUsername "demo" (snd run)) = Ok (Some demo) /\
         u_username demo = "demo") /\
     ((exists u, In u (users (w_db w)) /\ u_username u = "demo") ->
      snd run = w) /\
     ((forall u, In u (users (w_db w)) -> u_username u <> "demo") ->
      users (w_db (snd run)) =
        users (w_db w) ++ [mkUser (users_seq (w_db w)) "demo" "Demo User"]) /\
     initializeUsers (snd run) = (Ok tt, snd run)).
Proof.
  intros w run. split; [apply try_catch_log_total |].
  intros Hq. unfold run. rewrite initializeUsers_quiet by exact Hq.
  cbn [fst snd].
  set (found := filter (fun u => String.eqb (u_username u) "demo")
                  (users (w_db w))).
  assert (Hfound : forall u, In u found ->
                             In u (users (w_db w)) /\ u_username u = "demo").
  { intros u Hu. apply filter_In in Hu as [Hu Hname].
    now apply String.eqb_eq in Hname. }
  destruct found as [| demo rest] eqn:E; cbn [hd_error].
  - set (w1 := with_db w (snd (Sql.insert_user "demo" "Demo User" (w_db w)))).
    assert (Hq1 : quiet w1) by exact Hq.
    assert (Hseeded :
      filter (fun u => String.eqb (u_username u) "demo") (users (w_db w1)) =
        [mkUser (users_seq (w_db w)) "demo" "Demo User"]).
    { cbn [w1 w_db with_db snd Sql.insert_user users].
      rewrite filter_app. fold found. now rewrite E. }
    split; [| split; [| split]].
    + eexists. rewrite getUserByUsername_quiet by exact Hq1.
      rewrite Hseeded. now split.
    + intros (u & Hu & Hname). exfalso.
      assert (Hin : In u found).
      { apply filter_In. split; [exact Hu | now apply String.eqb_eq]. }
      rewrite E in Hin. destruct Hin.
    + reflexivity.
    + rewrite initializeUsers_quiet by exact Hq1. now rewrite Hseeded.
  - destruct (Hfound demo (or_introl eq_refl)) as [Hin Hname].
    split; [| split; [| split]].
    + exists demo. rewrite getUserByUsername_quiet by exact Hq.
      fold found. rewrite E. now split.
    + reflexivity.
    + intros Habsent. now destruct (Habsent demo Hin).
    + rewrite initializeUsers_quiet by exact Hq. fold found. now rewrite E.
Qed.

Lemma initializeUsers_seeds_the_demo_account_once_witness :
  users (w_db (snd (initializeUsers (Sample.world Sample.db_session 1000 [])))) =
    [Sample.alice; mkUser 8 "demo" "Demo User"] /\
  snd (initializeUsers (Sample.world Sample.db_demo 1000 [])) =
    Sample.world Sample.db_demo 1000 [].
Proof.
  destruct (initializeUsers_seeds_the_demo_account_once
              (Sample.world Sample.db_session 1000 []))
    as [_ Hfresh].
  destruct (Hfresh eq_refl) as (_ & _ & Hadded & _).
  destruct (initializeUsers_seeds_the_demo_account_once
              (Sample.world Sample.db_demo 1000 []))
    as [_ Hseeded].
  destruct (Hseeded eq_refl) as (_ & Hsame & _).
  split.
  - apply Hadded. intros u [<- | []]. discriminate.
  - apply Hsame. exists (mkUser 2 "demo" "Demo User"). split; [now left |].
    reflexivity.
Defined.

(** ** Authorization of the photo routes (routes/photos.ts) *)

Lemma toggleLikePhoto_returns id w :
  quiet w -> exists r w', toggleLikePhoto id w = (Ok r, w').
Proof.
  intros Hq. unfold toggleLikePhoto, bind.
  rewrite getPhoto_quiet by exact Hq.
  destruct (hd_error _) as [photo |]; [| do 2 eexists; reflexivity].
  rewrite db_exec_quiet by exact Hq. do 2 eexists. reflexivity.
Qed.

(** X20: for a request that passed [requireAuth], with no storage
    failure and an id in the range of the [integer] column, the
    delete-photo and like-photo handlers answer 404 for an id that names no
    photo and 403 when the photo is in a collection the account has no
    ownership row for, changing nothing in both cases; otherwise they
    answer 204 and 200 and have run [deletePhoto] and [toggleLikePhoto].  A
    photo whose collection is NULL (or 0) passes the test for every
    account. *)
Theorem photo_routes_check_ownership_of_the_collection :
  forall w req user id,
    quiet w ->
    int4 id = true ->
    req_user req = Some user ->
    let deleted := delete_photo_handler req (Some id) w in
    let liked := like_photo_handler req (Some id) w in
    ((forall p, In p (photos (w_db w)) -> p_id p <> id) ->
     deleted = (Ok (status 404), w) /\ liked = (Ok (status 404), w)) /\
    (forall photo,
        hd_error (filter (photo_is id) (photos (w_db w))) = Some photo ->
        (may_touch user photo (w_db w) = false ->
         deleted = (Ok (status 403), w) /\ liked = (Ok (status 403), w)) /\
        (may_touch user photo (w_db w) = true ->
         fst deleted = Ok (status 204) /\ snd deleted = snd (deletePhoto id w) /\
         fst liked = Ok (status 200) /\ snd liked = snd (toggleLikePhoto id w)) /\
        (p_collectionId photo = None -> may_touch user photo (w_db w) = true)).
Proof.
  intros w req user id Hq _ Huser deleted liked.
  unfold deleted, liked, delete_photo_handler, like_photo_handler.
  rewrite Huser. unfold try_catch, bind.
  rewrite !getPhoto_quiet by exact Hq.
  split.
  - intros Habs.
    replace (filter (photo_is id) (photos (w_db w))) with (@nil Photo)
      by (symmetry; apply (filter_key_absent p_id _ Habs)).
    now split.
  - intros photo Hphoto. rewrite Hphoto. cbv zeta. unfold may_touch.
    assert (Hdel : exists w', deletePhoto id w = (Ok true, w')).
    { pose proof (deletePhoto_present id Hq Hphoto) as H. unfold wp in H.
      destruct (deletePhoto id w) as [[r | e] w']; [| destruct H].
      destruct H as [-> _]. now exists w'. }
    destruct Hdel as (wd & Hdel).
    destruct (toggleLikePhoto_returns id Hq) as (r & wl & Hlike).
    split; [| split].
    + destruct (truthy_id (p_collectionId photo)) as [cid |];
        [| discriminate].
      rewrite !checkCollectionOwnership_quiet by exact Hq.
      intros ->. now split.
    + destruct (truthy_id (p_collectionId photo)) as [cid |].
      * rewrite !checkCollectionOwnership_quiet by exact Hq.
        intros ->. cbn [negb]. rewrite Hdel, Hlike. now repeat split.
      * intros _. rewrite Hdel, Hlike. now repeat split.
    + intros ->. reflexivity.
Qed.

Lemma photo_routes_check_ownership_of_the_collection_witness :
  let w := Sample.world Sample.db_demo 1000000 [] in
  delete_photo_handler
    (mkRequest None (Some "s1") (Some "s1") (Some Sample.alice)) (Some 40) w =
    (Ok (status 403), w) /\
  fst (delete_photo_handler
         (mkRequest None (Some "d1") (Some "d1")
            (Some (mkUser 2 "demo" "Demo User"))) (Some 40) w) =
    Ok (status 204).
Proof.
  intros w.
  destruct (@photo_routes_check_ownership_of_the_collection w
              (mkRequest None (Some "s1") (Some "s1") (Some Sample.alice))
              Sample.alice 40 eq_refl eq_refl eq_refl)
    as [_ Hfound].
  destruct (Hfound (mkPhoto 40 "cat" "photo-3.jpg" "image/jpeg" "photo-3.jpg"
                      (Some false) (Some 30) (Some false) None None) eq_refl)
    as (Hdenied & _ & _).
  destruct (@photo_routes_check_ownership_of_the_collection w
              (mkRequest None (Some "d1") (Some "d1")
                 (Some (mkUser 2 "demo" "Demo User")))
              (mkUser 2 "demo" "Demo User") 40 eq_refl eq_refl eq_refl)
    as [_ Hfound'].
  destruct (Hfound' (mkPhoto 40 "cat" "photo-3.jpg" "image/jpeg" "photo-3.jpg"
                       (Some false) (Some 30) (Some false) None None) eq_refl)
    as (_ & Hallowed & _).
  split.
  - apply Hdenied. reflexivity.
  - apply Hallowed. reflexivity.
Defined.

(** ** An authenticated request, with no storage failure *)

Lemma stored_session_id sessionId d s :
  stored_session sessionId d = Some s -> s_id s = sessionId.
Proof.
  unfold stored_session. intros H.
  assert (Hin : In s (filter (session_is sessionId) (sessions d))).
  { destruct (filter _ (sessions d)); [discriminate H |].
    injection H as ->. now left. }
  apply filter_In in Hin as [_ Hid]. now apply String.eqb_eq in Hid.
Qed.

Lemma getSession_far_quiet sessionId w s :
  quiet w ->
  stored_session sessionId (w_db w) = Some s ->
  w_now w + SESSION_REFRESH_THRESHOLD <= s_expiresAt s ->
  AuthService.getSession sessionId w =
    (Ok (Some (DatabaseSessionStore.session_data s)), w).
Proof.
  intros Hq Hs Hfar. unfold AuthService.getSession, bind.
  rewrite (get_unexpired_quiet _ Hq Hs)
    by (unfold SESSION_REFRESH_THRESHOLD in Hfar; lia).
  cbn [Date_now expiresAt].
  destruct (Z.ltb_spec (s_expiresAt s - w_now w) SESSION_REFRESH_THRESHOLD);
    [lia | reflexivity].
Qed.

(** The expiry a session has after an authenticated read at [now]. *)
Lemma getSession_quiet sessionId w s :
  quiet w ->
  stored_session sessionId (w_db w) = Some s ->
  w_now w <= s_expiresAt s ->
  let t := if (s_expiresAt s - w_now w <? SESSION_REFRESH_THRESHOLD)%Z
           then w_now w + SESSION_DURATION else s_expiresAt s in
  exists w1,
    AuthService.getSession sessionId w =
      (Ok (Some (mkSessionData (s_userId s) (s_username s) t)), w1) /\
    quiet w1 /\ w_now w1 = w_now w /\ w_trace w1 = w_trace w /\
    w_blobs w1 = w_blobs w /\
    users (w_db w1) = users (w_db w) /\
    collections (w_db w1) = collections (w_db w) /\
    collectionOwners (w_db w1) = collectionOwners (w_db w) /\
    photos (w_db w1) = photos (w_db w) /\
    stored_session sessionId (w_db w1) =
      Some (mkSession sessionId (s_userId s) (s_username s) t) /\
    w_now w + SESSION_REFRESH_THRESHOLD <= t.
Proof.
  intros Hq Hs Hlive t. unfold t.
  destruct (Z.ltb_spec (s_expiresAt s - w_now w) SESSION_REFRESH_THRESHOLD)
    as [Hnear | Hfar].
  - eexists. split; [now apply getSession_near_expiry_quiet |].
    destruct (upsert_session_same
                (mkSession sessionId (s_userId s) (s_username s)
                   (w_now w + SESSION_DURATION)) (w_db w))
      as (Hu & Hc & Ho & Hp).
    cbn [w_db with_db w_now w_trace w_blobs].
    repeat split; auto.
    + apply (stored_session_upsert (mkSession sessionId _ _ _)).
    + unfold SESSION_DURATION, SESSION_REFRESH_THRESHOLD. lia.
  - exists w. split; [apply getSession_far_quiet; auto; lia |].
    repeat split; auto; [| lia].
    rewrite Hs. f_equal. rewrite <- (stored_session_id _ _ Hs).
    now destruct s.
Qed.

Lemma requireAuth_quiet req sessionId s user w :
  quiet w ->
  AuthController.token req = Some sessionId -> sessionId <> "" ->
  stored_session sessionId (w_db w) = Some s ->
  w_now w <= s_expiresAt s ->
  hd_error (filter (user_is (s_userId s)) (users (w_db w))) = Some user ->
  let t := if (s_expiresAt s - w_now w <? SESSION_REFRESH_THRESHOLD)%Z
           then w_now w + SESSION_DURATION else s_expiresAt s in
  exists w1,
    AuthController.requireAuth req w =
      (Ok (inr (mkRequest (req_authorization req) (req_cookie req)
                  (Some sessionId) (Some user))), w1) /\
    quiet w1 /\ w_now w1 = w_now w /\ w_trace w1 = w_trace w /\
    w_blobs w1 = w_blobs w /\
    users (w_db w1) = users (w_db w) /\
    collections (w_db w1) = collections (w_db w) /\
    collectionOwners (w_db w1) = collectionOwners (w_db w) /\
    photos (w_db w1) = photos (w_db w) /\
    stored_session sessionId (w_db w1) =
      Some (mkSession sessionId (s_userId s) (s_username s) t) /\
    w_now w + SESSION_REFRESH_THRESHOLD <= t.
Proof.
  intros Hq Htoken Hne Hs Hlive Huser t.
  destruct (getSession_quiet _ Hq Hs Hlive)
    as (w1 & Hrun & Hq1 & Hnow1 & Ht1 & Hb1 & Hu1 & Hrest).
  exists w1. split; [| now repeat split].
  unfold AuthController.requireAuth. rewrite Htoken.
  assert (T : Js.truthy sessionId = true).
  { unfold Js.truthy. now apply negb_true_iff, String.eqb_neq. }
  rewrite T. cbn [negb]. unfold try_catch, bind. rewrite Hrun.
  unfold getUser, bind. rewrite db_query_quiet by exact Hq1.
  cbn [userId ret]. now rewrite Hu1, Huser.
Qed.

(** X21: with no storage failure, [GET /auth/me] for a token whose
    session is stored, not past its expiry and belongs to an existing
    account answers 200 with the expiry that is stored for the session
    afterwards: the expiry it had when at least [SESSION_REFRESH_THRESHOLD]
    (2 minutes) were left, [now + SESSION_DURATION] (10 minutes) otherwise;
    either way at least 2 minutes lie ahead.  Collections, photos and
    ownership rows are untouched. *)
Theorem me_reports_the_expiry_that_is_stored :
  forall w req sessionId s user,
    quiet w ->
    AuthController.token req = Some sessionId -> sessionId <> "" ->
    stored_session sessionId (w_db w) = Some s ->
    w_now w <= s_expiresAt s ->
    hd_error (filter (user_is (s_userId s)) (users (w_db w))) = Some user ->
    let run := GET_auth_me req w in
    let t := if (s_expiresAt s - w_now w <? SESSION_REFRESH_THRESHOLD)%Z
             then w_now w + SESSION_DURATION else s_expiresAt s in
    fst run = Ok (mkResponse 200 None (Some t)) /\
    stored_session sessionId (w_db (snd run)) =
      Some (mkSession sessionId (s_userId s) (s_username s) t) /\
    w_now w + SESSION_REFRESH_THRESHOLD <= t /\
    collections (w_db (snd run)) = collections (w_db w) /\
    collectionOwners (w_db (snd run)) = collectionOwners (w_db w) /\
    photos (w_db (snd run)) = photos (w_db w).
Proof.
  intros w req sessionId s user Hq Htoken Hne Hs Hlive Huser run t.
  destruct (requireAuth_quiet req Hq Htoken Hne Hs Hlive Huser)
    as (w1 & Hrun & Hq1 & Hnow1 & _ & _ & _ & Hc1 & Ho1 & Hp1 & Hs1 & Hfar).
  fold t in Hs1, Hfar.
  assert (Hme :
    AuthController.getCurrentUser
      (mkRequest (req_authorization req) (req_cookie req) (Some sessionId)
         (Some user)) w1 =
      (Ok (mkResponse 200 None (Some t)), w1)).
  { unfold AuthController.getCurrentUser, try_catch, bind.
    cbn [req_sessionId].
    assert (T : Js.truthy sessionId = true).
    { unfold Js.truthy. now apply negb_true_iff, String.eqb_neq. }
    rewrite T. cbn [negb].
    rewrite (getSession_far_quiet _ Hq1 Hs1)
      by (cbn [s_expiresAt]; lia).
    reflexivity. }
  unfold run, GET_auth_me, bind. rewrite Hrun, Hme. cbn [fst snd].
  now repeat split.
Qed.

Lemma me_reports_the_expiry_that_is_stored_witness :
  fst (GET_auth_me Sample.renewal_request
         (Sample.world Sample.db_near_expiry 1000000 [])) =
    Ok (mkResponse 200 None (Some 1600000)) /\
  fst (GET_auth_me Sample.renewal_request
         (Sample.world Sample.db_renewal 1000000 [])) =
    Ok (mkResponse 200 None (Some 1300000)).
Proof.
  assert (Hne : "s1" <> "") by discriminate.
  assert (Hlive : 1000000 <= 1060000) by lia.
  assert (Hlive' : 1000000 <= 1300000) by lia.
  destruct (@me_reports_the_expiry_that_is_stored
              (Sample.world Sample.db_near_expiry 1000000 [])
              Sample.renewal_request "s1" (mkSession "s1" 7 "alice" 1060000)
              Sample.alice eq_refl eq_refl Hne eq_refl Hlive eq_refl)
    as [Hnear _].
  destruct (@me_reports_the_expiry_that_is_stored
              (Sample.world Sample.db_renewal 1000000 [])
              Sample.renewal_request "s1" (mkSession "s1" 7 "alice" 1300000)
              Sample.alice eq_refl eq_refl Hne eq_refl Hlive' eq_refl)
    as [Hfar _].
  split; [exact Hnear | exact Hfar].
Defined.

(** ** Deleting a session, by kind of account (DatabaseSessionStore.delete) *)




(** ** Creating a collection with its photos (routes/collections.ts) *)

Lemma withDatabaseRetry_ok {A} (operation : M A) w a w1 :
  operation w = (Ok a, w1) -> withDatabaseRetry operation w = (Ok a, w1).
Proof.
  intros H. unfold withDatabaseRetry. rewrite retry_from_step. now rewrite H.
Qed.

Lemma wp_Math_random (Q : string -> World -> Prop) E w :
  (forall r w1,
      w_db w1 = w_db w -> w_blobs w1 = w_blobs w -> w_now w1 = w_now w ->
      w_dbFaults w1 = w_dbFaults w -> w_blobFaults w1 = w_blobFaults w ->
      w_trace w1 = w_trace w -> Q r w1) ->
  wp Math_random Q E w.
Proof.
  intros H. unfold wp, Math_random.
  destruct (w_random w); apply H; reflexivity.
Qed.

Lemma savePhotoToFirebaseStorage_ok fileName w :
  w_blobFaults w = [] ->
  savePhotoToFirebaseStorage fileName w =
    (Ok fileName,
     mkWorld (w_db w) (("uploads/" ++ fileName)%string :: w_blobs w) (w_now w)
             (w_dbFaults w) [] (w_random w)
             (w_trace w ++ [BlobSave ("uploads/" ++ fileName)%string true])).
Proof.
  intros Hf. unfold savePhotoToFirebaseStorage, try_catch, bind, blob_save.
  now rewrite Hf.
Qed.

Section Uploads.

Variables (collectionId : Z) (makeTemporary : bool).
Variables (sessionId : option string) (expiresAt : option Z).
Variable titles : list string.

(** One pass of the upload loop. *)
Lemma upload_one (entry : nat * File) w :
  quiet w -> w_blobFaults w = [] ->
  wp (let file := snd entry in
      let title := or_else (nth_error titles (fst entry)) (originalname file) in
      fileName <- generateFileName (originalname file) ;;
      filePath <- savePhotoToFirebaseStorage fileName ;;
      withDatabaseRetry
        (createPhoto
           (mkInsertPhoto title fileName (mimetype file) filePath
              (Some false) (Some collectionId) (Some makeTemporary)
              sessionId expiresAt)) ;;
      ret tt)
     (fun _ w' =>
        quiet w' /\ w_blobFaults w' = [] /\ w_now w' = w_now w /\
        collections (w_db w') = collections (w_db w) /\
        collectionOwners (w_db w') = collectionOwners (w_db w) /\
        incl (w_blobs w) (w_blobs w') /\
        exists p,
          photos (w_db w') = photos (w_db w) ++ [p] /\
          uploaded_as collectionId makeTemporary sessionId expiresAt titles
            (w_blobs w') entry p)
     (fun _ _ => False) w.
Proof.
  intros Hq Hf. cbv zeta. unfold generateFileName.
  apply wp_bind, wp_bind, wp_Date_now, wp_bind, wp_Math_random.
  intros r w1 Hdb1 Hb1 Hnow1 Hq1 Hf1 _. apply wp_ret.
  set (fileName := ("photo-" ++ _)%string).
  apply wp_bind. unfold wp at 1.
  rewrite savePhotoToFirebaseStorage_ok by congruence.
  set (w2 := mkWorld _ _ _ _ _ _ _).
  assert (Hq2 : quiet w2) by (unfold quiet in *; cbn; congruence).
  apply wp_bind. unfold wp at 1.
  rewrite (withDatabaseRetry_ok _ _ (createPhoto_quiet _ Hq2)).
  apply wp_ret. cbn [w_db w_blobs w_now w_blobFaults with_db w2].
  split; [exact Hq2 |]. split; [reflexivity |]. split; [exact Hnow1 |].
  rewrite Hdb1, Hb1.
  split; [reflexivity |]. split; [reflexivity |].
  split; [apply incl_tl, incl_refl |].
  eexists. split; [reflexivity |].
  unfold uploaded_as, photo_row. cbn. repeat split. now left.
Qed.

Lemma uploaded_as_more blobs blobs' entry p :
  incl blobs blobs' ->
  uploaded_as collectionId makeTemporary sessionId expiresAt titles blobs entry p ->
  uploaded_as collectionId makeTemporary sessionId expiresAt titles blobs' entry p.
Proof.
  intros Hincl (H1 & H2 & H3 & H4 & H5). repeat split; auto.
  all: tauto.
Qed.

(** The upload loop: one photo row per file, in order, each with its
    blob. *)
Lemma upload_all (entries : list (nat * File)) :
  forall w,
    quiet w -> w_blobFaults w = [] ->
    wp (for_of entries
          (fun entry =>
             let file := snd entry in
             let title :=
               or_else (nth_error titles (fst entry)) (originalname file) in
             fileName <- generateFileName (originalname file) ;;
             filePath <- savePhotoToFirebaseStorage fileName ;;
             withDatabaseRetry
               (createPhoto
                  (mkInsertPhoto title fileName (mimetype file) filePath
                     (Some false) (Some collectionId) (Some makeTemporary)
                     sessionId expiresAt)) ;;
             ret tt))
       (fun _ w' =>
          quiet w' /\ w_now w' = w_now w /\
          collections (w_db w') = collections (w_db w) /\
          collectionOwners (w_db w') = collectionOwners (w_db w) /\
          incl (w_blobs w) (w_blobs w') /\
          exists new,
            photos (w_db w') = photos (w_db w) ++ new /\
            Forall2
              (uploaded_as collectionId makeTemporary sessionId expiresAt titles
                 (w_blobs w'))
              entries new)
       (fun _ _ => False) w.
Proof.
  induction entries as [| entry entries IH]; intros w Hq Hf.
  - cbn. repeat split; auto; [apply incl_refl |].
    exists []. split; [now rewrite app_nil_r | constructor].
  - cbn [for_of]. apply wp_bind.
    eapply wp_mono; [apply (upload_one entry Hq Hf) | | intros e w' []].
    cbn beta. intros _ w1 (Hq1 & Hf1 & Hnow1 & Hc1 & Ho1 & Hb1 & p & Hp1 & Hup).
    eapply wp_mono; [apply (IH w1 Hq1 Hf1) | | intros e w' []].
    cbn beta. intros _ w2 (Hq2 & Hnow2 & Hc2 & Ho2 & Hb2 & new & Hp2 & Hall).
    split; [exact Hq2 |]. split; [congruence |]. split; [congruence |].
    split; [congruence |]. split; [eapply incl_tran; eauto |].
    exists (p :: new). split.
    + rewrite Hp2, Hp1, <- app_assoc. reflexivity.
    + constructor; [| exact Hall]. eapply uploaded_as_more; eauto.
Qed.

End Uploads.

(** X23: for a request that [requireAuth] admits ([admitted]: its account
    exists and its session is stored and live) and that passed the upload
    middleware (every file of an accepted image type and within the size
    limit: [upload_array]), with a name and a valid (or no) type, and with
    the storage and the blob store working, the create-collection handler
    answers 201; it inserts one collection, under
    the next id of the sequence, owned by the account (and its partner),
    and one photo row per uploaded file, in upload order, each in the new
    collection, with the title given for its position (the original file
    name when none is given), the file's type, the temporal columns of the
    collection, and a path equal to the generated file name, under which
    its blob is stored. *)
Theorem create_collection_route_stores_every_upload :
  forall w req user sessionId body files name,
    quiet w -> w_blobFaults w = [] ->
    admitted sessionId (w_now w) (w_db w) req ->
    req_user req = Some user ->
    upload_array files = true ->
    body_name body = Some name -> name <> "" ->
    Sql.mem_str (or_else (body_type body) "custom") collectionEnum = true ->
    let run := create_collection_handler req body files w in
    let d := w_db w in
    let d' := w_db (snd run) in
    let id := collections_seq d in
    fst run = Ok (status 201) /\
    exists created new,
      collections d' = collections d ++ [created] /\
      c_id created = id /\ c_name created = name /\
      c_userId created = Some (u_id user) /\
      collectionOwners d' =
        collectionOwners d ++
        mkOwner id (u_id user) ::
        match partner_of (u_id user) d with
        | Some p => [mkOwner id (u_id p)]
        | None => []
        end /\
      photos d' = photos d ++ new /\
      Forall2
        (uploaded_as id
           (match c_isTemporary created with Some b => b | None => false end)
           (c_sessionId created) (c_expiresAt created) (body_photoTitle body)
           (w_blobs (snd run)))
        (combine (seq 0 (List.length files)) files) new.
Proof.
  intros w req user sessionId body files name Hq Hf _ Huser _ Hname Hne Htype
    run d d' id.
  assert (T : Js.truthy name = true).
  { unfold Js.truthy. now apply negb_true_iff, String.eqb_neq. }
  assert (Hwp :
    wp (create_collection_handler req body files)
       (fun r w' =>
          r = status 201 /\
          exists created new,
            collections (w_db w') = collections d ++ [created] /\
            c_id created = id /\ c_name created = name /\
            c_userId created = Some (u_id user) /\
            collectionOwners (w_db w') =
              collectionOwners d ++
              mkOwner id (u_id user) ::
              match partner_of (u_id user) d with
              | Some p => [mkOwner id (u_id p)]
              | None => []
              end /\
            photos (w_db w') = photos d ++ new /\
            Forall2
              (uploaded_as id
                 (match c_isTemporary created with
                  | Some b => b
                  | None => false
                  end)
                 (c_sessionId created) (c_expiresAt created)
                 (body_photoTitle body) (w_blobs w'))
              (combine (seq 0 (List.length files)) files) new)
       (fun _ _ => False) w).
  { unfold create_collection_handler. rewrite Huser, Hname, T. cbn [negb].
    cbv zeta. apply wp_try_catch, wp_bind, wp_Date_now.
    unfold validateSchema. cbn [ic_type]. rewrite Htype.
    apply wp_bind, wp_ret, wp_bind.
    set (data := mkInsertCollection _ _ _ _ _ _ _).
    unfold wp at 1.
    rewrite (withDatabaseRetry_ok _ _
               (createCollection_quiet data (creator := u_id user) Hq eq_refl)).
    set (w1 := with_db w (created_tables data (u_id user) (w_db w))).
    assert (Hq1 : quiet w1) by exact Hq.
    assert (Hf1 : w_blobFaults w1 = []) by exact Hf.
    apply wp_bind. cbn [c_id collection_row].
    eapply wp_mono;
      [apply (upload_all (collections_seq (w_db w)) _ _ _ _ _ Hq1 Hf1)
      | | intros e w' []].
    cbn beta. intros _ w2 (_ & _ & Hc2 & Ho2 & _ & new & Hp2 & Hall).
    apply wp_ret. split; [reflexivity |].
    exists (collection_row data id), new.
    assert (Hc1 : collections (w_db w1) =
                  collections d ++ [collection_row data id]).
    { unfold w1, created_tables. cbn [w_db with_db].
      now destruct (partner_of (u_id user) (w_db w)). }
    assert (Ho1 : collectionOwners (w_db w1) =
                  collectionOwners d ++
                  mkOwner id (u_id user) ::
                  match partner_of (u_id user) d with
                  | Some p => [mkOwner id (u_id p)]
                  | None => []
                  end).
    { unfold w1, created_tables. cbn [w_db with_db]. fold d.
      destruct (partner_of (u_id user) d); cbn; [| reflexivity].
      now rewrite <- app_assoc. }
    assert (Hp1 : photos (w_db w1) = photos d).
    { unfold w1, created_tables. cbn [w_db with_db].
      now destruct (partner_of (u_id user) (w_db w)). }
    split; [congruence |]. split; [reflexivity |]. split; [reflexivity |].
    split; [reflexivity |]. split; [congruence |].
    split; [now rewrite Hp2, Hp1 |].
    exact Hall. }
  pose proof (wp_run _ _ _ _ Hwp) as H. fold run in H.
  destruct (fst run) as [r | e]; [| destruct H].
  destruct H as [-> H]. split; [reflexivity | exact H].
Qed.

Lemma create_collection_route_stores_every_upload_witness :
  let run :=
    create_collection_handler
      (mkRequest None (Some "s1") (Some "s1") (Some Sample.alice))
      Sample.create_body [Sample.upload]
      (Sample.world Sample.db_session 1000000 ["123456789"]) in
  fst run = Ok (status 201) /\
  photos (w_db (snd run)) =
    [mkPhoto 20 "beach" "photo-1000000-123456789.png" "image/png"
       "photo-1000000-123456789.png" (Some false) (Some 10) (Some true)
       (Some "s1") (Some 1600000)] /\
  w_blobs (snd run) = ["uploads/photo-1000000-123456789.png"].
Proof.
  assert (Hne : "trip" <> "") by discriminate.
  assert (Hadmitted :
    admitted "s1" 1000000 Sample.db_session
      (mkRequest None (Some "s1") (Some "s1") (Some Sample.alice))).
  { exists Sample.alice, (mkSession "s1" 7 "alice" 1300000).
    do 2 (split; [reflexivity |]). split; [now left |].
    do 2 (split; [reflexivity |]). vm_compute. discriminate. }
  destruct (@create_collection_route_stores_every_upload
              (Sample.world Sample.db_session 1000000 ["123456789"])
              (mkRequest None (Some "s1") (Some "s1") (Some Sample.alice))
              Sample.alice "s1" Sample.create_body [Sample.upload] "trip"
              eq_refl eq_refl Hadmitted eq_refl eq_refl eq_refl Hne eq_refl)
    as [Hstatus _].
  split; [exact Hstatus |]. split; reflexivity.
Defined.

(** ** An ephemeral account, from creation to teardown (DemoUserService) *)

Lemma getTemporaryDemoUsersSummary_quiet w :
  quiet w ->
  getTemporaryDemoUsersSummary w =
    (Ok (Z.of_nat
           (List.length
              (filter (fun user => isTemporaryDemoUser (u_username user))
                 (users (w_db w)))),
         filter (fun user => isTemporaryDemoUser (u_username user))
           (users (w_db w))),
     w).
Proof.
  intros Hq. unfold getTemporaryDemoUsersSummary, try_catch, bind.
  now rewrite db_query_quiet.
Qed.

Lemma protected_mem id : protected id -> Sql.mem id PROTECTED_COLLECTION_IDS = true.
Proof.
  intros H. apply existsb_exists. exists id. split; [exact H | apply Z.eqb_refl].
Qed.

Lemma cleanupUserCollectionsAndPhotos_nothing userId w :
  quiet w ->
  (forall o, In o (collectionOwners (w_db w)) -> o_userId o = userId ->
             protected (o_collectionId o)) ->
  cleanupUserCollectionsAndPhotos userId w = (Ok tt, w).
Proof.
  intros Hq Hprot. unfold cleanupUserCollectionsAndPhotos, try_catch, bind.
  rewrite db_query_quiet by exact Hq.
  rewrite filter_none; [reflexivity |].
  intros [id name] Hin. unfold owned_collections in Hin.
  apply in_map_iff in Hin as ([c o] & [= <- _] & Hin).
  apply filter_In in Hin as [Hjoin Huser]. cbn [fst snd] in *.
  apply Z.eqb_eq in Huser.
  unfold Sql.collections_join_owners in Hjoin.
  apply in_flat_map in Hjoin as (c' & Hc & Hpair).
  apply in_map_iff in Hpair as (o' & [= -> ->] & Ho).
  apply filter_In in Ho as [Ho Hmatch]. apply Z.eqb_eq in Hmatch.
  apply negb_false_iff. rewrite <- Hmatch. apply protected_mem. auto.
Qed.

Lemma removeProtectedCollectionOwnerships_quiet userId w :
  quiet w ->
  exists w',
    removeProtectedCollectionOwnerships userId w = (Ok tt, w') /\
    quiet w' /\
    users (w_db w') = users (w_db w) /\
    sessions (w_db w') = sessions (w_db w) /\
    collections (w_db w') = collections (w_db w) /\
    photos (w_db w') = photos (w_db w) /\
    partnerships (w_db w') = partnerships (w_db w) /\
    collectionOwners (w_db w') =
      Sql.keep
        (fun o => (o_userId o =? userId)%Z &&
                  Sql.mem (o_collectionId o) PROTECTED_COLLECTION_IDS)
        (collectionOwners (w_db w)).
Proof.
  intros Hq.
  unfold removeProtectedCollectionOwnerships, PROTECTED_COLLECTION_IDS.
  cbn [for_of nth]. unfold try_catch, bind.
  repeat (rewrite db_run_quiet by (repeat apply quiet_with_db; exact Hq)).
  eexists. split; [reflexivity |].
  split; [repeat apply quiet_with_db; exact Hq |].
  cbn -[Sql.keep]. do 5 (split; [reflexivity |]).
  rewrite !keep_keep. apply keep_ext. intros o _.
  unfold owner_is, Sql.mem. cbn [existsb].
  destruct (o_userId o =? userId)%Z; cbn [andb orb]; [| reflexivity].
  repeat match goal with
         | |- context [Z.eqb ?a ?b] => destruct (Z.eqb a b)
         end; reflexivity.
Qed.

Lemma delete_owners_nothing P d :
  (forall o, In o (collectionOwners d) -> P o = false) ->
  Sql.delete_collectionOwners P d = d.
Proof.
  intros H. unfold Sql.delete_collectionOwners, Sql.with_collectionOwners.
  rewrite (keep_nothing _ _ H). now destruct d.
Qed.

Lemma delete_collections_nothing P d :
  (forall c, In c (collections d) -> P c = false) ->
  Sql.delete_collections P d = d.
Proof.
  intros H. unfold Sql.delete_collections. cbv zeta.
  rewrite (filter_none _ _ H). unfold Sql.with_collections.
  rewrite (keep_nothing _ _ H).
  rewrite delete_owners_nothing by reflexivity. now destruct d.
Qed.

Lemma delete_sessions_unreferenced P d :
  (forall p, In p (photos d) ->
             Sql.inArray_str (p_sessionId p) (map s_id (filter P (sessions d))) =
               false) ->
  (forall c, In c (collections d) ->
             Sql.inArray_str (c_sessionId c) (map s_id (filter P (sessions d))) =
               false) ->
  Sql.delete_sessions P d = Sql.with_sessions d (Sql.keep P (sessions d)).
Proof.
  intros Hp Hc. unfold Sql.delete_sessions. cbv zeta.
  rewrite delete_photos_nothing by exact Hp.
  now rewrite delete_collections_nothing by exact Hc.
Qed.

Lemma not_tied sessionId (col : option string) :
  col <> Some sessionId -> Sql.inArray_str col [sessionId] = false.
Proof.
  intros H. destruct col as [x |]; [| reflexivity]. cbn.
  rewrite orb_false_r. apply String.eqb_neq. congruence.
Qed.

Lemma keep_granted userId (l added : list CollectionOwner) :
  (forall o, In o l -> o_userId o <> userId) ->
  (forall o, In o added ->
             o_userId o = userId /\ protected (o_collectionId o)) ->
  Sql.keep
    (fun o => (o_userId o =? userId)%Z &&
              Sql.mem (o_collectionId o) PROTECTED_COLLECTION_IDS)
    (l ++ added) = l.
Proof.
  intros Hl Ha. unfold Sql.keep. rewrite filter_app.
  rewrite (filter_none _ added), app_nil_r.
  - apply keep_nothing. intros o Ho.
    apply andb_false_intro1. now apply Z.eqb_neq, Hl.
  - intros o Ho. destruct (Ha o Ho) as [Hu Hp].
    apply negb_false_iff, andb_true_intro.
    split; [now apply Z.eqb_eq | now apply protected_mem].
Qed.

Lemma not_tied_to_any (l : list Session) (col : option string) :
  (forall s, In s l -> col <> Some (s_id s)) ->
  Sql.inArray_str col (map s_id l) = false.
Proof.
  intros H. destruct col as [x |]; [| reflexivity].
  unfold Sql.inArray_str, Sql.mem_str.
  destruct (existsb (String.eqb x) (map s_id l)) eqn:E; [| reflexivity].
  apply existsb_exists in E as (y & Hin & Heq).
  apply in_map_iff in Hin as (s & <- & Hs). apply String.eqb_eq in Heq.
  destruct (H s Hs). now rewrite Heq.
Qed.

Lemma delete_users_last d d3 user tail :
  unused_account (u_id user) d ->
  (forall s, In s tail ->
             s_userId s = u_id user /\ unused_session (s_id s) d) ->
  users d3 = users d ++ [user] ->
  sessions d3 = sessions d ++ tail ->
  collections d3 = collections d ->
  collectionOwners d3 = collectionOwners d ->
  photos d3 = photos d ->
  partnerships d3 = partnerships d ->
  same_tables d (Sql.delete_users (user_is (u_id user)) d3).
Proof.
  intros (Hnu & Hns & Hno & Hnq) Htail Hu Hs Hc Ho Hp Hq.
  destruct d3 as [us ss cs os ps qs n1 n2 n3].
  cbn [users sessions collections collectionOwners photos partnerships] in *.
  subst us ss cs os ps qs.
  unfold Sql.delete_users. cbv zeta. cbn [users partnerships].
  assert (Hf : filter (user_is (u_id user)) (users d ++ [user]) = [user]).
  { apply filter_app_fresh; [| apply Z.eqb_refl].
    intros u Hin. now apply Z.eqb_neq, Hnu. }
  assert (Hk : Sql.keep (user_is (u_id user)) (users d ++ [user]) = users d).
  { apply keep_app_fresh; [| apply Z.eqb_refl].
    intros u Hin. now apply Z.eqb_neq, Hnu. }
  rewrite Hf, Hk. cbn [map].
  rewrite (keep_nothing _ (partnerships d)).
  2:{ intros q Hin. destruct (Hnq q Hin) as [H1 H2]. cbn.
      rewrite !orb_false_r. apply orb_false_intro; now apply Z.eqb_neq. }
  rewrite delete_owners_nothing.
  2:{ intros o Hin. cbn in Hin |- *. rewrite orb_false_r.
      now apply Z.eqb_neq, Hno. }
  unfold Sql.with_partnerships, Sql.with_users.
  cbn [users sessions collections collectionOwners photos partnerships
       users_seq collections_seq photos_seq].
  assert (Hfs : filter (fun s0 => Sql.mem (s_userId s0) [u_id user])
                  (sessions d ++ tail) = tail).
  { rewrite filter_app, filter_none, filter_all; [reflexivity | |].
    - intros s Hin. destruct (Htail s Hin) as [-> _]. cbn.
      now rewrite Z.eqb_refl.
    - intros s Hin. cbn. rewrite orb_false_r. now apply Z.eqb_neq, Hns. }
  assert (Hks : Sql.keep (fun s0 => Sql.mem (s_userId s0) [u_id user])
                  (sessions d ++ tail) = sessions d).
  { unfold Sql.keep. rewrite filter_app, (filter_none _ tail), app_nil_r.
    - apply keep_nothing. intros s Hin. cbn. rewrite orb_false_r.
      now apply Z.eqb_neq, Hns.
    - intros s Hin. destruct (Htail s Hin) as [-> _]. cbn.
      now rewrite Z.eqb_refl. }
  rewrite delete_sessions_unreferenced;
    cbn [sessions photos collections]; rewrite ?Hfs.
  - unfold same_tables, Sql.with_sessions.
    cbn [users sessions collections collectionOwners photos partnerships].
    rewrite Hks. now repeat split.
  - intros p Hin. apply not_tied_to_any. intros s Hs.
    destruct (Htail s Hs) as [_ (_ & Hnp & _)]. now apply Hnp.
  - intros c Hin. apply not_tied_to_any. intros s Hs.
    destruct (Htail s Hs) as [_ (_ & _ & Hnc)]. now apply Hnc.
Qed.

Lemma teardown_restores_tables d d2 user s :
  unused_account (u_id user) d ->
  unused_session (s_id s) d ->
  s_userId s = u_id user ->
  users d2 = users d ++ [user] ->
  sessions d2 = sessions d ++ [s] ->
  collections d2 = collections d ->
  collectionOwners d2 = collectionOwners d ->
  photos d2 = photos d ->
  partnerships d2 = partnerships d ->
  same_tables d (Sql.delete_users (user_is (u_id user)) d2) /\
  same_tables d
    (Sql.delete_users (user_is (u_id user))
       (Sql.delete_sessions (session_is (s_id s)) d2)).
Proof.
  intros Hacc Hses Hsu Hu Hs Hc Ho Hp Hq. split.
  - apply delete_users_last with (tail := [s]); auto.
    intros s' [<- | []]. now split.
  - assert (Hf : filter (session_is (s_id s)) (sessions d2) = [s]).
    { rewrite Hs. apply filter_app_fresh; [| apply String.eqb_refl].
      intros s' Hin. apply String.eqb_neq. now apply Hses. }
    assert (Hk : Sql.keep (session_is (s_id s)) (sessions d2) = sessions d).
    { rewrite Hs. apply keep_app_fresh; [| apply String.eqb_refl].
      intros s' Hin. apply String.eqb_neq. now apply Hses. }
    destruct Hses as (Hfresh & Hnp & Hnc).
    rewrite delete_sessions_unreferenced; rewrite ?Hf, ?Hk.
    + apply delete_users_last with (tail := []);
        [exact Hacc | intros s' [] | | | | | |];
        destruct d2; cbn in *; rewrite ?app_nil_r; auto.
    + intros p Hin. apply not_tied. rewrite Hp in Hin. now apply Hnp.
    + intros c Hin. apply not_tied. rewrite Hc in Hin. now apply Hnc.
Qed.

Lemma cleanupTemporaryDemoUser_undoes d user s w1 :
  quiet w1 ->
  unused_account (u_id user) d ->
  unused_session (s_id s) d ->
  s_userId s = u_id user ->
  users (w_db w1) = users d ++ [user] ->
  sessions (w_db w1) = sessions d ++ [s] ->
  collections (w_db w1) = collections d ->
  photos (w_db w1) = photos d ->
  partnerships (w_db w1) = partnerships d ->
  (exists added,
      collectionOwners (w_db w1) = collectionOwners d ++ added /\
      forall o, In o added ->
                o_userId o = u_id user /\ protected (o_collectionId o)) ->
  wp (cleanupTemporaryDemoUser (u_id user) (Some (s_id s)))
     (fun _ w' => quiet w' /\ same_tables d (w_db w'))
     (fun _ _ => False) w1.
Proof.
  intros Hq Hacc Hses Hsu Hu Hs Hc Hp Hpt (added & Ho & Hadded).
  unfold cleanupTemporaryDemoUser.
  apply wp_try_catch, wp_bind.
  apply wp_db_stmt_quiet; [exact Hq |]. cbn [fst snd].
  rewrite after_stmt_quiet, with_db_same by exact Hq.
  apply wp_bind. unfold wp at 1.
  rewrite cleanupUserCollectionsAndPhotos_nothing; [| exact Hq |].
  2:{ intros o Hin Huser. rewrite Ho in Hin.
      apply in_app_iff in Hin as [Hin | Hin]; [| now apply Hadded].
      destruct Hacc as (_ & _ & Hno & _). now destruct (Hno o Hin). }
  apply wp_bind.
  destruct (removeProtectedCollectionOwnerships_quiet (u_id user) Hq)
    as (w2 & Hrun & Hq2 & Hu2 & Hs2 & Hc2 & Hp2 & Hpt2 & Ho2).
  unfold wp at 1. rewrite Hrun.
  rewrite Ho, keep_granted in Ho2;
    [| now destruct Hacc as (_ & _ & Hno & _) | exact Hadded].
  destruct (@teardown_restores_tables d (w_db w2) user s)
    as [Hskip Hdelete]; try congruence.
  apply wp_bind. destruct (Js.truthy (s_id s)).
  - apply wp_try_catch. unfold db_delete.
    apply wp_db_stmt_quiet; [exact Hq2 |]. cbn [fst snd].
    apply wp_db_stmt_quiet; [now apply quiet_after_stmt |]. cbn [fst snd].
    split; [now apply quiet_after_stmt, quiet_after_stmt | exact Hdelete].
  - apply wp_ret. unfold db_delete.
    apply wp_db_stmt_quiet; [exact Hq2 |]. cbn [fst snd].
    split; [now apply quiet_after_stmt | exact Hskip].
Qed.

(** X24: an ephemeral account that is torn down before anything else
    touches the database leaves no trace in the tables.  With no storage
    failure, and when no row refers yet to the account id that the
    sequence hands out or to the session id that is generated,
    [createTemporaryDemoUser] followed by [cleanupTemporaryDemoUser] for
    the account and session it returned restores the rows of all six
    tables; [getTemporaryDemoUsersSummary] lists the account (last, and
    counted) in between, and reports the earlier count and list again
    afterwards. *)
Theorem temporary_account_is_undone_by_its_teardown :
  forall w user sessionId,
    quiet w ->
    fst (createTemporaryDemoUser w) = Ok (user, sessionId) ->
    unused_account (users_seq (w_db w)) (w_db w) ->
    unused_session sessionId (w_db w) ->
    let w1 := snd (createTemporaryDemoUser w) in
    let teardown := cleanupTemporaryDemoUser (u_id user) (Some sessionId) w1 in
    exists n listed,
      fst (getTemporaryDemoUsersSummary w) = Ok (n, listed) /\
      fst (getTemporaryDemoUsersSummary w1) = Ok (n + 1, listed ++ [user]) /\
      fst teardown = Ok tt /\
      same_tables (w_db w) (w_db (snd teardown)) /\
      fst (getTemporaryDemoUsersSummary (snd teardown)) = Ok (n, listed).
Proof.
  intros w user sessionId Hq Hrun Hacc Hses w1 teardown.
  pose proof (wp_run _ _ _ _ (createTemporaryDemoUser_quiet Hq)) as H.
  fold w1 in H. rewrite Hrun in H.
  destruct H as (Hq1 & _ & user' & sid' & [= <- <-] & Hid & Hname & Hu & _ & _ &
                   Hc & Hp & Hpt & Hs & Hadded).
  rewrite <- Hid in Hacc.
  assert (Hs' : sessions (w_db w1) =
                sessions (w_db w) ++
                  [mkSession sessionId (u_id user) (u_username user)
                     (w_now w + SESSION_DURATION)]).
  { rewrite Hs. unfold Sql.upsert_session. cbn [s_id].
    replace (Sql.mem_str sessionId (map s_id (sessions (w_db w)))) with false;
      [reflexivity |].
    symmetry. destruct (Sql.mem_str _ _) eqn:E; [| reflexivity].
    apply existsb_exists in E as (y & Hin & Heq).
    apply in_map_iff in Hin as (s & <- & Hin). apply String.eqb_eq in Heq.
    destruct Hses as (Hfresh & _). now destruct (Hfresh s Hin). }
  pose proof
    (wp_run _ _ _ _
       (@cleanupTemporaryDemoUser_undoes (w_db w) user
          (mkSession sessionId (u_id user) (u_username user)
             (w_now w + SESSION_DURATION))
          w1 Hq1 Hacc Hses eq_refl Hu Hs' Hc Hp Hpt Hadded)) as H.
  cbn [s_id] in H. fold teardown in H.
  destruct (fst teardown) as [[] | e]; [| destruct H].
  destruct H as (Hq2 & Hsame).
  exists (Z.of_nat
            (List.length
               (filter (fun u => isTemporaryDemoUser (u_username u))
                  (users (w_db w))))),
    (filter (fun u => isTemporaryDemoUser (u_username u)) (users (w_db w))).
  rewrite !getTemporaryDemoUsersSummary_quiet by assumption. cbn [fst].
  split; [reflexivity |]. split.
  { rewrite Hu, filter_app. cbn [filter]. rewrite Hname.
    rewrite length_app. cbn [List.length]. do 2 f_equal. lia. }
  split; [reflexivity |]. split; [exact Hsame |].
  destruct Hsame as (-> & _). reflexivity.
Qed.

Lemma temporary_account_is_undone_by_its_teardown_witness :
  let w := Sample.world Sample.db_demo 1700000000000 ["ab12cd"; "s9"] in
  let w1 := snd (createTemporaryDemoUser w) in
  exists user,
    fst (createTemporaryDemoUser w) = Ok (user, "s9") /\
    fst (getTemporaryDemoUsersSummary w1) = Ok (1, [user]) /\
    same_tables Sample.db_demo
      (w_db (snd (cleanupTemporaryDemoUser (u_id user) (Some "s9") w1))).
Proof.
  intros w w1. eexists. split; [reflexivity |].
  assert (Hacc : unused_account (users_seq (w_db w)) (w_db w)).
  { split; [| split; [| split]]; intros x Hin; cbn in Hin;
      repeat (destruct Hin as [<- | Hin]; [discriminate |]); destruct Hin. }
  assert (Hses : unused_session "s9" (w_db w)).
  { split; [| split]; intros x Hin; cbn in Hin;
      repeat (destruct Hin as [<- | Hin]; [discriminate |]); destruct Hin. }
  destruct (@temporary_account_is_undone_by_its_teardown w _ "s9"
              eq_refl eq_refl Hacc Hses)
    as (n & listed & H0 & H1 & _ & Hsame & _).
  injection H0 as <- <-. split; [exact H1 | exact Hsame].
Defined.

(** ** A retried creation (withDatabaseRetry around createCollection) *)

Lemma createCollection_interrupted data creator e w :
  w_dbFaults w = [None; Some e] ->
  ic_userId data = Some creator ->
  createCollection data w =
    (Throw e,
     mkWorld (snd (Sql.insert_collection (collection_row data) (w_db w)))
             (w_blobs w) (w_now w) [] (w_blobFaults w) (w_random w)
             (w_trace w)).
Proof.
  intros Hfaults Hcreator.
  destruct w as [d blobs now faults blobFaults random trace].
  cbn [w_dbFaults] in Hfaults. subst faults.
  unfold createCollection, bind, db_exec, db_run, db_stmt, after_stmt,
    with_dbFaults.
  rewrite Hcreator. cbn -[Sql.insert_collection].
  rewrite app_nil_r. unfold collection_row. now rewrite Hcreator.
Qed.

(** X25: the creation of a collection is re-run from its first statement.
    When the insert of the collection succeeds and the insert of the
    creator's ownership row then fails with a connection error,
    [withDatabaseRetry (createCollection data)] succeeds on its second
    attempt: it returns a row under the id after the next one, and the
    tables then hold two new collection rows with the columns asked for;
    the ownership rows added all belong to the second, so that the first
    has the owners it had before, none if its id was not in use. *)
Theorem retried_createCollection_inserts_the_collection_twice :
  forall w data creator e,
    w_dbFaults w = [None; Some e] ->
    is_connection_error e = true ->
    ic_userId data = Some creator ->
    let run := withDatabaseRetry (createCollection data) w in
    let d := w_db w in
    let d' := w_db (snd run) in
    let id := collections_seq d in
    fst run = Ok (collection_row data (id + 1)) /\
    collections d' =
      collections d ++ [collection_row data id; collection_row data (id + 1)] /\
    collectionOwners d' =
      collectionOwners d ++
      mkOwner (id + 1) creator ::
      match partner_of creator d with
      | Some p => [mkOwner (id + 1) (u_id p)]
      | None => []
      end /\
    (forall userId, owns userId id d' = owns userId id d) /\
    w_trace (snd run) =
      w_trace w ++ [ConsoleError "Database operation failed:"].
Proof.
  intros w data creator e Hfaults He Hcreator run d d' id.
  assert (Hrun :
    run =
      (Ok (collection_row data (id + 1)),
       with_db
         (attempt_logged
            (mkWorld (snd (Sql.insert_collection (collection_row data) d))
               (w_blobs w) (w_now w) [] (w_blobFaults w) (w_random w)
               (w_trace w)))
         (created_tables data creator
            (snd (Sql.insert_collection (collection_row data) d))))).
  { unfold run, withDatabaseRetry. rewrite retry_from_step.
    rewrite (createCollection_interrupted data w Hfaults Hcreator), He.
    cbn [andb Nat.ltb Nat.leb]. change (1 <? 3)%nat with true. cbv iota.
    rewrite retry_from_step.
    rewrite createCollection_quiet with (creator := creator);
      [reflexivity | reflexivity | exact Hcreator]. }
  assert (Howners :
    collectionOwners d' =
      collectionOwners d ++
      mkOwner (id + 1) creator ::
      match partner_of creator d with
      | Some p => [mkOwner (id + 1) (u_id p)]
      | None => []
      end).
  { unfold d'. rewrite Hrun. unfold created_tables.
    change (partner_of creator (snd (Sql.insert_collection _ d)))
      with (partner_of creator d).
    cbn. destruct (partner_of creator d); cbn; [| reflexivity].
    now rewrite <- app_assoc. }
  split; [now rewrite Hrun |].
  split.
  { unfold d'. rewrite Hrun. unfold created_tables.
    change (partner_of creator (snd (Sql.insert_collection _ d)))
      with (partner_of creator d).
    destruct (partner_of creator d); cbn; now rewrite <- app_assoc. }
  split; [exact Howners |].
  split.
  - intros userId. unfold owns. rewrite Howners, existsb_app.
    assert (Hid : (id + 1 =? id)%Z = false) by (apply Z.eqb_neq; lia).
    destruct (partner_of creator d); cbn; rewrite ?Hid; cbn;
      now rewrite orb_false_r.
  - now rewrite Hrun.
Qed.

Lemma retried_createCollection_inserts_the_collection_twice_witness :
  let w := mkWorld Sample.db_session [] 1000000
             [None; Some "connect ETIMEDOUT"] [] [] [] in
  let data := mkInsertCollection "trip" None "custom" (Some 7) (Some false)
                None None in
  let run := withDatabaseRetry (createCollection data) w in
  fst run = Ok (collection_row data 11) /\
  map c_id (collections (w_db (snd run))) = [5; 10; 11] /\
  collectionOwners (w_db (snd run)) = [mkOwner 5 7; mkOwner 11 7].
Proof.
  intros w data run.
  destruct (@retried_createCollection_inserts_the_collection_twice
              w data 7 "connect ETIMEDOUT" eq_refl eq_refl eq_refl)
    as (Hret & Hc & Ho & _).
  split; [exact Hret |]. fold run in Hc, Ho.
  split; [now rewrite Hc | exact Ho].
Defined.

(** ** Storing and reading a session (DatabaseSessionStore.set, get, has) *)

Lemma upsert_session_others s d other :
  other <> s_id s ->
  filter (session_is other) (sessions (Sql.upsert_session s d)) =
  filter (session_is other) (sessions d).
Proof.
  intros Hne. unfold Sql.upsert_session.
  assert (Hs : session_is other s = false).
  { apply String.eqb_neq. congruence. }
  destruct (Sql.mem_str (s_id s) (map s_id (sessions d))); cbn [sessions Sql.with_sessions].
  - induction (sessions d) as [| r l IH]; [reflexivity |].
    cbn [map filter]. rewrite IH.
    destruct (String.eqb_spec (s_id r) (s_id s)) as [Heq | _]; [| reflexivity].
    rewrite Hs. unfold session_is. rewrite Heq.
    now replace (String.eqb (s_id s) other) with false.
  - rewrite filter_app. cbn [filter]. rewrite Hs. apply app_nil_r.
Qed.

Lemma upsert_session_keys s d :
  NoDup (map s_id (sessions d)) ->
  NoDup (map s_id (sessions (Sql.upsert_session s d))).
Proof.
  intros Hnd. unfold Sql.upsert_session.
  destruct (Sql.mem_str (s_id s) (map s_id (sessions d))) eqn:E;
    cbn [sessions Sql.with_sessions].
  - replace (map s_id (map (fun r => if String.eqb (s_id r) (s_id s) then s else r)
                         (sessions d)))
      with (map s_id (sessions d)); [exact Hnd |].
    rewrite map_map. apply map_ext. intros r.
    now destruct (String.eqb_spec (s_id r) (s_id s)).
  - rewrite map_app. cbn [map].
    pose proof (Add_app (s_id s) (map s_id (sessions d)) []) as HA.
    rewrite app_nil_r in HA. apply (NoDup_Add HA).
    split; [exact Hnd |]. intros Hin.
    assert (Hmem : Sql.mem_str (s_id s) (map s_id (sessions d)) = true).
    { apply existsb_exists. exists (s_id s).
      split; [exact Hin | apply String.eqb_refl]. }
    congruence.
Qed.

(** X26: what [set] stores, [get] reads back.  With no storage failure,
    for a session of an account that exists and an expiry that is not yet
    past, [set sessionId data] succeeds, and then [get sessionId] returns
    exactly [data] and [has sessionId] is true, both without changing
    anything; the rows stored under other session ids, and every other
    table, are as before, and the session ids stay unique if they were. *)
Theorem set_then_get_reads_back_the_session :
  forall w sessionId data,
    quiet w ->
    account_exists (userId data) (w_db w) = true ->
    w_now w <= expiresAt data ->
    let w1 := snd (DatabaseSessionStore.set sessionId data w) in
    fst (DatabaseSessionStore.set sessionId data w) = Ok tt /\
    DatabaseSessionStore.get sessionId w1 = (Ok (Some data), w1) /\
    DatabaseSessionStore.has sessionId w1 = (Ok true, w1) /\
    (forall other,
        other <> sessionId ->
        filter (session_is other) (sessions (w_db w1)) =
        filter (session_is other) (sessions (w_db w))) /\
    (NoDup (map s_id (sessions (w_db w))) ->
     NoDup (map s_id (sessions (w_db w1)))) /\
    users (w_db w1) = users (w_db w) /\
    collections (w_db w1) = collections (w_db w) /\
    collectionOwners (w_db w1) = collectionOwners (w_db w) /\
    photos (w_db w1) = photos (w_db w).
Proof.
  intros w sessionId data Hq _ Hlive w1.
  assert (Hset := set_quiet sessionId data Hq).
  unfold w1. rewrite Hset. cbn [fst snd].
  set (s := mkSession sessionId (userId data) (username data) (expiresAt data)).
  assert (Hget :
    DatabaseSessionStore.get sessionId (with_db w (Sql.upsert_session s (w_db w))) =
      (Ok (Some data), with_db w (Sql.upsert_session s (w_db w)))).
  { rewrite (@get_unexpired_quiet sessionId _ s).
    - now destruct data.
    - exact Hq.
    - apply (stored_session_upsert s).
    - exact Hlive. }
  split; [reflexivity |]. split; [exact Hget |].
  split.
  { unfold DatabaseSessionStore.has, try_catch, bind. now rewrite Hget. }
  cbn [w_db with_db].
  split; [intros other Hne; now apply upsert_session_others |].
  split; [apply upsert_session_keys |].
  apply upsert_session_same.
Qed.

Lemma set_then_get_reads_back_the_session_witness :
  let w := Sample.world Sample.db_session 1000000 [] in
  let w1 := snd (DatabaseSessionStore.set "s1" (mkSessionData 7 "alice" 1600000) w) in
  DatabaseSessionStore.get "s1" w1 = (Ok (Some (mkSessionData 7 "alice" 1600000)), w1) /\
  map s_id (sessions (w_db w1)) = ["s1"].
Proof.
  intros w w1.
  assert (Hlive : w_now w <= expiresAt (mkSessionData 7 "alice" 1600000))
    by (cbn; lia).
  destruct (@set_then_get_reads_back_the_session
              w "s1" (mkSessionData 7 "alice" 1600000) eq_refl eq_refl Hlive)
    as (_ & Hget & _).
  split; [exact Hget | reflexivity].
Defined.
